(** * An Entity-Component-System engine: model and properties

    The development embeds [src/ecs/engine.ts] (classes [Engine] and
    [System]) and [src/ecs/component.ts] (component and blueprint data) and
    proves the properties of the engine's tick, entity, listener, system and
    blueprint operations.

    JavaScript objects have identity.  Entities, listeners, systems and
    engines are known to the code below only through [indexOf] and method
    calls, so they are modelled as references (natural numbers) into
    stores.  The two arrays that the engine hands to other code, or copies
    for other code ([_entities] through the [entities] getter, [_blueprints]
    through the [EntityFactory] constructor), live in a heap of array
    objects so that sharing is visible; the arrays that never leave their
    owner ([_systems], [_entityListeners], [System._engines]) are fields.

    The bodies of [System.update] and of the listeners' methods are user
    code.  They are modelled by the calls they make ([Behaviour],
    [Handlers]), which may change the very arrays the engine is looping
    over: the loops over [_systems] and [_entityListeners] read the array
    afresh at every step, as the array iterator does. *)

From stdpp Require Import gmap strings list pretty sorting.
From Stdlib Require Import ZArith Lia.

Local Open Scope Z_scope.

(** ** JavaScript values *)

(** The values the code below meets.  [VNum n] is the Number value of the
    integer [n], that is the double nearest to [n]. *)
Inductive JSVal :=
  | VUndefined
  | VNull
  | VBool (b : bool)
  | VNum (n : Z)
  | VStr (s : string)
  | VObject.

(** ToBoolean, as used by [if (x)] and [!x]. *)
Definition truthy (v : JSVal) : bool :=
  match v with
  | VUndefined | VNull => false
  | VBool b => b
  | VNum n => negb (n =? 0)
  | VStr s => negb (String.eqb s "")
  | VObject => true
  end.

(** The Number value nearest to the integer [n]: [n] itself when it has at
    most 53 significant bits, else [n] rounded to 53 bits, a tie going to
    the even one; [None] is an infinity. *)
Definition nearest_double (n : Z) : option Z :=
  let m := Z.abs n in
  let sh := Z.log2 m + 1 - 53 in
  if sh <=? 0 then Some n
  else
    let q := Z.shiftr m sh in
    let r := m - Z.shiftl q sh in
    let half := Z.shiftl 1 (sh - 1) in
    let q' := if (half <? r) || ((r =? half) && Z.odd q) then q + 1 else q in
    let d := Z.shiftl q' sh in
    if Z.shiftl 1 1024 <=? d then None else Some (Z.sgn n * d).

(** The number of decimal digits of a positive integer. *)
Definition decimal_length (x : Z) : Z := Z.of_nat (String.length (pretty x)).

(** The digit strings [s] of [k] digits for which [s × 10^(n - k)] is the
    Number [x], [n] being the number of digits of [x] or one more; each with
    its [n] and its distance from [x]. *)
Definition digit_candidates (x k : Z) : list (Z * Z * Z) :=
  let D := decimal_length x in
  n ← [D; D + 1];
  s ← [x / 10 ^ (n - k); x / 10 ^ (n - k) + 1];
  if bool_decide (k ≤ n ∧ 10 ^ (k - 1) ≤ s < 10 ^ k ∧
                  nearest_double (s * 10 ^ (n - k)) = Some x)
  then [(s, n, Z.abs (s * 10 ^ (n - k) - x))] else [].

Definition closest (cs : list (Z * Z * Z)) : option (Z * Z) :=
  fst <$> foldr (λ c best,
                   match best with
                   | Some b => if snd c <=? snd b then Some c else Some b
                   | None => Some c
                   end) None cs.

(** The shortest digit string that reads back as the Number [x], with the
    position of the decimal point: the smallest [k] from [k] on. *)
Fixpoint shortest_digits (steps : nat) (x k : Z) : Z * Z * Z :=
  match steps with
  | O => (x, decimal_length x, decimal_length x)
  | S steps' =>
      match closest (digit_candidates x k) with
      | Some (s, n) => (s, n, k)
      | None => shortest_digits steps' x (k + 1)
      end
  end.

Definition zeros (n : Z) : string := String.concat "" (replicate (Z.to_nat n) "0").

(** Number::toString for a positive integral Number: the digits, filled up
    with zeros, when there are at most 21 of them, else the exponent form. *)
Definition positive_to_string (x : Z) : string :=
  let '(s, n, k) := shortest_digits 17 x 1 in
  if n <=? 21 then pretty s +:+ zeros (n - k)
  else
    match pretty s with
    | String d rest =>
        String d (if bool_decide (rest = "") then "" else "." +:+ rest)
          +:+ "e+" +:+ pretty (n - 1)
    | EmptyString => ""
    end.

(** Number::toString of the Number nearest to the integer [n]. *)
Definition number_to_string (n : Z) : string :=
  match nearest_double n with
  | None => if n <? 0 then "-Infinity" else "Infinity"
  | Some x =>
      if x =? 0 then "0"
      else if x <? 0 then "-" +:+ positive_to_string (- x)
      else positive_to_string x
  end.

(** ToPropertyKey, as used by [obj[key]]. *)
Definition to_property_key (v : JSVal) : string :=
  match v with
  | VUndefined => "undefined"
  | VNull => "null"
  | VBool true => "true"
  | VBool false => "false"
  | VNum n => number_to_string n
  | VStr s => s
  | VObject => "[object Object]"
  end.

(** The properties every plain object inherits from [Object.prototype]. *)
Definition object_prototype : list string :=
  [ "constructor"; "hasOwnProperty"; "isPrototypeOf"; "propertyIsEnumerable";
    "toLocaleString"; "toString"; "valueOf"; "__proto__";
    "__defineGetter__"; "__defineSetter__"; "__lookupGetter__";
    "__lookupSetter__" ].

(** [obj[key]] on a plain object with own properties [o]. *)
Definition js_get (o : gmap string JSVal) (key : JSVal) : JSVal :=
  match o !! to_property_key key with
  | Some v => v
  | None =>
      if bool_decide (to_property_key key ∈ object_prototype)
      then VObject else VUndefined
  end.

(** [Array.prototype.indexOf]; [None] stands for [-1]. *)
Fixpoint indexOf `{EqDecision A} (x : A) (l : list A) : option nat :=
  match l with
  | [] => None
  | y :: l' => if decide (y = x) then Some 0%nat else S <$> indexOf x l'
  end.

(** ** Components and blueprints ([component.ts]) *)

Record Component := mkComponent {
  comp_name : string;
  comp_fields : gmap string JSVal
}.

(** [ComponentClass<T>]: a name, an optional tag and a constructor without
    arguments; [cc_new] is the instance that constructor yields. *)
Record ComponentClass := mkComponentClass {
  cc_name : string;
  cc_tag : option string;
  cc_new : Component
}.

(** [BlueprintComponent<T>]: [values] is an object, or missing or [null]. *)
Record BlueprintComponent := mkBlueprintComponent {
  component : ComponentClass;
  values : option (gmap string JSVal)
}.

(** [Blueprint<T>]; [bp_ref] is the identity of the object. *)
Record Blueprint := mkBlueprint {
  bp_ref : nat;
  bp_name : string;
  bp_components : list BlueprintComponent;
  bp_blueprints : option (list string)
}.

(** ** Entities and the entity factory

    [entity.ts] and [entity-factory.ts] are not part of the sources at
    hand. *)

(** Modelled from the spec: the component map of an Entity, "a mapping from
    component-name to component instance (one instance per name; adding a
    second instance with the same name replaces the first)". *)
Abbreviation Entity := (gmap string Component).

(** Modelled from the spec: [Entity.putComponent], "Put overwrites any
    existing instance of the same name". *)
Definition putComponent (name : string) (c : Component) (ent : Entity) : Entity :=
  <[name := c]> ent.

(** Modelled from the spec: [Entity.getComponent], which "returns an
    explicit option/nullable" on an absent component. *)
Definition getComponent (name : string) (ent : Entity) : option Component :=
  ent !! name.

(** Modelled from the spec: the [EntityFactory] object, a "read-only view
    over the registered Blueprint set, built once at start time from whatever
    Blueprints were registered up to that point". *)
Record EntityFactory := mkEntityFactory {
  fac_blueprints : list Blueprint;
  fac_components : list ComponentClass
}.

(** ** The object store *)

Abbreviation loc := nat (only parsing).
Abbreviation EntityRef := nat (only parsing).
Abbreviation ListenerRef := nat (only parsing).
Abbreviation SystemRef := nat (only parsing).
Abbreviation EngineRef := nat (only parsing).

(** A JavaScript array object; [frozen] is set by [Object.freeze]. *)
Record ArrayObj (A : Type) := mkArray {
  elems : list A;
  frozen : bool
}.
Arguments mkArray {A} _ _.
Arguments elems {A} _.
Arguments frozen {A} _.

(** [class System]: the two private fields. *)
Record System := mkSystem {
  _priority : Z;
  _engines : list EngineRef
}.

(** The state the [System] constructor sets up. *)
Definition new_System : System := {| _priority := 0; _engines := [] |}.

(** [class Engine]: its fields, in the order of the source. *)
Record Engine := mkEngine {
  _entities : loc;
  _entityListeners : list ListenerRef;
  _systems : list SystemRef;
  _systemsNeedSorting : bool;
  entityFactory : option EntityFactory;
  blueprintTypes : option (gmap string JSVal);
  _blueprints : loc;
  _components : list ComponentClass
}.

(** What a listener is told. *)
Inductive Notification :=
  | onEntityAdded (listener : ListenerRef) (entity : EntityRef)
  | onEntityRemoved (listener : ListenerRef) (entity : EntityRef).

(** One call [system.update(engine, delta)]. *)
Record Invocation := mkInvocation {
  inv_system : SystemRef;
  inv_engine : EngineRef;
  inv_delta : Z
}.

(** The whole program state.  [notifications] and [invocations] record, in
    order, the calls made to listeners and to [System.update]. *)
Record World := mkWorld {
  entity_arrays : gmap loc (ArrayObj EntityRef);
  blueprint_arrays : gmap loc (ArrayObj Blueprint);
  engine_objs : gmap EngineRef Engine;
  system_objs : gmap SystemRef System;
  notifications : list Notification;
  invocations : list Invocation
}.

Definition empty_world : World :=
  {| entity_arrays := ∅; blueprint_arrays := ∅; engine_objs := ∅;
     system_objs := ∅; notifications := []; invocations := [] |}.

Definition set_entity_arrays (f : gmap loc (ArrayObj EntityRef) → gmap loc (ArrayObj EntityRef))
    (w : World) : World :=
  mkWorld (f (entity_arrays w)) (blueprint_arrays w) (engine_objs w)
          (system_objs w) (notifications w) (invocations w).

Definition set_blueprint_arrays (f : gmap loc (ArrayObj Blueprint) → gmap loc (ArrayObj Blueprint))
    (w : World) : World :=
  mkWorld (entity_arrays w) (f (blueprint_arrays w)) (engine_objs w)
          (system_objs w) (notifications w) (invocations w).

Definition set_engine_objs (f : gmap EngineRef Engine → gmap EngineRef Engine)
    (w : World) : World :=
  mkWorld (entity_arrays w) (blueprint_arrays w) (f (engine_objs w))
          (system_objs w) (notifications w) (invocations w).

Definition set_system_objs (f : gmap SystemRef System → gmap SystemRef System)
    (w : World) : World :=
  mkWorld (entity_arrays w) (blueprint_arrays w) (engine_objs w)
          (f (system_objs w)) (notifications w) (invocations w).

Definition set_notifications (f : list Notification → list Notification)
    (w : World) : World :=
  mkWorld (entity_arrays w) (blueprint_arrays w) (engine_objs w)
          (system_objs w) (f (notifications w)) (invocations w).

Definition set_invocations (f : list Invocation → list Invocation)
    (w : World) : World :=
  mkWorld (entity_arrays w) (blueprint_arrays w) (engine_objs w)
          (system_objs w) (notifications w) (f (invocations w)).

(** A [System] object that was never written still has the state its
    constructor gave it. *)
Definition system_of (w : World) (s : SystemRef) : System :=
  default new_System (system_objs w !! s).

Definition priority (w : World) (s : SystemRef) : Z := _priority (system_of w s).

(** ** Exceptions and the monad of operations *)

Inductive Exn :=
  | InvalidBlueprintType (type : JSVal)
  | UnknownBlueprint (ref : JSVal)
  | CyclicBlueprintInheritance (name : string)
  | TypeError.

(** An operation returns, throws, or is still running when its fuel is used
    up.  State changes made before a throw stay. *)
Inductive Res (A : Type) :=
  | Ok (a : A) (w : World)
  | Throw (e : Exn) (w : World)
  | OutOfFuel.
Arguments Ok {A} _ _.
Arguments Throw {A} _ _.
Arguments OutOfFuel {A}.

Definition M (A : Type) : Type := World → Res A.

#[global] Instance M_ret : MRet M := λ A a w, Ok a w.

#[global] Instance M_bind : MBind M := λ A B f m w,
  match m w with
  | Ok a w' => f a w'
  | Throw e w' => Throw e w'
  | OutOfFuel => OutOfFuel
  end.

Definition throw {A} (e : Exn) : M A := λ w, Throw e w.

(** [for (let x of xs) body(x)] over an array that [body] cannot change. *)
Fixpoint for_of {A} (xs : list A) (body : A → M unit) : M unit :=
  match xs with
  | [] => mret tt
  | x :: xs' => body x ;; for_of xs' body
  end.

(** Dereferencing an engine; a reference to no object is [undefined], and a
    method call on it a [TypeError]. *)
Definition get_engine (e : EngineRef) : M Engine := λ w,
  match engine_objs w !! e with
  | Some E => Ok E w
  | None => Throw TypeError w
  end.

Definition put_engine (e : EngineRef) (E : Engine) : M unit := λ w,
  Ok tt (set_engine_objs <[e := E]> w).

Definition put_system (s : SystemRef) (S : System) : M unit := λ w,
  Ok tt (set_system_objs <[s := S]> w).

Definition get_system (s : SystemRef) : M System := λ w, Ok (system_of w s) w.

Definition get_world : M World := λ w, Ok w w.

Definition alloc_engine (E : Engine) : M EngineRef := λ w,
  let e := fresh (dom (engine_objs w)) in
  Ok e (set_engine_objs <[e := E]> w).

Definition notify (n : Notification) : M unit := λ w,
  Ok tt (set_notifications (λ t, t ++ [n]) w).

Definition log_invocation (i : Invocation) : M unit := λ w,
  Ok tt (set_invocations (λ t, t ++ [i]) w).

(** *** Array objects *)

Definition read_entity_array (l : loc) : M (list EntityRef) := λ w,
  match entity_arrays w !! l with
  | Some a => Ok (elems a) w
  | None => Throw TypeError w
  end.

(** A write to an array; a frozen array refuses it with a [TypeError]
    (class bodies and modules are strict code). *)
Definition write_entity_array (l : loc) (f : list EntityRef → list EntityRef) : M unit := λ w,
  match entity_arrays w !! l with
  | Some a =>
      if frozen a then Throw TypeError w
      else Ok tt (set_entity_arrays <[l := mkArray (f (elems a)) false]> w)
  | None => Throw TypeError w
  end.

Definition alloc_entity_array (a : ArrayObj EntityRef) : M loc := λ w,
  let l := fresh (dom (entity_arrays w)) in
  Ok l (set_entity_arrays <[l := a]> w).

Definition read_blueprint_array (l : loc) : M (list Blueprint) := λ w,
  match blueprint_arrays w !! l with
  | Some a => Ok (elems a) w
  | None => Throw TypeError w
  end.

Definition write_blueprint_array (l : loc) (f : list Blueprint → list Blueprint) : M unit := λ w,
  match blueprint_arrays w !! l with
  | Some a =>
      if frozen a then Throw TypeError w
      else Ok tt (set_blueprint_arrays <[l := mkArray (f (elems a)) false]> w)
  | None => Throw TypeError w
  end.

Definition alloc_blueprint_array (a : ArrayObj Blueprint) : M loc := λ w,
  let l := fresh (dom (blueprint_arrays w)) in
  Ok l (set_blueprint_arrays <[l := a]> w).

(** ** Blueprint resolution ([EntityFactory]) *)

(** Modelled from the spec: the default instance of a component type
    ("instantiates that type's default via its ComponentClass factory"), with
    the blueprint's [values], when there are any, assigned onto it. *)
Definition instantiate (bc : BlueprintComponent) : Component :=
  let c := cc_new (component bc) in
  match values bc with
  | Some vs => mkComponent (comp_name c) (vs ∪ comp_fields c)
  | None => c
  end.

Definition find_blueprint (bs : list Blueprint) (name : string) : option Blueprint :=
  List.find (λ b, String.eqb (bp_name b) name) bs.

Definition parents (b : Blueprint) : list string := default [] (bp_blueprints b).

(** The outcome of resolving a name: the flat component list, a failure, or
    [None] when the fuel is used up. *)
Definition Resolution : Type := option (Exn + list BlueprintComponent).

(** Parents are resolved "depth-first in the order listed"; the first
    failure ends the resolution. *)
Fixpoint resolve_parents (rec : string → Resolution) (ps : list string) : Resolution :=
  match ps with
  | [] => Some (inr [])
  | p :: ps' =>
      match rec p with
      | Some (inr cs) =>
          match resolve_parents rec ps' with
          | Some (inr cs') => Some (inr (cs ++ cs'))
          | r => r
          end
      | r => r
      end
  end.

(** Modelled from the spec: the resolution of section 4.5.  [path] is the
    "current resolution path"; a name already on it is a
    CyclicBlueprintInheritance, a name that is not registered an
    UnknownBlueprint; the parents' lists come before the blueprint's own. *)
Fixpoint resolve (fuel : nat) (bs : list Blueprint) (path : list string)
    (name : string) : Resolution :=
  match fuel with
  | O => None
  | S fuel' =>
      if bool_decide (name ∈ path) then Some (inl (CyclicBlueprintInheritance name))
      else
        match find_blueprint bs name with
        | None => Some (inl (UnknownBlueprint (VStr name)))
        | Some b =>
            match resolve_parents (resolve fuel' bs (name :: path)) (parents b) with
            | Some (inr cs) => Some (inr (cs ++ bp_components b))
            | r => r
            end
        end
  end.

(** The components are put in list order, so a later entry replaces an
    earlier one of the same name. *)
Definition assemble (cs : list BlueprintComponent) : Entity :=
  foldl (λ ent bc, putComponent (cc_name (component bc)) (instantiate bc) ent) ∅ cs.

(** Modelled from the spec: [EntityFactory.buildEntity].  The Entity is
    assembled only after the whole chain has been resolved.  A path never
    holds a name twice and holds registered names only, so it is no longer
    than the registry and the fuel below is never used up
    ([resolve_total]). *)
Definition EntityFactory_buildEntity (f : EntityFactory) (type : JSVal)
    : option (Exn + Entity) :=
  match type with
  | VStr name =>
      match resolve (S (length (fac_blueprints f))) (fac_blueprints f) [] name with
      | Some (inr cs) => Some (inr (assemble cs))
      | Some (inl e) => Some (inl e)
      | None => None
      end
  | _ => Some (inl (UnknownBlueprint type))
  end.

(** Modelled from the spec: the [EntityFactory] constructor, which
    "snapshots the current Blueprint registry": it reads the array it is
    given once and keeps the elements. *)
Definition new_EntityFactory (blueprints : loc) (components : list ComponentClass)
    : M EntityFactory :=
  bs ← read_blueprint_array blueprints;
  mret (mkEntityFactory bs components).

(** ** User code *)

(** What user code (the body of a [System.update], the body of a listener's
    [onEntityAdded] or [onEntityRemoved]) may do to the engine and to the
    systems (section 5 of the specification lists these calls), and, for
    code that holds an array the [entities] getter returned, a write to that
    array. *)
Inductive Cmd :=
  | AddEntity (e : EngineRef) (entity : EntityRef)
  | RemoveEntity (e : EngineRef) (entity : EntityRef)
  | AddSystem (e : EngineRef) (system : SystemRef)
  | RemoveSystem (e : EngineRef) (system : SystemRef)
  | SetPriority (system : SystemRef) (value : Z)
  | AddEntityListener (e : EngineRef) (listener : ListenerRef)
  | RemoveEntityListener (e : EngineRef) (listener : ListenerRef)
  | AddBlueprint (e : EngineRef) (blueprint : Blueprint)
  | Start (e : EngineRef)
  | GetEntities (e : EngineRef)
  | ArrayPush (l : loc) (entity : EntityRef).

(** The body of each concrete [System.update]: the calls it makes, which
    may depend on the engine, on the elapsed time and on the state. *)
Definition Behaviour : Type := SystemRef → EngineRef → Z → World → list Cmd.

(** The bodies of the listeners' methods: the calls that the method a
    notification names makes, which may depend on the state. *)
Definition Handlers : Type := Notification → World → list Cmd.

(** ** [class Engine] *)

Definition with_entityListeners (E : Engine) (ls : list ListenerRef) : Engine :=
  mkEngine (_entities E) ls (_systems E) (_systemsNeedSorting E)
           (entityFactory E) (blueprintTypes E) (_blueprints E) (_components E).

Definition with_systems (E : Engine) (ss : list SystemRef) : Engine :=
  mkEngine (_entities E) (_entityListeners E) ss (_systemsNeedSorting E)
           (entityFactory E) (blueprintTypes E) (_blueprints E) (_components E).

Definition with_systemsNeedSorting (E : Engine) (b : bool) : Engine :=
  mkEngine (_entities E) (_entityListeners E) (_systems E) b
           (entityFactory E) (blueprintTypes E) (_blueprints E) (_components E).

Definition with_entityFactory (E : Engine) (f : EntityFactory) : Engine :=
  mkEngine (_entities E) (_entityListeners E) (_systems E) (_systemsNeedSorting E)
           (Some f) (blueprintTypes E) (_blueprints E) (_components E).

(** The constructor, with the field initialisers: two new empty arrays, no
    listeners, no systems, the flag down, no factory yet. *)
Definition new_Engine (components : list ComponentClass)
    (blueprintTypes : option (gmap string JSVal)) : M EngineRef :=
  ents ← alloc_entity_array (mkArray [] false);
  bps ← alloc_blueprint_array (mkArray [] false);
  alloc_engine (mkEngine ents [] [] false None blueprintTypes bps components).

Definition start (e : EngineRef) : M unit :=
  E ← get_engine e;
  f ← new_EntityFactory (_blueprints E) (_components E);
  put_engine e (with_entityFactory E f).

(** [this.entityFactory.buildEntity(type)]; a factory that [start] has not
    set is [undefined]. *)
Definition call_buildEntity (factory : option EntityFactory) (type : JSVal) : M Entity :=
  match factory with
  | None => throw TypeError
  | Some f =>
      match EntityFactory_buildEntity f type with
      | Some (inr ent) => mret ent
      | Some (inl err) => throw err
      | None => λ _, OutOfFuel
      end
  end.

(** [buildEntity]: the guard is on the truth value of
    [this.blueprintTypes[type]]. *)
Definition buildEntity (e : EngineRef) (type : JSVal) : M Entity :=
  E ← get_engine e;
  type' ← match blueprintTypes E with
           | Some bt =>
               if negb (truthy (js_get bt type))
               then throw (InvalidBlueprintType type)
               else mret (js_get bt type)
           | None => mret type
           end;
  call_buildEntity (entityFactory E) type'.

(** The getter [entities]: [slice(0)] makes a new array object,
    [Object.freeze] freezes that one. *)
Definition entities (e : EngineRef) : M loc :=
  E ← get_engine e;
  es ← read_entity_array (_entities E);
  alloc_entity_array (mkArray es true).

Definition notifyPriorityChange (e : EngineRef) (system : SystemRef) : M unit :=
  E ← get_engine e;
  put_engine e (with_systemsNeedSorting E true).

Definition addEntityListener (e : EngineRef) (listener : ListenerRef) : M unit :=
  E ← get_engine e;
  match indexOf listener (_entityListeners E) with
  | None => put_engine e (with_entityListeners E (_entityListeners E ++ [listener]))
  | Some _ => mret tt
  end.

Definition removeEntityListener (e : EngineRef) (listener : ListenerRef) : M unit :=
  E ← get_engine e;
  match indexOf listener (_entityListeners E) with
  | Some index => put_engine e (with_entityListeners E (delete index (_entityListeners E)))
  | None => mret tt
  end.

(** The entity operations call listeners, whose code may call the engine
    again: [handlers] is the code of the listeners and [run] performs the
    calls that code makes. *)
Section Listeners.

Variable handlers : Handlers.
Variable run : Cmd → M unit.

(** One call of a listener's method: the call is recorded and the body of
    the method runs. *)
Definition call_listener (n : Notification) : M unit :=
  notify n;;
  w ← get_world;
  for_of (handlers n w) run.

(** [for (let listener of this._entityListeners) ...]: the array iterator
    keeps an index and reads the array, and its length, afresh at every
    step, so it sees what the listeners called so far did to the array.
    [call] is the call the loop body makes; [fuel] bounds the number of
    steps. *)
Fixpoint for_listeners (fuel : nat) (e : EngineRef)
    (call : ListenerRef → Notification) (i : nat) : M unit :=
  E ← get_engine e;
  match _entityListeners E !! i return M unit with
  | None => mret tt
  | Some listener =>
      match fuel with
      | O => λ _, OutOfFuel
      | S fuel' =>
          call_listener (call listener);;
          for_listeners fuel' e call (S i)
      end
  end.

(** The loop has fuel for the listeners there are when it starts and for
    [fuel] more, which listeners that register listeners can use up. *)
Definition addEntity (fuel : nat) (e : EngineRef) (entity : EntityRef) : M unit :=
  E ← get_engine e;
  es ← read_entity_array (_entities E);
  match indexOf entity es with
  | None =>
      write_entity_array (_entities E) (λ es, es ++ [entity]);;
      for_listeners (length (_entityListeners E) + fuel) e
                    (λ listener, onEntityAdded listener entity) 0
  | Some _ => mret tt
  end.

Definition addEntities (fuel : nat) (e : EngineRef) (entities : list EntityRef)
    : M unit :=
  for_of entities (addEntity fuel e).

Definition removeEntity (fuel : nat) (e : EngineRef) (entity : EntityRef) : M unit :=
  E ← get_engine e;
  es ← read_entity_array (_entities E);
  match indexOf entity es with
  | Some index =>
      write_entity_array (_entities E) (delete index);;
      for_listeners (length (_entityListeners E) + fuel) e
                    (λ listener, onEntityRemoved listener entity) 0
  | None => mret tt
  end.

Definition removeEntities (fuel : nat) (e : EngineRef) (entities : list EntityRef)
    : M unit :=
  for_of entities (removeEntity fuel e).

End Listeners.

Definition addBlueprint (e : EngineRef) (blueprint : Blueprint) : M unit :=
  E ← get_engine e;
  bs ← read_blueprint_array (_blueprints E);
  match indexOf (bp_ref blueprint) (bp_ref <$> bs) with
  | None => write_blueprint_array (_blueprints E) (λ bs, bs ++ [blueprint])
  | Some _ => mret tt
  end.

Definition addBlueprints (e : EngineRef) (blueprints : list Blueprint) : M unit :=
  for_of blueprints (addBlueprint e).

(** ** [class System] *)

Definition onAttach (s : SystemRef) (engine : EngineRef) : M unit :=
  S ← get_system s;
  match indexOf engine (_engines S) with
  | None => put_system s (mkSystem (_priority S) (_engines S ++ [engine]))
  | Some _ => mret tt
  end.

Definition onDetach (s : SystemRef) (engine : EngineRef) : M unit :=
  S ← get_system s;
  match indexOf engine (_engines S) with
  | Some index => put_system s (mkSystem (_priority S) (delete index (_engines S)))
  | None => mret tt
  end.

(** The setter of [priority]. *)
Definition set_priority (s : SystemRef) (value : Z) : M unit :=
  S ← get_system s;
  put_system s (mkSystem value (_engines S));;
  for_of (_engines S) (λ engine, notifyPriorityChange engine s).

(** ** [Engine]: systems and the tick *)

Definition addSystem (e : EngineRef) (system : SystemRef) : M unit :=
  E ← get_engine e;
  match indexOf system (_systems E) with
  | None =>
      put_engine e (with_systems E (_systems E ++ [system]));;
      onAttach system e;;
      E' ← get_engine e;
      put_engine e (with_systemsNeedSorting E' true)
  | Some _ => mret tt
  end.

Definition addSystems (e : EngineRef) (systems : list SystemRef) : M unit :=
  for_of systems (addSystem e).

Definition removeSystem (e : EngineRef) (system : SystemRef) : M unit :=
  E ← get_engine e;
  match indexOf system (_systems E) with
  | Some index =>
      put_engine e (with_systems E (delete index (_systems E)));;
      onDetach system e
  | None => mret tt
  end.

Definition removeSystems (e : EngineRef) (systems : list SystemRef) : M unit :=
  for_of systems (removeSystem e).

(** [Array.prototype.sort] with a comparator is a stable sort: an element
    goes in front of the first later one it does not compare greater
    than. *)
Fixpoint sort_insert {A} (cmp : A → A → Z) (x : A) (l : list A) : list A :=
  match l with
  | [] => [x]
  | y :: l' => if decide (cmp x y ≤ 0) then x :: y :: l' else y :: sort_insert cmp x l'
  end.

Definition Array_sort {A} (cmp : A → A → Z) (l : list A) : list A :=
  foldr (sort_insert cmp) [] l.

(** The comparator of [update]: [(a, b) => a.priority - b.priority]. *)
Definition by_priority (w : World) (a b : SystemRef) : Z := priority w a - priority w b.

(** ** Calls made by user code *)

(** The call a command stands for; [run] performs the calls that the
    listeners called by it make. *)
Definition perform (handlers : Handlers) (run : Cmd → M unit) (fuel : nat)
    (c : Cmd) : M unit :=
  match c with
  | AddEntity e x => addEntity handlers run fuel e x
  | RemoveEntity e x => removeEntity handlers run fuel e x
  | AddSystem e s => addSystem e s
  | RemoveSystem e s => removeSystem e s
  | SetPriority s v => set_priority s v
  | AddEntityListener e l => addEntityListener e l
  | RemoveEntityListener e l => removeEntityListener e l
  | AddBlueprint e b => addBlueprint e b
  | Start e => start e
  | GetEntities e => _ ← entities e; mret tt
  | ArrayPush l x => write_entity_array l (λ es, es ++ [x])
  end.

(** A call with the listeners' code [handlers].  A listener's code can make
    calls that call listeners again, without end: [fuel] bounds how deep
    the calls made by listeners go, and the steps of each listener loop. *)
Fixpoint exec (handlers : Handlers) (fuel : nat) (c : Cmd) {struct fuel} : M unit :=
  perform handlers
          (match fuel with
           | O => λ _ _, OutOfFuel
           | S fuel' => exec handlers fuel'
           end)
          fuel c.

Definition run_script (handlers : Handlers) (fuel : nat) (cs : list Cmd) : M unit :=
  for_of cs (exec handlers fuel).

Section Tick.

Variable handlers : Handlers.
Variable behaviour : Behaviour.

(** One call of [system.update(engine, delta)]; [depth] is the fuel of the
    calls its body makes. *)
Definition System_update (depth : nat) (s : SystemRef) (e : EngineRef) (delta : Z)
    : M unit :=
  log_invocation (mkInvocation s e delta);;
  w ← get_world;
  run_script handlers depth (behaviour s e delta w).

(** [for (let system of this._systems) system.update(this, delta)]: the
    array iterator keeps an index and reads the array, and its length,
    afresh at every step. *)
Fixpoint run_systems (depth fuel : nat) (e : EngineRef) (delta : Z) (i : nat)
    : M unit :=
  match fuel with
  | O => λ _, OutOfFuel
  | S fuel' =>
      E ← get_engine e;
      match _systems E !! i with
      | None => mret tt
      | Some system =>
          System_update depth system e delta;;
          run_systems depth fuel' e delta (S i)
      end
  end.

Definition sort_step (e : EngineRef) : M unit :=
  E ← get_engine e;
  if _systemsNeedSorting E then
    put_engine e (with_systemsNeedSorting E false);;
    E' ← get_engine e;
    w ← get_world;
    put_engine e (with_systems E' (Array_sort (by_priority w) (_systems E')))
  else mret tt.

Definition update (fuel : nat) (e : EngineRef) (delta : Z) : M unit :=
  sort_step e;;
  run_systems fuel fuel e delta 0.

End Tick.
(** * The vocabulary of the properties, and scenarios *)

(** The state an operation leaves, whether it returns or throws. *)
Definition final {A} (r : Res A) : option World :=
  match r with
  | Ok _ w | Throw _ w => Some w
  | OutOfFuel => None
  end.

(** Listeners whose methods make no call. *)
Definition silent : Handlers := λ _ _, [].

(** The commands that call listeners. *)
Definition calls_listeners (c : Cmd) : bool :=
  match c with
  | AddEntity _ _ | RemoveEntity _ _ => true
  | _ => false
  end.

Definition quiet (handlers : Handlers) : Prop := ∀ n w, handlers n w = [].

(** What a command does to the system list of engine [e]. *)
Definition systems_after (e : EngineRef) (c : Cmd) (ss : list SystemRef) : list SystemRef :=
  match c with
  | AddSystem e' s =>
      if decide (e' = e)
      then match indexOf s ss with None => ss ++ [s] | Some _ => ss end
      else ss
  | RemoveSystem e' s =>
      if decide (e' = e)
      then match indexOf s ss with Some i => delete i ss | None => ss end
      else ss
  | _ => ss
  end.

(** A command is within [P] when it keeps the system list of engine [e]
    within [P] and only adds at the list's end. *)
Definition cmd_ok (e : EngineRef) (P : list SystemRef → Prop) (c : Cmd) : Prop :=
  ∀ ss, P ss → P (systems_after e c ss) ∧ ss `prefix_of` systems_after e c ss.

(** The record of the call [s.update(e, delta)]. *)
Definition invoke (e : EngineRef) (delta : Z) (s : SystemRef) : Invocation :=
  mkInvocation s e delta.


(** What the sort at the start of a tick makes of the system list. *)
Definition tick_order (w : World) (E : Engine) : list SystemRef :=
  if _systemsNeedSorting E then Array_sort (by_priority w) (_systems E)
  else _systems E.


(** A list in ascending priority order. *)
Definition in_priority_order (w : World) (ss : list SystemRef) : Prop :=
  StronglySorted (λ a b, priority w a ≤ priority w b) ss.

Definition touches_systems (e : EngineRef) (c : Cmd) : bool :=
  match c with
  | AddSystem e' _ | RemoveSystem e' _ => bool_decide (e' = e)
  | _ => false
  end.

(** No callback adds a system to engine [e] or removes one from it. *)
Definition keeps_systems (behaviour : Behaviour) (e : EngineRef) : Prop :=
  ∀ s delta w, Forall (λ c, touches_systems e c = false) (behaviour s e delta w).

(** No listener adds a system to engine [e] or removes one from it. *)
Definition leaves_systems (handlers : Handlers) (e : EngineRef) : Prop :=
  ∀ n w, Forall (λ c, touches_systems e c = false) (handlers n w).

(** The state an operation leaves behind. *)
Definition world_after {A} (m : M A) (w : World) : World := default w (final (m w)).

(** The systems a tick has invoked when it returns. *)
Definition invoked (r : Res unit) : option (list SystemRef) :=
  match r with
  | Ok _ w => Some (inv_system <$> invocations w)
  | _ => None
  end.

(** One engine (reference 0) with the systems 10, 11, 12 and 13 of
    priorities 0, 1, 2 and 3, before its first tick. *)
Definition four_systems : World :=
  world_after (e ← new_Engine [] None;
               addSystems e [10; 11; 12; 13]%nat;;
               set_priority 11%nat 1;;
               set_priority 12%nat 2;;
               set_priority 13%nat 3) empty_world.

Definition four_systems_engine : Engine :=
  mkEngine 0 [] [10; 11; 12; 13]%nat true None None 0 [].

(** Callbacks that leave the system list alone. *)
Definition calm : Behaviour := λ s e _ _, [AddEntity e s; SetPriority s 7].

(** The callback of system 10 takes system 12 out and puts it back. *)
Definition reorder : Behaviour := λ s e _ _,
  if decide (s = 10%nat) then [RemoveSystem e 12%nat; AddSystem e 12%nat] else [].

(** The callback of system 11 adds system 20. *)
Definition spawn : Behaviour := λ s e _ _,
  if decide (s = 11%nat) then [AddSystem e 20%nat] else [].

(** The callback of system 11 adds system 20 and that of system 12 adds
    system 21. *)
Definition spawn_two : Behaviour := λ s e _ _,
  if decide (s = 11%nat) then [AddSystem e 20%nat]
  else if decide (s = 12%nat) then [AddSystem e 21%nat] else [].


(** The engine of [four_systems] with the listeners 30 and 31, registered
    in that order, and the entity 4. *)
Definition two_listeners : World :=
  world_after (addEntityListener 0%nat 30%nat;;
               addEntityListener 0%nat 31%nat;;
               exec silent 0 (AddEntity 0%nat 4%nat)) four_systems.

Definition two_listeners_engine : Engine :=
  mkEngine 0 [30; 31]%nat [10; 11; 12; 13]%nat true None None 0 [].

(** An operation keeps a property of the state when the state it leaves,
    whether it returns or throws, has the property again. *)
Definition keeps {A} (I : World → Prop) (m : M A) : Prop :=
  ∀ w w', I w → final (m w) = Some w' → I w'.

(** The array object at [l] is [a]; [a] is frozen. *)
Definition holds_frozen (l : loc) (a : ArrayObj EntityRef) (w : World) : Prop :=
  entity_arrays w !! l = Some a ∧ frozen a = true.

(** What an operation yields, the state left aside. *)
Definition result {A} (r : Res A) : option (Exn + A) :=
  match r with
  | Ok a _ => Some (inr a)
  | Throw err _ => Some (inl err)
  | OutOfFuel => None
  end.

(** A component type [X] whose default instance has [v = 0]. *)
Definition X : ComponentClass :=
  mkComponentClass "X" None (mkComponent "X" {[ "v" := VNum 0 ]}).

(** The two blueprints of the specification's example: [A] has [X] with
    [v = 1]; [B] has parent [A] and [X] with [v = 2]. *)
Definition blueprint_A : Blueprint :=
  mkBlueprint 1 "A" [mkBlueprintComponent X (Some {[ "v" := VNum 1 ]})] None.

Definition blueprint_B : Blueprint :=
  mkBlueprint 2 "B" [mkBlueprintComponent X (Some {[ "v" := VNum 2 ]})] (Some ["A"]).

(** What the TypeScript enum [enum BlueprintType { A, B }] is at run time:
    the names map to the numbers and the numbers back to the names. *)
Definition numeric_enum : gmap string JSVal :=
  {[ "0" := VStr "A"; "1" := VStr "B"; "A" := VNum 0; "B" := VNum 1 ]}.

(** An engine with that enumeration and the two blueprints, started. *)
Definition enum_world : World :=
  world_after (e ← new_Engine [X] (Some numeric_enum);
               addBlueprints e [blueprint_A; blueprint_B];;
               start e) empty_world.

Definition enum_engine : Engine :=
  mkEngine 0 [] [] false (Some (mkEntityFactory [blueprint_A; blueprint_B] [X]))
           (Some numeric_enum) 0 [X].

(** The key stands for the blueprint name: it is the name, or the
    enumeration has the name under it. *)
Definition key_names (E : Engine) (type : JSVal) (name : string) : Prop :=
  match blueprintTypes E with
  | Some bt => js_get bt type = VStr name ∧ name ≠ ""
  | None => type = VStr name
  end.

(** [A] lists [B] and [B] lists [A]. *)
Definition cyclic_A : Blueprint := mkBlueprint 1 "A" [] (Some ["B"]).

Definition cyclic_B : Blueprint := mkBlueprint 2 "B" [] (Some ["A"]).

Definition cyclic_world : World :=
  world_after (e ← new_Engine [X] None;
               addBlueprints e [cyclic_A; cyclic_B];;
               start e) empty_world.

Definition cyclic_engine : Engine :=
  mkEngine 0 [] [] false (Some (mkEntityFactory [cyclic_A; cyclic_B] [X])) None 0 [X].







(** The last entry of a component list for a component name. *)
Definition last_named (cname : string) (cs : list BlueprintComponent)
    : option BlueprintComponent :=
  last (filter (λ bc, cc_name (component bc) = cname) cs).

(** The engine of the specification's example before [start], with [A]
    registered; [B] is added after [start]. *)
Definition late_world : World :=
  world_after (e ← new_Engine [X] None; addBlueprint e blueprint_A) empty_world.

Definition late_engine : Engine := mkEngine 0 [] [] false None None 0 [X].

(** What holds of every state that the operations below reach from a state
    where it holds, the empty one for a start: an engine has no system twice;
    a system of an engine has that engine among its engines; the engines of a
    system exist; and a system list whose flag is down is in priority
    order. *)
Definition systems_consistent (w : World) : Prop :=
  (∀ e E, engine_objs w !! e = Some E →
     NoDup (_systems E) ∧
     (∀ s, s ∈ _systems E → e ∈ _engines (system_of w s)) ∧
     (_systemsNeedSorting E = false → in_priority_order w (_systems E))) ∧
  (∀ s e, e ∈ _engines (system_of w s) → is_Some (engine_objs w !! e)).

(** The part of an engine the invariant looks at. *)
Definition scheduling (E : Engine) : list SystemRef * bool :=
  (_systems E, _systemsNeedSorting E).

(** The state after [system.onAttach(engine)] and after
    [system.onDetach(engine)]. *)
Definition attached (s : SystemRef) (e : EngineRef) (w : World) : World :=
  match indexOf e (_engines (system_of w s)) with
  | None => set_system_objs
              <[s := mkSystem (_priority (system_of w s))
                              (_engines (system_of w s) ++ [e])]> w
  | Some _ => w
  end.

Definition detached (s : SystemRef) (e : EngineRef) (w : World) : World :=
  match indexOf e (_engines (system_of w s)) with
  | Some index => set_system_objs
                    <[s := mkSystem (_priority (system_of w s))
                                    (delete index (_engines (system_of w s)))]> w
  | None => w
  end.

(** What the host program does: it constructs engines, calls operations
    and runs ticks, with any listeners and any callbacks. *)
Inductive HostStep :=
  | Construct (components : list ComponentClass) (blueprintTypes : option (gmap string JSVal))
  | Call (handlers : Handlers) (fuel : nat) (c : Cmd)
  | Tick (handlers : Handlers) (behaviour : Behaviour) (fuel : nat) (e : EngineRef)
         (delta : Z).

Definition host_step (h : HostStep) : M unit :=
  match h with
  | Construct components blueprintTypes => _ ← new_Engine components blueprintTypes; mret tt
  | Call handlers fuel c => exec handlers fuel c
  | Tick handlers behaviour fuel e delta => update handlers behaviour fuel e delta
  end.

(** The states the host program can be in: from the empty state, after any
    number of steps, each left by returning or by throwing. *)
Inductive reachable : World → Prop :=
  | reachable_empty : reachable empty_world
  | reachable_step w h w' :
      reachable w → final (host_step h w) = Some w' → reachable w'.

(** The entity array and the blueprint array of every engine exist and are
    not frozen. *)
Definition arrays_live (w : World) : Prop :=
  ∀ e E, engine_objs w !! e = Some E →
    (∃ a, entity_arrays w !! _entities E = Some a ∧ frozen a = false) ∧
    (∃ b, blueprint_arrays w !! _blueprints E = Some b ∧ frozen b = false).

(** The array fields of an engine. *)
Definition array_fields (E : Engine) : loc * loc := (_entities E, _blueprints E).

(** An array that was live in [m] is live in [m']. *)
Definition stays_live {A} (m m' : gmap loc (ArrayObj A)) : Prop :=
  ∀ l a, m !! l = Some a → frozen a = false →
         ∃ a', m' !! l = Some a' ∧ frozen a' = false.

(** The entities and the blueprints an engine holds. *)
Definition entities_of (w : World) (e : EngineRef) : list EntityRef :=
  match engine_objs w !! e with
  | Some E => default [] (elems <$> entity_arrays w !! _entities E)
  | None => []
  end.

Definition blueprints_of (w : World) (e : EngineRef) : list Blueprint :=
  match engine_objs w !! e with
  | Some E => default [] (elems <$> blueprint_arrays w !! _blueprints E)
  | None => []
  end.

(** The state after a series of steps of the host program. *)
Definition run_host (hs : list HostStep) (w : World) : World :=
  foldl (λ w h, world_after (host_step h) w) w hs.

(** The engines of a system are listed once each, and each of them has the
    system in its system list. *)
Definition attachment_exact (w : World) : Prop :=
  ∀ s, NoDup (_engines (system_of w s)) ∧
       ∀ e, e ∈ _engines (system_of w s) →
            ∃ E, engine_objs w !! e = Some E ∧ s ∈ _systems E.

(** The engine a command is a method call on; a priority write and a write
    to an array are calls on no engine. *)
Definition target (c : Cmd) : option EngineRef :=
  match c with
  | AddEntity e _ | RemoveEntity e _ | AddSystem e _ | RemoveSystem e _
  | AddEntityListener e _ | RemoveEntityListener e _ | AddBlueprint e _
  | Start e | GetEntities e => Some e
  | SetPriority _ _ | ArrayPush _ _ => None
  end.

(** A command that is a call on an engine of [w], or a priority write. *)
Definition well_targeted (w : World) (c : Cmd) : Prop :=
  (∀ l x, c ≠ ArrayPush l x) ∧
  ∀ e, target c = Some e → is_Some (engine_objs w !! e).

(** A call that calls no listener, that is a call other than [start] on an
    engine of [w], or a priority write, and that leaves the listener list of
    the engine [e] alone. *)
Definition mild (e : EngineRef) (w : World) (c : Cmd) : Prop :=
  calls_listeners c = false ∧ well_targeted w c ∧ (∀ e', c ≠ Start e') ∧
  (∀ l, c ≠ AddEntityListener e l) ∧ (∀ l, c ≠ RemoveEntityListener e l).

(** Listeners whose code is made of such calls, on engines of the state
    they are called in. *)
Definition mild_listeners (handlers : Handlers) (e : EngineRef) : Prop :=
  ∀ n w, Forall (mild e w) (handlers n w).

(** What such a call leaves as it was: the engines of [w] are still there
    in [w'], and the engine [e] has the entity array, the entities and the
    listeners it had in [w]. *)
Definition undisturbed (e : EngineRef) (w w' : World) : Prop :=
  (∀ e', is_Some (engine_objs w !! e') → is_Some (engine_objs w' !! e')) ∧
  ∀ E, engine_objs w !! e = Some E →
    entity_arrays w' !! _entities E = entity_arrays w !! _entities E ∧
    ∃ E', engine_objs w' !! e = Some E' ∧
          _entityListeners E' = _entityListeners E ∧ _entities E' = _entities E.

(** What a command does to the listener list of engine [e]. *)
Definition listeners_after (e : EngineRef) (c : Cmd) (ls : list ListenerRef)
    : list ListenerRef :=
  match c with
  | AddEntityListener e' l =>
      if decide (e' = e)
      then match indexOf l ls with None => ls ++ [l] | Some _ => ls end
      else ls
  | RemoveEntityListener e' l =>
      if decide (e' = e)
      then match indexOf l ls with Some i => delete i ls | None => ls end
      else ls
  | _ => ls
  end.

(** No engine has a listener twice. *)
Definition listeners_unique (w : World) : Prop :=
  ∀ e E, engine_objs w !! e = Some E → NoDup (_entityListeners E).

(** The state with the invocations [xs] added to the trace. *)
Definition logged (xs : list Invocation) (w : World) : World :=
  set_invocations (λ t, t ++ xs) w.

(** The callback of system 11 takes system 11 off the engine. *)
Definition leave : Behaviour := λ s e _ _,
  if decide (s = 11%nat) then [RemoveSystem e 11%nat] else [].

(** Every callback adds a system the engine does not hold yet. *)
Definition breed : Behaviour := λ _ e _ w,
  match engine_objs w !! e with
  | Some E => [AddSystem e (fresh (list_to_set (_systems E) : gset nat))]
  | None => []
  end.

(** No two engines share an entity array or a blueprint array. *)
Definition arrays_separate (w : World) : Prop :=
  ∀ e1 e2 E1 E2,
    engine_objs w !! e1 = Some E1 → engine_objs w !! e2 = Some E2 → e1 ≠ e2 →
    _entities E1 ≠ _entities E2 ∧ _blueprints E1 ≠ _blueprints E2.

(** A second engine (reference 1) beside the one of [two_listeners]. *)
Definition two_engines : World := world_after (new_Engine [] None) two_listeners.

(** The state of [two_listeners] after a read of [entities]: the array the
    getter returned is the object 1. *)
Definition snapshot_taken : World := world_after (entities 0%nat) two_listeners.

(** The callback of system 11 pushes onto the array the getter returned. *)
Definition push_snapshot : Behaviour := λ s _ _ _,
  if decide (s = 11%nat) then [ArrayPush 1%nat 9%nat] else [].

(** ** The application ([app.ts])

    The component classes, the type enumeration, the systems, what their
    callbacks do and what listeners there are are in files that are not at
    hand: they are parameters. *)

Section App.

Variables PositionComponent RenderComponent : ComponentClass.
Variable BlueprintType : gmap string JSVal.
Variable appSystems : list SystemRef.

(** The field [componets]. *)
Definition componets : list ComponentClass := [PositionComponent; RenderComponent].

(** The objects of the two [addBlueprint] calls. *)
Definition Renderable : Blueprint :=
  mkBlueprint 0 "Renderable"
    [mkBlueprintComponent PositionComponent (Some ∅);
     mkBlueprintComponent RenderComponent None]
    (Some []).

Definition Player : Blueprint :=
  mkBlueprint 1 "Player"
    [mkBlueprintComponent RenderComponent (Some {[ "value" := VStr "@" ]})]
    (Some ["renderable"]).

(** The initialiser of the field [engine] and the constructor of [App];
    [entity] is the object that [new Entity()] makes. *)
Definition new_App (entity : EntityRef) (handlers : Handlers) (behaviour : Behaviour)
    (fuel : nat) : M EngineRef :=
  engine ← new_Engine componets (Some BlueprintType);
  addBlueprint engine Renderable;;
  addBlueprint engine Player;;
  start engine;;
  addSystems engine appSystems;;
  exec handlers fuel (AddEntity engine entity);;
  update handlers behaviour fuel engine 0;;
  update handlers behaviour fuel engine 0;;
  update handlers behaviour fuel engine 0;;
  mret engine.

End App.

(** Callbacks that make no call. *)
Definition idle : Behaviour := λ _ _ _ _, [].

(** The state of [four_systems] after a tick: the systems 10 to 13 were
    attached with [addSystem], the system list has been sorted and the flag
    is down. *)
Definition four_systems_settled : World :=
  world_after (update silent idle 5 0%nat 0) four_systems.

Definition four_systems_settled_engine : Engine :=
  mkEngine 0 [] [10; 11; 12; 13]%nat false None None 0 [].

(** The listener 30 unsubscribes from the engine 0 when it is told of a new
    entity. *)
Definition unsubscribing : Handlers := λ n _,
  match n with
  | onEntityAdded 30%nat _ => [RemoveEntityListener 0%nat 30%nat]
  | _ => []
  end.

(** Listeners that, told of a new entity, lower the priority of system 13
    and, when there is an engine 0, attach a system to it. *)
Definition tuning : Handlers := λ n w,
  match n with
  | onEntityAdded l _ =>
      SetPriority 13%nat (-1)
        :: (if decide (is_Some (engine_objs w !! 0%nat)) then [AddSystem 0%nat l] else [])
  | onEntityRemoved _ _ => []
  end.

(** The engine [e], if there is one, has no factory. *)
Definition unstarted (e : EngineRef) (w : World) : Prop :=
  ∀ E, engine_objs w !! e = Some E → entityFactory E = None.

(** The step may call [start] on the engine [e]: it is that call, or a
    call or a tick with a listener or a callback that makes it. *)
Definition may_start (e : EngineRef) (h : HostStep) : Prop :=
  match h with
  | Construct _ _ => False
  | Call handlers _ c => c = Start e ∨ ∃ n w0, Start e ∈ handlers n w0
  | Tick handlers behaviour _ e' delta =>
      (∃ s w0, Start e ∈ behaviour s e' delta w0) ∨ ∃ n w0, Start e ∈ handlers n w0
  end.

(** * Properties *)

(** ** The sort of [update] *)

Section Sorting.

Context {A : Type} (key : A → Z).

Let cmp (a b : A) : Z := key a - key b.
Let le (a b : A) : Prop := key a ≤ key b.

Lemma sort_insert_perm x l : sort_insert cmp x l ≡ₚ x :: l.
Proof.
  induction l as [|y l IH]; simpl; [done|].
  case_decide; [done|]. rewrite IH. apply Permutation_swap.
Qed.

Lemma Array_sort_perm l : Array_sort cmp l ≡ₚ l.
Proof.
  induction l as [|x l IH]; simpl; [done|].
  rewrite sort_insert_perm. by f_equiv.
Qed.

Lemma sort_insert_sorted x l :
  StronglySorted le l → StronglySorted le (sort_insert cmp x l).
Proof.
  induction 1 as [|y l Hl IH Hy]; simpl.
  - repeat constructor.
  - case_decide as Hc; unfold cmp in Hc.
    + constructor; [by constructor|].
      constructor; [unfold le; lia|].
      eapply Forall_impl; [exact Hy|]. unfold le. intros; simpl in *; lia.
    + constructor; [done|].
      rewrite sort_insert_perm. constructor; [unfold le; lia|done].
Qed.

Lemma Array_sort_sorted l : StronglySorted le (Array_sort cmp l).
Proof.
  induction l; simpl; [constructor|by apply sort_insert_sorted].
Qed.

(** Ties keep their order: the elements of any one key come out in the
    order they went in. *)
Lemma sort_insert_stable k x l :
  Forall (le x) (filter (λ y, key y = k) l) →
  filter (λ y, key y = k) (sort_insert cmp x l)
  = filter (λ y, key y = k) (x :: l).
Proof.
  induction l as [|y l IH]; cbn [sort_insert]; [done|]. intros Hall.
  case_decide as Hc; [done|]. unfold cmp in Hc.
  rewrite (filter_cons _ y) in Hall.
  rewrite (filter_cons _ y), (filter_cons _ x), (filter_cons _ y).
  destruct (decide (key y = k)) as [Hy|Hy].
  - apply Forall_cons in Hall as [Hxy _]. unfold le in Hxy. lia.
  - rewrite IH by done. by rewrite (filter_cons _ x).
Qed.

Lemma sort_insert_skip k x l :
  key x ≠ k →
  filter (λ y, key y = k) (sort_insert cmp x l) = filter (λ y, key y = k) l.
Proof.
  intros Hx. induction l as [|y l IH]; cbn [sort_insert].
  - by rewrite filter_cons_False.
  - case_decide; [by rewrite filter_cons_False|].
    rewrite !(filter_cons _ y). by rewrite IH.
Qed.

Lemma Array_sort_stable k l :
  filter (λ y, key y = k) (Array_sort cmp l) = filter (λ y, key y = k) l.
Proof.
  induction l as [|x l IH]; [done|].
  change (Array_sort cmp (x :: l)) with (sort_insert cmp x (Array_sort cmp l)).
  destruct (decide (key x = k)) as [Hx|Hx].
  - rewrite sort_insert_stable.
    + rewrite !(filter_cons _ x). by rewrite IH.
    + apply Forall_forall. intros y [Hy _]%list_elem_of_filter.
      unfold le. lia.
  - rewrite sort_insert_skip, IH by done. by rewrite filter_cons_False.
Qed.

(** A list that is in order already is left as it is. *)
Lemma Array_sort_id l : StronglySorted le l → Array_sort cmp l = l.
Proof.
  induction 1 as [|x l Hl IH Hx]; simpl; [done|]. rewrite IH.
  destruct Hx as [|y l' Hxy _]; simpl; [done|].
  unfold le in Hxy. unfold cmp. case_decide; [done|lia].
Qed.

(** In a list in order, a smaller key is found at a smaller index. *)
Lemma sorted_lookup_lt l i j a b :
  StronglySorted le l → l !! i = Some a → l !! j = Some b →
  key a < key b → (i < j)%nat.
Proof.
  intros Hs. revert i j. induction Hs as [|x l Hl IH Hx]; intros i j Hi Hj Hlt.
  - by rewrite lookup_nil in Hi.
  - destruct i as [|i], j as [|j]; simpl in *; simplify_eq; try lia.
    + rewrite Forall_forall in Hx.
      apply list_elem_of_lookup_2, Hx in Hi. unfold le in Hi. lia.
    + specialize (IH i j Hi Hj Hlt). lia.
Qed.

End Sorting.

(** ** Reasoning about operations *)

Ltac unfold_monad :=
  unfold mbind, M_bind, mret, M_ret, throw, get_engine, put_engine, get_system,
    put_system, get_world, log_invocation, read_entity_array,
    write_entity_array, alloc_entity_array, read_blueprint_array,
    write_blueprint_array, alloc_blueprint_array, alloc_engine in *.

Lemma bind_eq {A B} (f : A → M B) (m : M A) w :
  (m ≫= f) w = match m w with
               | Ok a w' => f a w'
               | Throw e w' => Throw e w'
               | OutOfFuel => OutOfFuel
               end.
Proof. done. Qed.

Lemma for_of_cons {A} (x : A) xs body w :
  for_of (x :: xs) body w = match body x w with
                            | Ok _ w' => for_of xs body w'
                            | Throw e w' => Throw e w'
                            | OutOfFuel => OutOfFuel
                            end.
Proof. done. Qed.

Lemma for_of_app {A} (xs ys : list A) body w :
  for_of (xs ++ ys) body w = match for_of xs body w with
                             | Ok _ w' => for_of ys body w'
                             | Throw e w' => Throw e w'
                             | OutOfFuel => OutOfFuel
                             end.
Proof.
  revert w. induction xs as [|x xs IH]; intros w; [done|].
  rewrite <- app_comm_cons, !for_of_cons.
  destruct (body x w) as [[] w1|err w1|]; [apply IH|done..].
Qed.

Lemma notifyPriorityChange_eq e s w :
  notifyPriorityChange e s w
  = match engine_objs w !! e with
    | Some E => Ok tt (set_engine_objs <[e := with_systemsNeedSorting E true]> w)
    | None => Throw TypeError w
    end.
Proof. unfold notifyPriorityChange. unfold_monad. by destruct (engine_objs w !! e). Qed.

(** Raising the flag of several engines touches nothing but flags. *)
Lemma for_of_notifyPriorityChange es s w w' :
  final (for_of es (λ e, notifyPriorityChange e s) w) = Some w' →
  entity_arrays w' = entity_arrays w ∧ blueprint_arrays w' = blueprint_arrays w ∧
  system_objs w' = system_objs w ∧ notifications w' = notifications w ∧
  invocations w' = invocations w ∧
  ∀ e E, engine_objs w !! e = Some E →
    ∃ b, engine_objs w' !! e = Some (with_systemsNeedSorting E b).
Proof.
  revert w. induction es as [|e0 es IH]; intros w.
  - intros [= <-]. repeat split; try done.
    intros e E HE. exists (_systemsNeedSorting E). by destruct E.
  - rewrite for_of_cons, notifyPriorityChange_eq.
    destruct (engine_objs w !! e0) as [E0|] eqn:HE0.
    + intros Hf. apply IH in Hf as (-> & -> & -> & -> & -> & Hf).
      repeat split; try done. intros e E HE.
      destruct (decide (e = e0)) as [->|Hne].
      * rewrite HE0 in HE. injection HE as <-.
        destruct (Hf e0 (with_systemsNeedSorting E0 true)) as [b Hb].
        { simpl. by rewrite lookup_insert_eq. }
        exists b. by rewrite Hb.
      * apply Hf. simpl. by rewrite lookup_insert_ne.
    + intros [= <-]. repeat split; try done.
      intros e E HE. exists (_systemsNeedSorting E). by destruct E.
Qed.

Ltac frame_solve :=
  repeat case_match; simplify_map_eq/=; try intros [= <-]; simpl;
  (split; [done|]); rewrite ?lookup_insert; repeat case_decide;
  simplify_map_eq/=; by eauto.

Lemma for_of_terminates {A} (body : A → M unit) xs w :
  (∀ x w, body x w ≠ OutOfFuel) → for_of xs body w ≠ OutOfFuel.
Proof.
  intros Hb. revert w. induction xs as [|x xs IH]; intros w; [done|].
  rewrite for_of_cons. specialize (Hb x w).
  destruct (body x w) as [[] w1|err w1|]; [apply IH|done|done].
Qed.

Lemma indexOf_None `{EqDecision A} (x : A) l : indexOf x l = None ↔ x ∉ l.
Proof.
  induction l as [|y l IH]; simpl.
  - split; [intros _; apply not_elem_of_nil|done].
  - rewrite not_elem_of_cons. case_decide as Hy.
    + split; [done|]. intros [Hne _]. congruence.
    + destruct (indexOf x l); simpl.
      * split; [done|]. intros [_ Hl]. by apply IH in Hl.
      * split; [|done]. intros _. split; [congruence|by apply IH].
Qed.

Lemma indexOf_Some `{EqDecision A} (x : A) l i :
  indexOf x l = Some i → l !! i = Some x ∧ x ∉ take i l.
Proof.
  revert i. induction l as [|y l IH]; intros i; simpl; [done|].
  case_decide as Hy.
  - intros [= <-]. simpl. split; [by f_equal|apply not_elem_of_nil].
  - destruct (indexOf x l) as [k|]; simpl; [|done]. intros [= <-].
    destruct (IH k eq_refl) as [Hk Hnot]. simpl. split; [done|].
    rewrite not_elem_of_cons. split; [congruence|done].
Qed.

Lemma indexOf_app_new `{EqDecision A} (x : A) l :
  x ∉ l → indexOf x (l ++ [x]) = Some (length l).
Proof.
  induction l as [|y l IH]; simpl; intros Hx.
  - by rewrite decide_True.
  - apply not_elem_of_cons in Hx as [Hxy Hx].
    rewrite decide_False by congruence. by rewrite IH.
Qed.

(** *** Calls and listeners *)

Lemma exec_unfold handlers fuel c :
  exec handlers fuel c
  = perform handlers (match fuel with
                      | O => λ _ _, OutOfFuel
                      | S fuel' => exec handlers fuel'
                      end) fuel c.
Proof. by destruct fuel. Qed.

(** A command that calls no listener does the same with any listeners and
    any fuel. *)
Lemma exec_plain handlers fuel c :
  calls_listeners c = false → exec handlers fuel c = exec silent 0 c.
Proof. intros Hc. rewrite exec_unfold. by destruct c. Qed.

Lemma addEntity_unfold handlers run fuel e entity w :
  addEntity handlers run fuel e entity w =
  match engine_objs w !! e with
  | None => Throw TypeError w
  | Some E =>
      match entity_arrays w !! _entities E with
      | None => Throw TypeError w
      | Some a =>
          match indexOf entity (elems a) with
          | Some _ => Ok tt w
          | None =>
              if frozen a then Throw TypeError w
              else for_listeners handlers run (length (_entityListeners E) + fuel) e
                     (λ l, onEntityAdded l entity) 0
                     (set_entity_arrays
                        <[_entities E := mkArray (elems a ++ [entity]) false]> w)
          end
      end
  end.
Proof.
  unfold addEntity. unfold_monad.
  destruct (engine_objs w !! e) as [E|]; [|done].
  destruct (entity_arrays w !! _entities E) as [a|] eqn:Ha; [|done].
  destruct (indexOf entity (elems a)); [done|]. rewrite Ha.
  by destruct (frozen a).
Qed.

Lemma removeEntity_unfold handlers run fuel e entity w :
  removeEntity handlers run fuel e entity w =
  match engine_objs w !! e with
  | None => Throw TypeError w
  | Some E =>
      match entity_arrays w !! _entities E with
      | None => Throw TypeError w
      | Some a =>
          match indexOf entity (elems a) with
          | None => Ok tt w
          | Some index =>
              if frozen a then Throw TypeError w
              else for_listeners handlers run (length (_entityListeners E) + fuel) e
                     (λ l, onEntityRemoved l entity) 0
                     (set_entity_arrays
                        <[_entities E := mkArray (delete index (elems a)) false]> w)
          end
      end
  end.
Proof.
  unfold removeEntity. unfold_monad.
  destruct (engine_objs w !! e) as [E|]; [|done].
  destruct (entity_arrays w !! _entities E) as [a|] eqn:Ha; [|done].
  destruct (indexOf entity (elems a)); [|done]. rewrite Ha.
  by destruct (frozen a).
Qed.

Lemma for_listeners_unfold handlers run fuel e call i w :
  for_listeners handlers run fuel e call i w =
  match engine_objs w !! e with
  | None => Throw TypeError w
  | Some E =>
      match _entityListeners E !! i with
      | None => Ok tt w
      | Some listener =>
          match fuel with
          | O => OutOfFuel
          | S fuel' =>
              match call_listener handlers run (call listener) w with
              | Ok _ w' => for_listeners handlers run fuel' e call (S i) w'
              | Throw err w' => Throw err w'
              | OutOfFuel => OutOfFuel
              end
          end
      end
  end.
Proof.
  destruct fuel; simpl; unfold_monad;
    destruct (engine_objs w !! e) as [E|]; try done;
    by destruct (_entityListeners E !! i).
Qed.

(** A listener that makes no call is only recorded. *)
Lemma call_listener_quiet handlers run n w :
  quiet handlers →
  call_listener handlers run n w = Ok tt (set_notifications (λ t, t ++ [n]) w).
Proof.
  intros Hq. unfold call_listener, notify. unfold_monad. by rewrite Hq.
Qed.

(** With listeners that make no call the loop calls the listeners from the
    index on, one after the other. *)
Lemma for_listeners_quiet handlers run e call fuel : ∀ i w E,
  quiet handlers →
  engine_objs w !! e = Some E →
  (length (_entityListeners E) - i ≤ fuel)%nat →
  for_listeners handlers run fuel e call i w
  = Ok tt (set_notifications (λ t, t ++ (call <$> drop i (_entityListeners E))) w).
Proof.
  induction fuel as [|fuel IH]; intros i w E Hq HE Hfuel;
    rewrite for_listeners_unfold, HE.
  - rewrite lookup_ge_None_2 by lia. rewrite drop_ge by lia.
    destruct w; unfold set_notifications; simpl. by rewrite app_nil_r.
  - destruct (_entityListeners E !! i) as [l|] eqn:Hi.
    + rewrite call_listener_quiet by done.
      rewrite (IH (S i) _ E) by (done || lia).
      rewrite (drop_S _ _ _ Hi). destruct w; unfold set_notifications; simpl.
      by rewrite <- app_assoc.
    + apply lookup_ge_None in Hi. rewrite drop_ge by lia.
      destruct w; unfold set_notifications; simpl. by rewrite app_nil_r.
Qed.

(** [addEntity] with listeners that make no call. *)
Lemma addEntity_quiet handlers run fuel e entity w :
  quiet handlers →
  addEntity handlers run fuel e entity w =
  match engine_objs w !! e with
  | None => Throw TypeError w
  | Some E =>
      match entity_arrays w !! _entities E with
      | None => Throw TypeError w
      | Some a =>
          match indexOf entity (elems a) with
          | Some _ => Ok tt w
          | None =>
              if frozen a then Throw TypeError w
              else Ok tt (set_notifications
                            (λ t, t ++ ((λ l, onEntityAdded l entity) <$> _entityListeners E))
                            (set_entity_arrays
                               <[_entities E := mkArray (elems a ++ [entity]) false]> w))
          end
      end
  end.
Proof.
  intros Hq. rewrite addEntity_unfold.
  destruct (engine_objs w !! e) as [E|] eqn:HE; [|done].
  destruct (entity_arrays w !! _entities E) as [a|] eqn:Ha; [|done].
  destruct (indexOf entity (elems a)); [done|].
  destruct (frozen a); [done|].
  rewrite (for_listeners_quiet _ _ _ _ _ _ _ E) by (done || lia). by rewrite drop_0.
Qed.

Lemma removeEntity_quiet handlers run fuel e entity w :
  quiet handlers →
  removeEntity handlers run fuel e entity w =
  match engine_objs w !! e with
  | None => Throw TypeError w
  | Some E =>
      match entity_arrays w !! _entities E with
      | None => Throw TypeError w
      | Some a =>
          match indexOf entity (elems a) with
          | None => Ok tt w
          | Some index =>
              if frozen a then Throw TypeError w
              else Ok tt (set_notifications
                            (λ t, t ++ ((λ l, onEntityRemoved l entity) <$> _entityListeners E))
                            (set_entity_arrays
                               <[_entities E := mkArray (delete index (elems a)) false]> w))
          end
      end
  end.
Proof.
  intros Hq. rewrite removeEntity_unfold.
  destruct (engine_objs w !! e) as [E|] eqn:HE; [|done].
  destruct (entity_arrays w !! _entities E) as [a|] eqn:Ha; [|done].
  destruct (indexOf entity (elems a)); [|done].
  destruct (frozen a); [done|].
  rewrite (for_listeners_quiet _ _ _ _ _ _ _ E) by (done || lia). by rewrite drop_0.
Qed.

Lemma silent_quiet : quiet silent.
Proof. done. Qed.

Lemma addEntity_eq run fuel e entity w :
  addEntity silent run fuel e entity w =
  match engine_objs w !! e with
  | None => Throw TypeError w
  | Some E =>
      match entity_arrays w !! _entities E with
      | None => Throw TypeError w
      | Some a =>
          match indexOf entity (elems a) with
          | Some _ => Ok tt w
          | None =>
              if frozen a then Throw TypeError w
              else Ok tt (set_notifications
                            (λ t, t ++ ((λ l, onEntityAdded l entity) <$> _entityListeners E))
                            (set_entity_arrays
                               <[_entities E := mkArray (elems a ++ [entity]) false]> w))
          end
      end
  end.
Proof. by apply addEntity_quiet. Qed.

Lemma removeEntity_eq run fuel e entity w :
  removeEntity silent run fuel e entity w =
  match engine_objs w !! e with
  | None => Throw TypeError w
  | Some E =>
      match entity_arrays w !! _entities E with
      | None => Throw TypeError w
      | Some a =>
          match indexOf entity (elems a) with
          | None => Ok tt w
          | Some index =>
              if frozen a then Throw TypeError w
              else Ok tt (set_notifications
                            (λ t, t ++ ((λ l, onEntityRemoved l entity) <$> _entityListeners E))
                            (set_entity_arrays
                               <[_entities E := mkArray (delete index (elems a)) false]> w))
          end
      end
  end.
Proof. by apply removeEntity_quiet. Qed.

(** With listeners that make no call, a command does what it does with
    no fuel and silent listeners. *)
Lemma exec_quiet handlers fuel c w :
  quiet handlers → exec handlers fuel c w = exec silent 0 c w.
Proof.
  intros Hq. destruct (calls_listeners c) eqn:Hc; [|by rewrite exec_plain].
  rewrite exec_unfold. destruct c; try done; simpl.
  - by rewrite addEntity_quiet, addEntity_eq.
  - by rewrite removeEntity_quiet, removeEntity_eq.
Qed.

Lemma run_script_quiet handlers fuel cs w :
  quiet handlers → run_script handlers fuel cs w = run_script silent 0 cs w.
Proof.
  intros Hq. revert w. unfold run_script.
  induction cs as [|c cs IH]; intros w; [done|].
  rewrite !for_of_cons, exec_quiet by done.
  destruct (exec silent 0 c w) as [[] w1|err w1|]; [apply IH|done..].
Qed.

Lemma exec_systems e c w E w' :
  engine_objs w !! e = Some E → final (exec silent 0 c w) = Some w' →
  invocations w' = invocations w ∧
  ∃ E', engine_objs w' !! e = Some E' ∧
        _systems E' = systems_after e c (_systems E).
Proof.
  intros HE. destruct c; simpl.
  - rewrite addEntity_eq. repeat case_match; simplify_eq/=; intros [= <-]; eauto.
  - rewrite removeEntity_eq. repeat case_match; simplify_eq/=; intros [= <-]; eauto.
  - unfold addSystem, onAttach. unfold_monad. frame_solve.
  - unfold removeSystem, onDetach. unfold_monad. frame_solve.
  - unfold set_priority. unfold_monad.
    intros (_ & _ & _ & _ & -> & Hf)%for_of_notifyPriorityChange.
    split; [done|]. destruct (Hf e E) as [b Hb]; [done|]. eauto.
  - unfold addEntityListener. unfold_monad. frame_solve.
  - unfold removeEntityListener. unfold_monad. frame_solve.
  - unfold addBlueprint. unfold_monad. frame_solve.
  - unfold start, new_EntityFactory. unfold_monad. frame_solve.
  - unfold entities. unfold_monad. frame_solve.
  - unfold_monad. frame_solve.
Qed.

(** Only loops use fuel, and with listeners that make no call only the loop
    of the tick can use it up. *)
Lemma exec_terminates c w : exec silent 0 c w ≠ OutOfFuel.
Proof.
  destruct c; simpl.
  - rewrite addEntity_eq. by repeat case_match.
  - rewrite removeEntity_eq. by repeat case_match.
  - unfold addSystem, onAttach. unfold_monad. by repeat case_match.
  - unfold removeSystem, onDetach. unfold_monad. by repeat case_match.
  - unfold set_priority. unfold_monad. apply for_of_terminates.
    intros x w0. rewrite notifyPriorityChange_eq. by case_match.
  - unfold addEntityListener. unfold_monad. by repeat case_match.
  - unfold removeEntityListener. unfold_monad. by repeat case_match.
  - unfold addBlueprint. unfold_monad. by repeat case_match.
  - unfold start, new_EntityFactory. unfold_monad. by repeat case_match.
  - unfold entities. unfold_monad. by repeat case_match.
  - unfold_monad. by repeat case_match.
Qed.

Lemma exec_terminates_quiet handlers fuel c w :
  quiet handlers → exec handlers fuel c w ≠ OutOfFuel.
Proof. intros Hq. rewrite exec_quiet by done. apply exec_terminates. Qed.

Lemma run_script_terminates handlers fuel cs w :
  quiet handlers → run_script handlers fuel cs w ≠ OutOfFuel.
Proof. intros Hq. apply for_of_terminates. intros c w0. by apply exec_terminates_quiet. Qed.

Lemma for_of_notifyPriorityChange_Ok es s w :
  (∀ e, e ∈ es → is_Some (engine_objs w !! e)) →
  ∃ w', for_of es (λ e, notifyPriorityChange e s) w = Ok tt w' ∧
    entity_arrays w' = entity_arrays w ∧ blueprint_arrays w' = blueprint_arrays w ∧
    system_objs w' = system_objs w ∧ notifications w' = notifications w ∧
    invocations w' = invocations w ∧
    ∀ e, engine_objs w' !! e =
         (λ E, if bool_decide (e ∈ es) then with_systemsNeedSorting E true else E)
           <$> engine_objs w !! e.
Proof.
  revert w. induction es as [|e0 es IH]; intros w Hes.
  - exists w. repeat split; try done. intros e.
    destruct (engine_objs w !! e); [|done]. simpl. f_equal.
  - rewrite for_of_cons, notifyPriorityChange_eq.
    destruct (Hes e0) as [E0 HE0]; [by left|]. rewrite HE0.
    set (w1 := set_engine_objs _ w).
    destruct (IH w1) as (w' & Hrun & He' & Hb' & Hs' & Hn' & Hi' & Hlook).
    { intros e He. simpl. rewrite lookup_insert. case_decide; [done|].
      apply Hes. by right. }
    exists w'. repeat split; try done. intros e. rewrite Hlook. simpl.
    rewrite lookup_insert. case_decide as He.
    + subst e0. rewrite HE0. simpl. f_equal.
      rewrite (bool_decide_eq_true_2 (e ∈ e :: es)) by by left.
      by case_bool_decide.
    + destruct (engine_objs w !! e) as [E|]; [|done]. simpl. f_equal.
      destruct (decide (e ∈ es)) as [Hin|Hnin].
      * rewrite !bool_decide_eq_true_2; [done|by right|done].
      * rewrite !bool_decide_eq_false_2; [done| |done].
        rewrite elem_of_cons. by intros [?|?].
Qed.

Lemma keeps_bind {A B} I (m : M A) (f : A → M B) :
  keeps I m → (∀ a, keeps I (f a)) → keeps I (m ≫= f).
Proof.
  intros Hm Hf w w' HI. rewrite bind_eq.
  destruct (m w) as [a w1|err w1|] eqn:Hmw; [| |done].
  - apply (Hf a). apply (Hm w); [done|by rewrite Hmw].
  - intros [= <-]. apply (Hm w); [done|by rewrite Hmw].
Qed.

Lemma keeps_for_of {A} I (xs : list A) body :
  (∀ x, keeps I (body x)) → keeps I (for_of xs body).
Proof.
  intros Hb. induction xs as [|x xs IH]; [by intros w w' HI [= <-]|].
  apply keeps_bind; [apply Hb|done].
Qed.

Lemma keeps_for_of_in {A} I (xs : list A) body :
  (∀ x, x ∈ xs → keeps I (body x)) → keeps I (for_of xs body).
Proof.
  induction xs as [|x xs IH]; intros Hb; [by intros w w' HI [= <-]|].
  apply keeps_bind; [apply Hb; by left|].
  intros _. apply IH. intros y Hy. apply Hb. by right.
Qed.

Lemma fresh_loc_ne {V} (m : gmap loc V) l v : m !! l = Some v → fresh (dom m) ≠ l.
Proof.
  intros Hl Heq. apply (is_fresh (dom m)). rewrite Heq.
  apply elem_of_dom. eauto.
Qed.

(** *** From listeners that make no call to any listeners

    A property of the state that the record of the calls made to listeners
    does not bear on, and that every command of a class [ok] keeps when no
    listener makes a call, is kept by the commands of [ok] with listeners
    whose code is made of commands of [ok]. *)
Section Lifting.

Variable I : World → Prop.
Variable ok : Cmd → Prop.
Variable handlers : Handlers.

Hypothesis I_notifications : ∀ f w, I (set_notifications f w) ↔ I w.
Hypothesis silent_keeps : ∀ c, ok c → keeps I (exec silent 0 c).
Hypothesis handlers_ok : ∀ n w, Forall ok (handlers n w).

Lemma call_listener_keeps run n :
  (∀ c, ok c → keeps I (run c)) → keeps I (call_listener handlers run n).
Proof.
  intros Hrun. unfold call_listener. apply keeps_bind.
  { intros w w' HI [= <-]. by apply I_notifications. }
  intros _. apply keeps_bind; [by intros w w' HI [= <-]|].
  intros w0. apply keeps_for_of_in. intros c Hc. apply Hrun.
  pose proof (handlers_ok n w0) as Hall. rewrite Forall_forall in Hall. by apply Hall.
Qed.

Lemma for_listeners_keeps run e call fuel : ∀ i,
  (∀ c, ok c → keeps I (run c)) →
  keeps I (for_listeners handlers run fuel e call i).
Proof.
  induction fuel as [|fuel IH]; intros i Hrun; simpl.
  - apply keeps_bind.
    { intros w w'. unfold get_engine. by case_match; intros ? [= <-]. }
    intros E. destruct (_entityListeners E !! i); [done|by intros w w' HI [= <-]].
  - apply keeps_bind.
    { intros w w'. unfold get_engine. by case_match; intros ? [= <-]. }
    intros E. destruct (_entityListeners E !! i); [|by intros w w' HI [= <-]].
    apply keeps_bind; [by apply call_listener_keeps|].
    intros _. by apply IH.
Qed.

Lemma exec_keeps fuel : ∀ c, ok c → keeps I (exec handlers fuel c).
Proof.
  induction fuel as [|fuel IH]; intros c Hc.
  - destruct (calls_listeners c) eqn:Hcalls;
      [|rewrite exec_plain by done; by apply silent_keeps].
    intros w w' HI. pose proof (silent_keeps c Hc w) as Hsilent.
    destruct c; try done; simpl in *.
    + rewrite addEntity_unfold. rewrite addEntity_eq in Hsilent.
      repeat case_match; try (intros [= <-]; done).
      apply for_listeners_keeps; [by intros c0 _ w0 w1 _|].
      eapply I_notifications. by eapply Hsilent.
    + rewrite removeEntity_unfold. rewrite removeEntity_eq in Hsilent.
      repeat case_match; try (intros [= <-]; done).
      apply for_listeners_keeps; [by intros c0 _ w0 w1 _|].
      eapply I_notifications. by eapply Hsilent.
  - destruct (calls_listeners c) eqn:Hcalls;
      [|rewrite exec_plain by done; by apply silent_keeps].
    intros w w' HI. pose proof (silent_keeps c Hc w) as Hsilent.
    destruct c; try done; simpl in *.
    + rewrite addEntity_unfold. rewrite addEntity_eq in Hsilent.
      repeat case_match; try (intros [= <-]; done).
      apply for_listeners_keeps; [done|].
      eapply I_notifications. by eapply Hsilent.
    + rewrite removeEntity_unfold. rewrite removeEntity_eq in Hsilent.
      repeat case_match; try (intros [= <-]; done).
      apply for_listeners_keeps; [done|].
      eapply I_notifications. by eapply Hsilent.
Qed.

Lemma run_script_keeps fuel cs : Forall ok cs → keeps I (run_script handlers fuel cs).
Proof.
  intros Hcs. apply keeps_for_of_in. intros c Hc. apply exec_keeps.
  rewrite Forall_forall in Hcs. by apply Hcs.
Qed.

End Lifting.

Lemma exec_keeps_any (I : World → Prop) :
  (∀ f w, I (set_notifications f w) ↔ I w) →
  (∀ c, keeps I (exec silent 0 c)) →
  ∀ handlers fuel c, keeps I (exec handlers fuel c).
Proof.
  intros Hnote Hsilent handlers fuel c.
  apply (exec_keeps I (λ _, True) handlers); [done| | |done].
  - intros c0 _. apply Hsilent.
  - intros n w. by apply Forall_forall.
Qed.

(** ** The tick loop *)

Section TickProofs.

Variable handlers : Handlers.
Variable behaviour : Behaviour.
Variables (e : EngineRef) (delta : Z).

(** [P] describes the system lists the tick can go through: every command
    of every callback and of every listener keeps the list within [P] and
    only adds at its end. *)
Variable P : list SystemRef → Prop.

Hypothesis behaviour_ok : ∀ s w, Forall (cmd_ok e P) (behaviour s e delta w).
Hypothesis handlers_ok : ∀ n w, Forall (cmd_ok e P) (handlers n w).

Lemma exec_within fuel c w E w' :
  cmd_ok e P c →
  engine_objs w !! e = Some E → P (_systems E) →
  final (exec handlers fuel c w) = Some w' →
  invocations w' = invocations w ∧
  ∃ E', engine_objs w' !! e = Some E' ∧ P (_systems E') ∧
        systems_after e c (_systems E) `prefix_of` _systems E'.
Proof.
  intros Hc HE HP. destruct (calls_listeners c) eqn:Hcalls.
  - assert (systems_after e c (_systems E) = _systems E) as -> by by destruct c.
    apply (exec_keeps
             (λ w1, invocations w1 = invocations w ∧
                    ∃ E1, engine_objs w1 !! e = Some E1 ∧ P (_systems E1) ∧
                          _systems E `prefix_of` _systems E1)
             (cmd_ok e P) handlers); [done| |done|done|by eauto].
    intros c0 Hc0 w1 w2 (Hi & E1 & HE1 & HP1 & Hpre) Hf.
    destruct (exec_systems e c0 w1 E1 w2 HE1 Hf) as (Hi2 & E2 & HE2 & Hs2).
    destruct (Hc0 _ HP1) as [HP2 Hpre2]. rewrite <- Hs2 in HP2, Hpre2.
    split; [congruence|]. exists E2. repeat split; [done..|by etrans].
  - rewrite exec_plain by done. intros Hf.
    destruct (exec_systems e c w E w' HE Hf) as (Hi & E' & HE' & Hs').
    destruct (Hc _ HP) as [HP' _]. rewrite <- Hs' in HP'.
    split; [done|]. exists E'. repeat split; [done..|by rewrite Hs'].
Qed.

Lemma run_script_ok fuel cs w E w' :
  Forall (cmd_ok e P) cs →
  engine_objs w !! e = Some E → P (_systems E) →
  final (run_script handlers fuel cs w) = Some w' →
  invocations w' = invocations w ∧
  ∃ E', engine_objs w' !! e = Some E' ∧ P (_systems E') ∧
        _systems E `prefix_of` _systems E'.
Proof.
  intros Hcs. revert w E. induction Hcs as [|c cs Hc Hcs IH]; intros w E HE HP.
  - intros [= <-]. eauto.
  - unfold run_script. rewrite for_of_cons.
    destruct (exec handlers fuel c w) as [[] w1|err w1|] eqn:Hex; [| |done].
    + destruct (exec_within fuel c w E w1 Hc HE HP) as (Hi & E1 & HE1 & HP1 & Hpre1);
        [by rewrite Hex|].
      destruct (Hc _ HP) as [_ Hpre].
      intros Hf. destruct (IH w1 E1 HE1 HP1 Hf) as (Hi' & E' & HE' & HP' & Hpre').
      split; [congruence|]. exists E'. repeat split; try done.
      by repeat (etrans; [eassumption|]).
    + intros [= <-].
      destruct (exec_within fuel c w E w1 Hc HE HP) as (Hi & E1 & HE1 & HP1 & Hpre1);
        [by rewrite Hex|].
      destruct (Hc _ HP) as [_ Hpre].
      split; [done|]. exists E1. repeat split; try done. by etrans.
Qed.

Lemma System_update_ok depth s w E w' :
  engine_objs w !! e = Some E → P (_systems E) →
  final (System_update handlers behaviour depth s e delta w) = Some w' →
  invocations w' = invocations w ++ [invoke e delta s] ∧
  ∃ E', engine_objs w' !! e = Some E' ∧ P (_systems E') ∧
        _systems E `prefix_of` _systems E'.
Proof.
  intros HE HP. unfold System_update. unfold_monad. cbn beta.
  set (w0 := set_invocations _ w).
  intros Hf.
  eapply (run_script_ok _ _ w0 E) in Hf as (Hi & Hrest); [|done..].
  by rewrite Hi.
Qed.

Variable N : nat.
Hypothesis P_bounded : ∀ ss, P ss → (length ss ≤ N)%nat.

(** The fuel of the loop is enough; only listeners that make calls can use
    fuel up. *)
Lemma run_systems_ok depth fuel : ∀ i w E,
  engine_objs w !! e = Some E → P (_systems E) → (N - i < fuel)%nat →
  match run_systems handlers behaviour depth fuel e delta i w with
  | Ok _ w' =>
      ∃ E', engine_objs w' !! e = Some E' ∧ P (_systems E') ∧
            _systems E `prefix_of` _systems E' ∧
            invocations w' = invocations w ++ (invoke e delta <$> drop i (_systems E'))
  | Throw _ w' =>
      ∃ E' k, engine_objs w' !! e = Some E' ∧ P (_systems E') ∧
              _systems E `prefix_of` _systems E' ∧
              invocations w' =
                invocations w ++ (invoke e delta <$> take k (drop i (_systems E')))
  | OutOfFuel => ¬ quiet handlers
  end.
Proof.
  induction fuel as [|fuel IH]; intros i w E HE HP Hfuel; [lia|].
  cbn [run_systems]. rewrite bind_eq. unfold get_engine at 1. rewrite HE.
  destruct (_systems E !! i) as [s|] eqn:Hi.
  - rewrite bind_eq.
    destruct (System_update handlers behaviour depth s e delta w) as [[] w1|err w1|] eqn:Hup.
    + destruct (System_update_ok depth s w E w1 HE HP) as (Hinv & E1 & HE1 & HP1 & Hpre1);
        [by rewrite Hup|].
      assert (i < length (_systems E))%nat by by eapply lookup_lt_Some.
      assert (length (_systems E1) ≤ N)%nat by by apply P_bounded.
      specialize (IH (S i) w1 E1 HE1 HP1).
      destruct (run_systems handlers behaviour depth fuel e delta (S i) w1) as [[] w2|err w2|].
      * destruct IH as (E2 & HE2 & HP2 & Hpre2 & Hinv2).
        { apply prefix_length in Hpre1. lia. }
        exists E2. repeat split; try done; [by etrans|].
        rewrite Hinv2, Hinv, <- app_assoc. f_equal.
        assert (_systems E2 !! i = Some s) as Hs.
        { apply (prefix_lookup_Some (_systems E)); [done|by etrans]. }
        by rewrite (drop_S _ _ _ Hs).
      * destruct IH as (E2 & k & HE2 & HP2 & Hpre2 & Hinv2).
        { apply prefix_length in Hpre1. lia. }
        exists E2, (S k). repeat split; try done; [by etrans|].
        rewrite Hinv2, Hinv, <- app_assoc. f_equal.
        assert (_systems E2 !! i = Some s) as Hs.
        { apply (prefix_lookup_Some (_systems E)); [done|by etrans]. }
        by rewrite (drop_S _ _ _ Hs).
      * apply IH. apply prefix_length in Hpre1. lia.
    + destruct (System_update_ok depth s w E w1 HE HP) as (Hinv & E1 & HE1 & HP1 & Hpre1);
        [by rewrite Hup|].
      exists E1, 1%nat. repeat split; try done.
      assert (_systems E1 !! i = Some s) as Hs by by eapply prefix_lookup_Some.
      by rewrite Hinv, (drop_S _ _ _ Hs).
    + intros Hq. unfold System_update in Hup. unfold_monad.
      set (w0 := set_invocations _ w) in Hup. cbn beta in Hup.
      by apply run_script_terminates in Hup.
  - exists E. repeat split; try done.
    apply lookup_ge_None in Hi. rewrite drop_ge by done.
    by rewrite app_nil_r.
Qed.

(** A property [G] of the system list that an ever longer list keeps, and
    that the callback of [s0] brings about. *)
Variable G : list SystemRef → Prop.
Variable s0 : SystemRef.
Hypothesis G_mono : ∀ ss ss', ss `prefix_of` ss' → G ss → G ss'.
Hypothesis s0_brings_G :
  ∀ w, Exists (λ c, ∀ ss, P ss → G (systems_after e c ss)) (behaviour s0 e delta w).



End TickProofs.

(** With listeners that make no call, a tick is the tick with silent
    listeners, with any fuel for the calls of listeners. *)
Lemma run_systems_quiet handlers behaviour depth depth' e delta fuel : ∀ i w,
  quiet handlers →
  run_systems handlers behaviour depth fuel e delta i w
  = run_systems silent behaviour depth' fuel e delta i w.
Proof.
  induction fuel as [|fuel IH]; intros i w Hq; [done|].
  cbn [run_systems]. rewrite !bind_eq.
  destruct (get_engine e w) as [E w0|err w0|]; [|done..].
  destruct (_systems E !! i); [|done].
  rewrite !bind_eq. unfold System_update. rewrite !bind_eq.
  destruct (log_invocation _ w0) as [[] w1|err w1|]; [|done..].
  rewrite !bind_eq. unfold get_world.
  rewrite (run_script_quiet handlers depth) by done.
  rewrite <- (run_script_quiet silent depth') by done.
  destruct (run_script silent depth' _ w1) as [[] w2|err w2|]; [by apply IH|done..].
Qed.

Lemma update_quiet handlers behaviour fuel e delta w :
  quiet handlers →
  update handlers behaviour fuel e delta w = update silent behaviour fuel e delta w.
Proof.
  intros Hq. unfold update. rewrite !bind_eq.
  destruct (sort_step e w) as [[] w1|err w1|]; [|done..].
  by apply run_systems_quiet.
Qed.

(** A property of the state that the records of calls do not bear on, and
    that the sort and every command of a class [ok] keep, is kept by a tick
    whose callbacks make commands of [ok]. *)
Lemma update_keeps (I : World → Prop) (ok : Cmd → Prop) handlers behaviour fuel e delta :
  (∀ f w, I w → I (set_invocations f w)) →
  keeps I (sort_step e) →
  (∀ depth c, ok c → keeps I (exec handlers depth c)) →
  (∀ s w, Forall ok (behaviour s e delta w)) →
  keeps I (update handlers behaviour fuel e delta).
Proof.
  intros Hinv Hsort Hexec Hok. apply keeps_bind; [done|].
  intros _. generalize 0%nat. generalize fuel at 1. intros depth.
  induction fuel as [|fuel IH]; intros i; [done|].
  cbn [run_systems]. apply keeps_bind.
  { intros w w'. unfold get_engine. by case_match; intros ? [= <-]. }
  intros E. destruct (_systems E !! i) as [s|]; [|by intros w w' HI [= <-]].
  apply keeps_bind; [|by intros _].
  unfold System_update. apply keeps_bind.
  { intros w w' HI [= <-]. by apply Hinv. }
  intros _. apply keeps_bind; [by intros w w' HI [= <-]|].
  intros w0. apply keeps_for_of_in. intros c Hc. apply Hexec.
  pose proof (Hok s w0) as Hall. rewrite Forall_forall in Hall. by apply Hall.
Qed.

Lemma update_keeps_any (I : World → Prop) handlers behaviour fuel e delta :
  (∀ f w, I w → I (set_invocations f w)) →
  keeps I (sort_step e) →
  (∀ depth c, keeps I (exec handlers depth c)) →
  keeps I (update handlers behaviour fuel e delta).
Proof.
  intros Hinv Hsort Hexec. apply (update_keeps I (λ _, True)); [done..| |].
  - intros depth c _. apply Hexec.
  - intros s w. by apply Forall_forall.
Qed.

Lemma sort_step_spec e w E :
  engine_objs w !! e = Some E →
  ∃ w1 E1,
    sort_step e w = Ok tt w1 ∧ engine_objs w1 !! e = Some E1 ∧
    _systems E1 = (if _systemsNeedSorting E
                   then Array_sort (by_priority w) (_systems E)
                   else _systems E) ∧
    _systemsNeedSorting E1 = false ∧
    invocations w1 = invocations w ∧ system_objs w1 = system_objs w.
Proof.
  intros HE. unfold sort_step. unfold_monad. rewrite HE.
  destruct (_systemsNeedSorting E) eqn:Hflag; simpl.
  - rewrite lookup_insert_eq. eexists _, _. split; [done|]. simpl.
    rewrite lookup_insert_eq. done.
  - eexists _, _. split; [done|]. done.
Qed.

(** ** The invariant of the system lists *)

Lemma in_priority_order_ext w w' ss :
  (∀ s, s ∈ ss → priority w' s = priority w s) →
  in_priority_order w ss → in_priority_order w' ss.
Proof.
  unfold in_priority_order. intros Hsame Hs.
  induction Hs as [|x l Hl IH Hx]; [constructor|].
  constructor.
  - apply IH. intros s Hs'. apply Hsame. by right.
  - rewrite Forall_forall in *. intros y Hy.
    rewrite (Hsame x), (Hsame y); [by apply Hx|by right|by left].
Qed.

Lemma in_priority_order_delete w ss i :
  in_priority_order w ss → in_priority_order w (delete i ss).
Proof.
  unfold in_priority_order. intros Hs. revert i.
  induction Hs as [|x l Hl IH Hx]; intros i; [destruct i; constructor|].
  destruct i as [|i]; simpl; [done|]. constructor; [apply IH|].
  rewrite Forall_forall in *. intros y Hy. apply Hx.
  eapply elem_of_sublist; [exact Hy|]. apply sublist_delete.
Qed.

(** A state with the same systems, and engines with the same lists and
    flags, is consistent again. *)
Lemma systems_consistent_ext w w' :
  system_objs w' = system_objs w →
  (∀ e, scheduling <$> engine_objs w' !! e = scheduling <$> engine_objs w !! e) →
  systems_consistent w → systems_consistent w'.
Proof.
  intros Hsys Heng [Hengines Hexist].
  assert (∀ s, system_of w' s = system_of w s) as Hof
    by (intros s; unfold system_of; by rewrite Hsys).
  split.
  - intros e E' HE'. specialize (Heng e). rewrite HE' in Heng.
    destruct (engine_objs w !! e) as [E|] eqn:HE; [|done].
    injection Heng as Hss Hflag. destruct (Hengines e E HE) as (Hnd & Hatt & Hsorted).
    rewrite Hss, Hflag. repeat split; [done| |].
    + intros s Hs. rewrite Hof. by apply Hatt.
    + intros Hdown. eapply in_priority_order_ext; [|by apply Hsorted].
      intros s _. unfold priority. by rewrite Hof.
  - intros s e He. rewrite Hof in He. destruct (Hexist s e He) as [E HE].
    specialize (Heng e). rewrite HE in Heng.
    by destruct (engine_objs w' !! e).
Qed.

Lemma scheduling_insert (m : gmap EngineRef Engine) e E E' :
  m !! e = Some E → scheduling E' = scheduling E →
  ∀ e', scheduling <$> <[e := E']> m !! e' = scheduling <$> m !! e'.
Proof.
  intros HE Hsame e'. rewrite lookup_insert. case_decide; [|done].
  subst. rewrite HE. simpl. by f_equal.
Qed.

Lemma exec_scheduling c w w' :
  match c with
  | AddSystem _ _ | RemoveSystem _ _ | SetPriority _ _ => False
  | _ => True
  end →
  final (exec silent 0 c w) = Some w' →
  system_objs w' = system_objs w ∧
  ∀ e, scheduling <$> engine_objs w' !! e = scheduling <$> engine_objs w !! e.
Proof.
  destruct c; simpl; try done; intros _.
  - rewrite addEntity_eq. repeat case_match; by intros [= <-].
  - rewrite removeEntity_eq. repeat case_match; by intros [= <-].
  - unfold addEntityListener. unfold_monad.
    repeat case_match; simplify_eq/=; intros [= <-]; try done.
    split; [done|]. by eapply scheduling_insert.
  - unfold removeEntityListener. unfold_monad.
    repeat case_match; simplify_eq/=; intros [= <-]; try done.
    split; [done|]. by eapply scheduling_insert.
  - unfold addBlueprint. unfold_monad.
    repeat case_match; simplify_eq/=; by intros [= <-].
  - unfold start, new_EntityFactory. unfold_monad.
    repeat case_match; simplify_eq/=; intros [= <-]; try done.
    split; [done|]. by eapply scheduling_insert.
  - unfold entities. unfold_monad.
    repeat case_match; simplify_eq/=; by intros [= <-].
  - unfold write_entity_array. repeat case_match; by intros [= <-].
Qed.

Lemma system_of_insert w s S s' :
  system_of (set_system_objs <[s := S]> w) s'
  = if decide (s = s') then S else system_of w s'.
Proof.
  unfold system_of. simpl. rewrite lookup_insert. by case_decide.
Qed.

Lemma addSystem_eq e s w :
  addSystem e s w =
  match engine_objs w !! e with
  | None => Throw TypeError w
  | Some E =>
      match indexOf s (_systems E) with
      | Some _ => Ok tt w
      | None =>
          let E1 := with_systems E (_systems E ++ [s]) in
          Ok tt (set_engine_objs <[e := with_systemsNeedSorting E1 true]>
                   (attached s e (set_engine_objs <[e := E1]> w)))
      end
  end.
Proof.
  unfold addSystem, onAttach, attached. unfold_monad.
  destruct (engine_objs w !! e) as [E|]; [|done].
  destruct (indexOf s (_systems E)); [done|]. cbn beta iota zeta.
  destruct (indexOf e _); simpl; by rewrite lookup_insert_eq.
Qed.

Lemma removeSystem_eq e s w :
  removeSystem e s w =
  match engine_objs w !! e with
  | None => Throw TypeError w
  | Some E =>
      match indexOf s (_systems E) with
      | None => Ok tt w
      | Some index =>
          Ok tt (detached s e
                   (set_engine_objs <[e := with_systems E (delete index (_systems E))]> w))
      end
  end.
Proof.
  unfold removeSystem, onDetach, detached. unfold_monad.
  destruct (engine_objs w !! e) as [E|]; [|done].
  destruct (indexOf s (_systems E)); [|done]. cbn beta iota zeta.
  by destruct (indexOf e _).
Qed.

Lemma attached_facts s e w :
  engine_objs (attached s e w) = engine_objs w ∧
  (∀ s', _priority (system_of (attached s e w) s') = _priority (system_of w s')) ∧
  (∀ s' e', e' ∈ _engines (system_of (attached s e w) s') ↔
            e' ∈ _engines (system_of w s') ∨ (s' = s ∧ e' = e)).
Proof.
  unfold attached. destruct (indexOf e _) as [j|] eqn:Hj.
  - apply indexOf_Some in Hj as [Hj _]. apply list_elem_of_lookup_2 in Hj.
    repeat split; try done; [by left|]. intros [?|[-> ->]]; done.
  - repeat split; try done.
    + intros s'. rewrite system_of_insert. by case_decide; subst.
    + rewrite system_of_insert. case_decide; subst; simpl; [|by left].
      rewrite elem_of_app, list_elem_of_singleton. intros [?|?]; auto.
    + rewrite system_of_insert. intros [He'|[-> ->]].
      * case_decide; subst; simpl; [|done]. apply elem_of_app. by left.
      * rewrite decide_True by done. simpl. apply elem_of_app. right.
        by apply list_elem_of_singleton.
Qed.

Lemma detached_facts s e w :
  engine_objs (detached s e w) = engine_objs w ∧
  (∀ s', _priority (system_of (detached s e w) s') = _priority (system_of w s')) ∧
  (∀ s' e', e' ∈ _engines (system_of (detached s e w) s') →
            e' ∈ _engines (system_of w s')) ∧
  (∀ s' e', e' ∈ _engines (system_of w s') → (s' ≠ s ∨ e' ≠ e) →
            e' ∈ _engines (system_of (detached s e w) s')).
Proof.
  unfold detached. destruct (indexOf e _) as [j|] eqn:Hj; [|done].
  apply indexOf_Some in Hj as [Hj _].
  repeat split; try done.
  - intros s'. rewrite system_of_insert. by case_decide; subst.
  - intros s' e'. rewrite system_of_insert. case_decide; subst; simpl; [|done].
    intros He'. eapply elem_of_sublist; [exact He'|apply sublist_delete].
  - intros s' e' He' Hne. rewrite system_of_insert. case_decide; subst; simpl; [|done].
    destruct Hne as [?|Hne]; [done|].
    apply list_elem_of_lookup in He' as [k Hk].
    assert (k ≠ j) as Hkj by (intros ->; congruence).
    apply list_elem_of_lookup.
    destruct (decide (k < j)%nat).
    + exists k. by rewrite list_lookup_delete_lt.
    + exists (pred k). rewrite list_lookup_delete_ge by lia.
      by replace (S (pred k)) with k by lia.
Qed.

Lemma addSystem_keeps_consistent e s : keeps systems_consistent (addSystem e s).
Proof.
  intros w w' [Hengines Hexist]. rewrite addSystem_eq.
  destruct (engine_objs w !! e) as [E|] eqn:HE; [|by intros [= <-]].
  destruct (indexOf s (_systems E)) as [i|] eqn:Hidx; [by intros [= <-]|].
  apply indexOf_None in Hidx. cbn zeta. intros [= <-].
  set (E1 := with_systems E (_systems E ++ [s])).
  set (w1 := set_engine_objs <[e := E1]> w).
  destruct (attached_facts s e w1) as (Heng2 & Hprio & Hatt2).
  split.
  - intros e' E'. simpl. rewrite Heng2. simpl. rewrite insert_insert_eq, lookup_insert.
    case_decide as He.
    + subst e'. intros [= <-]. simpl. destruct (Hengines e E HE) as (Hnd & Hatt & _).
      repeat split; [| |done].
      * apply NoDup_app. repeat split; [done| |apply NoDup_singleton].
        intros x Hx ->%list_elem_of_singleton. done.
      * intros s' [Hs'|Hs']%elem_of_app; apply Hatt2.
        -- left. by apply Hatt.
        -- right. by apply list_elem_of_singleton in Hs'.
    + intros HE'. destruct (Hengines e' E' HE') as (Hnd & Hatt & Hsorted).
      repeat split; [done| |].
      * intros s' Hs'. apply Hatt2. left. by apply Hatt.
      * intros Hdown. eapply in_priority_order_ext; [|by apply Hsorted].
        intros s' _. apply Hprio.
  - intros s' e' He'. simpl in He'. apply Hatt2 in He'. simpl.
    rewrite Heng2. simpl. rewrite insert_insert_eq, lookup_insert.
    case_decide; [by eexists|]. destruct He' as [He'|[-> ->]]; [|done].
    by eapply Hexist.
Qed.

Lemma removeSystem_keeps_consistent e s : keeps systems_consistent (removeSystem e s).
Proof.
  intros w w' [Hengines Hexist]. rewrite removeSystem_eq.
  destruct (engine_objs w !! e) as [E|] eqn:HE; [|by intros [= <-]].
  destruct (indexOf s (_systems E)) as [i|] eqn:Hidx; [|by intros [= <-]].
  apply indexOf_Some in Hidx as [Hi _]. intros [= <-].
  set (E1 := with_systems E (delete i (_systems E))).
  set (w1 := set_engine_objs <[e := E1]> w).
  destruct (detached_facts s e w1) as (Heng2 & Hprio & Hsub & Hkeep).
  destruct (Hengines e E HE) as (Hnd & Hatt & Hsorted).
  assert (s ∉ delete i (_systems E)) as Hgone.
  { rewrite <- (take_drop_middle _ _ _ Hi) in Hnd.
    apply NoDup_app in Hnd as (_ & Hdisj & [Hs _]%NoDup_cons).
    rewrite delete_take_drop. intros [Hin|Hin]%elem_of_app; [|done].
    apply (Hdisj s Hin). by left. }
  split.
  - intros e' E'. rewrite Heng2. simpl. rewrite lookup_insert.
    case_decide as He.
    + subst e'. intros [= <-]. simpl. repeat split.
      * eapply sublist_NoDup; [exact Hnd|apply sublist_delete].
      * intros s' Hs'. apply Hkeep.
        -- apply Hatt. eapply elem_of_sublist; [exact Hs'|apply sublist_delete].
        -- left. intros ->. done.
      * intros Hdown. apply in_priority_order_delete.
        eapply in_priority_order_ext; [|by apply Hsorted].
        intros s' _. apply Hprio.
    + intros HE'. destruct (Hengines e' E' HE') as (Hnd' & Hatt' & Hsorted').
      repeat split; [done| |].
      * intros s' Hs'. apply Hkeep; [by apply Hatt'|by right].
      * intros Hdown. eapply in_priority_order_ext; [|by apply Hsorted'].
        intros s' _. apply Hprio.
  - intros s' e' He'%Hsub. rewrite Heng2. simpl. rewrite lookup_insert.
    case_decide; [by eexists|]. by eapply Hexist.
Qed.

Lemma set_priority_keeps_consistent s value :
  keeps systems_consistent (set_priority s value).
Proof.
  intros w w' [Hengines Hexist]. unfold set_priority. unfold_monad.
  set (w0 := set_system_objs _ w).
  destruct (for_of_notifyPriorityChange_Ok (_engines (system_of w s)) s w0)
    as (w2 & Hrun & _ & _ & Hsys & _ & _ & Hlook); [by apply Hexist|].
  rewrite Hrun. intros [= <-].
  assert (∀ s', _engines (system_of w2 s') = _engines (system_of w s')) as Hsame.
  { intros s'. unfold system_of at 1. rewrite Hsys.
    change (default new_System (system_objs w0 !! s')) with (system_of w0 s').
    unfold w0. rewrite system_of_insert. by case_decide; subst. }
  assert (∀ s', s' ≠ s → priority w2 s' = priority w s') as Hprio.
  { intros s' Hne. unfold priority, system_of at 1. rewrite Hsys.
    change (default new_System (system_objs w0 !! s')) with (system_of w0 s').
    unfold w0. rewrite system_of_insert. by rewrite decide_False. }
  split.
  - intros e E'. rewrite Hlook. simpl.
    destruct (engine_objs w !! e) as [E|] eqn:HE; [|done]. simpl.
    destruct (Hengines e E HE) as (Hnd & Hatt & Hsorted).
    case_bool_decide as Hin; intros [= <-]; simpl.
    + repeat split; [done| |done]. intros s' Hs'. rewrite Hsame. by apply Hatt.
    + repeat split; [done| |].
      * intros s' Hs'. rewrite Hsame. by apply Hatt.
      * intros Hdown. eapply in_priority_order_ext; [|by apply Hsorted].
        intros s' Hs'. apply Hprio. intros ->. by apply Hin, Hatt.
  - intros s' e. rewrite Hsame. intros [E HE]%Hexist. rewrite Hlook. simpl.
    rewrite HE. by eexists.
Qed.

Lemma exec_silent_keeps_consistent c : keeps systems_consistent (exec silent 0 c).
Proof.
  destruct c;
    try (match goal with
         | |- keeps _ (exec _ _ ?c) =>
             intros w w' Hcons Hf;
             destruct (exec_scheduling c w w' I Hf) as [Hsys Heng];
             by apply (systems_consistent_ext w w')
         end).
  - apply addSystem_keeps_consistent.
  - apply removeSystem_keeps_consistent.
  - apply set_priority_keeps_consistent.
Qed.

Lemma exec_keeps_consistent handlers fuel c :
  keeps systems_consistent (exec handlers fuel c).
Proof.
  apply exec_keeps_any; [done|apply exec_silent_keeps_consistent].
Qed.

Lemma sort_step_keeps_consistent e : keeps systems_consistent (sort_step e).
Proof.
  intros w w' [Hengines Hexist]. unfold sort_step. unfold_monad.
  destruct (engine_objs w !! e) as [E|] eqn:HE; [|by intros [= <-]].
  destruct (_systemsNeedSorting E) eqn:Hflag; [|by intros [= <-]].
  simpl. rewrite lookup_insert_eq. intros [= <-].
  destruct (Hengines e E HE) as (Hnd & Hatt & _).
  pose proof (Array_sort_perm (priority w) (_systems E)) as Hperm.
  split.
  - intros e' E'. simpl. rewrite insert_insert_eq, lookup_insert.
    case_decide as He; [|by apply Hengines].
    subst e'. intros [= <-]. simpl. repeat split.
    + unfold by_priority. by rewrite Hperm.
    + intros s Hs. apply Hatt. unfold by_priority in Hs. by rewrite Hperm in Hs.
    + intros _. apply (Array_sort_sorted (priority w)).
  - intros s e' [E' HE']%Hexist. simpl. rewrite insert_insert_eq, lookup_insert.
    case_decide; by eexists.
Qed.

Lemma update_keeps_consistent handlers behaviour fuel e delta :
  keeps systems_consistent (update handlers behaviour fuel e delta).
Proof.
  apply update_keeps_any;
    [done|apply sort_step_keeps_consistent|intros; apply exec_keeps_consistent].
Qed.

Lemma new_Engine_keeps_consistent components bt :
  keeps systems_consistent (new_Engine components bt).
Proof.
  intros w w' [Hengines Hexist]. unfold new_Engine. unfold_monad. intros [= <-].
  set (e := fresh (dom (engine_objs w))).
  assert (engine_objs w !! e = None) as Hfresh.
  { apply not_elem_of_dom, is_fresh. }
  split.
  - intros e' E'. simpl. rewrite lookup_insert. case_decide as He.
    + intros [= <-]. simpl. repeat split; [constructor| |intros _; constructor].
      by intros s ?%elem_of_nil.
    + apply Hengines.
  - intros s e' [E' HE']%Hexist. simpl. rewrite lookup_insert.
    case_decide; by eexists.
Qed.

Lemma empty_world_consistent : systems_consistent empty_world.
Proof.
  split; [by intros e E ?|]. intros s e. unfold system_of. simpl.
  rewrite lookup_empty. simpl. by intros ?%elem_of_nil.
Qed.

(** Every reachable state is consistent: in particular the system list of
    an engine whose flag is down is in priority order. *)
Lemma reachable_consistent w : reachable w → systems_consistent w.
Proof.
  induction 1 as [|w h w' _ IH Hstep]; [apply empty_world_consistent|].
  destruct h as [components bt|handlers fuel c|handlers behaviour fuel e delta];
    unfold host_step in Hstep.
  - eapply (keeps_bind _ (new_Engine components bt) (λ _, mret tt));
      [apply new_Engine_keeps_consistent| |exact IH|exact Hstep].
    by intros _ w1 w2 ? [= <-].
  - by apply (exec_keeps_consistent handlers fuel c w).
  - by apply (update_keeps_consistent handlers behaviour fuel e delta w).
Qed.

(** ** The invariant of the engines' arrays *)

Lemma stays_live_refl {A} (m : gmap loc (ArrayObj A)) : stays_live m m.
Proof. intros l a Hl Hfr. eauto. Qed.

Lemma stays_live_write {A} (m : gmap loc (ArrayObj A)) l a :
  frozen a = false → stays_live m (<[l := a]> m).
Proof.
  intros Hfr l' a' Hl' Hfr'. rewrite lookup_insert. case_decide; eauto.
Qed.

Lemma stays_live_alloc {A} (m : gmap loc (ArrayObj A)) a :
  stays_live m (<[fresh (dom m) := a]> m).
Proof.
  intros l' a' Hl' Hfr'. rewrite lookup_insert_ne; [eauto|].
  by eapply fresh_loc_ne.
Qed.

(** A state whose engines have the array fields they had, and whose live
    arrays stayed live, has live arrays again. *)
Lemma arrays_live_ext w w' :
  (∀ e E', engine_objs w' !! e = Some E' →
           ∃ E, engine_objs w !! e = Some E ∧ array_fields E' = array_fields E) →
  stays_live (entity_arrays w) (entity_arrays w') →
  stays_live (blueprint_arrays w) (blueprint_arrays w') →
  arrays_live w → arrays_live w'.
Proof.
  intros Heng Hents Hbps Hlive e E' HE'.
  destruct (Heng e E' HE') as (E & HE & [= -> ->]).
  destruct (Hlive e E HE) as [(a & Ha & Hfa) (b & Hb & Hfb)].
  split; [by eapply Hents|by eapply Hbps].
Qed.

Lemma array_fields_insert (m : gmap EngineRef Engine) e E E' :
  m !! e = Some E → array_fields E' = array_fields E →
  ∀ e' E'', <[e := E']> m !! e' = Some E'' →
    ∃ E0, m !! e' = Some E0 ∧ array_fields E'' = array_fields E0.
Proof.
  intros HE Hsame e' E''. rewrite lookup_insert. case_decide.
  - subst. intros [= <-]. eauto.
  - eauto.
Qed.

Lemma array_fields_same (m : gmap EngineRef Engine) :
  ∀ e' E'', m !! e' = Some E'' →
    ∃ E0, m !! e' = Some E0 ∧ array_fields E'' = array_fields E0.
Proof. eauto. Qed.

Lemma for_of_notifyPriorityChange_fields es s w w' :
  final (for_of es (λ e, notifyPriorityChange e s) w) = Some w' →
  ∀ e E', engine_objs w' !! e = Some E' →
    ∃ E, engine_objs w !! e = Some E ∧ array_fields E' = array_fields E.
Proof.
  revert w. induction es as [|e0 es IH]; intros w.
  - intros [= <-]. eauto.
  - rewrite for_of_cons, notifyPriorityChange_eq.
    destruct (engine_objs w !! e0) as [E0|] eqn:HE0; [|intros [= <-]; eauto].
    intros Hf e E' HE'. destruct (IH _ Hf e E' HE') as (E1 & HE1 & Hsame).
    simpl in HE1. rewrite lookup_insert in HE1. case_decide.
    + subst. injection HE1 as <-. eauto.
    + eauto.
Qed.

Lemma exec_silent_keeps_arrays_live c : keeps arrays_live (exec silent 0 c).
Proof.
  intros w w' Hlive.
  assert (∀ w1, (∀ e E', engine_objs w1 !! e = Some E' →
                   ∃ E, engine_objs w !! e = Some E ∧ array_fields E' = array_fields E) →
                entity_arrays w1 = entity_arrays w →
                blueprint_arrays w1 = blueprint_arrays w → arrays_live w1) as Hsame.
  { intros w1 Heng Hents Hbps. apply (arrays_live_ext w); [done| | |done].
    - rewrite Hents. apply stays_live_refl.
    - rewrite Hbps. apply stays_live_refl. }
  destruct c; simpl.
  - rewrite addEntity_eq. repeat case_match; intros [= <-]; try done.
    eapply arrays_live_ext; cycle 3;
      [eassumption|eauto|by apply stays_live_write|apply stays_live_refl].
  - rewrite removeEntity_eq. repeat case_match; intros [= <-]; try done.
    eapply arrays_live_ext; cycle 3;
      [eassumption|eauto|by apply stays_live_write|apply stays_live_refl].
  - rewrite addSystem_eq. repeat case_match; intros [= <-]; try done.
    apply Hsame; [|unfold attached; by case_match..]. simpl.
    destruct (attached_facts system e (set_engine_objs
        <[e := with_systems e0 (_systems e0 ++ [system])]> w)) as (-> & _).
    simpl. rewrite insert_insert_eq. by eapply array_fields_insert.
  - rewrite removeSystem_eq. repeat case_match; intros [= <-]; try done.
    destruct (detached_facts system e (set_engine_objs
        <[e := with_systems e0 (delete n (_systems e0))]> w)) as (Heng & _).
    apply Hsame; [|unfold detached; by case_match..].
    rewrite Heng. simpl. by eapply array_fields_insert.
  - unfold set_priority. unfold_monad. intros Hf.
    pose proof (for_of_notifyPriorityChange_fields _ _ _ _ Hf) as Heng.
    apply for_of_notifyPriorityChange in Hf as (Hents & Hbps & _).
    by apply Hsame.
  - unfold addEntityListener. unfold_monad.
    repeat case_match; simplify_eq/=; intros [= <-]; try done.
    apply Hsame; [|done..]. by eapply array_fields_insert.
  - unfold removeEntityListener. unfold_monad.
    repeat case_match; simplify_eq/=; intros [= <-]; try done.
    apply Hsame; [|done..]. by eapply array_fields_insert.
  - unfold addBlueprint. unfold_monad.
    repeat case_match; simplify_eq/=; intros [= <-]; try done.
    eapply arrays_live_ext; cycle 3;
      [eassumption|eauto|apply stays_live_refl|by apply stays_live_write].
  - unfold start, new_EntityFactory. unfold_monad.
    repeat case_match; simplify_eq/=; intros [= <-]; try done.
    apply Hsame; [|done..]. by eapply array_fields_insert.
  - unfold entities. unfold_monad.
    repeat case_match; simplify_eq/=; intros [= <-]; try done.
    eapply arrays_live_ext; cycle 3;
      [eassumption|eauto|apply stays_live_alloc|apply stays_live_refl].
  - unfold write_entity_array. repeat case_match; intros [= <-]; try done.
    eapply arrays_live_ext; cycle 3;
      [eassumption|eauto|by apply stays_live_write|apply stays_live_refl].
Qed.

Lemma exec_keeps_arrays_live handlers fuel c :
  keeps arrays_live (exec handlers fuel c).
Proof.
  apply exec_keeps_any; [done|apply exec_silent_keeps_arrays_live].
Qed.

Lemma sort_step_keeps_arrays_live e : keeps arrays_live (sort_step e).
Proof.
  intros w w' Hlive. unfold sort_step. unfold_monad.
  destruct (engine_objs w !! e) as [E|] eqn:HE; [|by intros [= <-]].
  destruct (_systemsNeedSorting E) eqn:Hflag; [|by intros [= <-]].
  simpl. rewrite lookup_insert_eq. intros [= <-].
  eapply arrays_live_ext; cycle 3;
    [eassumption| |apply stays_live_refl..].
  simpl. rewrite insert_insert_eq. by eapply array_fields_insert.
Qed.

Lemma update_keeps_arrays_live handlers behaviour fuel e delta :
  keeps arrays_live (update handlers behaviour fuel e delta).
Proof.
  apply update_keeps_any;
    [done|apply sort_step_keeps_arrays_live|intros; apply exec_keeps_arrays_live].
Qed.

Lemma new_Engine_keeps_arrays_live components bt :
  keeps arrays_live (new_Engine components bt).
Proof.
  intros w w' Hlive. unfold new_Engine. unfold_monad. intros [= <-].
  intros e E. simpl. rewrite lookup_insert. case_decide as He.
  - intros [= <-]. simpl. split; eexists; (split; [apply lookup_insert_eq|done]).
  - intros HE. destruct (Hlive e E HE) as [(a & Ha & Hfa) (b & Hb & Hfb)]. split.
    + by eapply stays_live_alloc.
    + by eapply stays_live_alloc.
Qed.

Lemma reachable_arrays_live w : reachable w → arrays_live w.
Proof.
  induction 1 as [|w h w' _ IH Hstep]; [by intros e E ?|].
  destruct h as [components bt|handlers fuel c|handlers behaviour fuel e delta];
    unfold host_step in Hstep.
  - eapply (keeps_bind _ (new_Engine components bt) (λ _, mret tt));
      [apply new_Engine_keeps_arrays_live| |exact IH|exact Hstep].
    by intros _ w1 w2 ? [= <-].
  - by apply (exec_keeps_arrays_live handlers fuel c w).
  - by apply (update_keeps_arrays_live handlers behaviour fuel e delta w).
Qed.

Lemma reachable_world_after h w : reachable w → reachable (world_after (host_step h) w).
Proof.
  intros Hw. unfold world_after.
  destruct (final (host_step h w)) as [w'|] eqn:Hf; [|done].
  by eapply reachable_step.
Qed.

Lemma reachable_run_host hs : ∀ w, reachable w → reachable (run_host hs w).
Proof.
  induction hs as [|h hs IH]; intros w Hw; [done|].
  apply IH. by apply reachable_world_after.
Qed.

(** ** The invariant of attachment *)

Lemma elem_of_delete_ne {A} (l : list A) i x y :
  l !! i = Some y → x ≠ y → x ∈ l → x ∈ delete i l.
Proof.
  intros Hi Hne [k Hk]%list_elem_of_lookup.
  assert (k ≠ i) as Hki by (intros ->; congruence).
  apply list_elem_of_lookup. destruct (decide (k < i)%nat).
  - exists k. by rewrite list_lookup_delete_lt.
  - exists (pred k). rewrite list_lookup_delete_ge by lia.
    by replace (S (pred k)) with k by lia.
Qed.

Lemma not_elem_of_delete_NoDup {A} (l : list A) i x :
  NoDup l → l !! i = Some x → x ∉ delete i l.
Proof.
  intros Hnd Hi. rewrite <- (take_drop_middle _ _ _ Hi) in Hnd.
  apply NoDup_app in Hnd as (_ & Hdisj & [Hx _]%NoDup_cons).
  rewrite delete_take_drop. intros [Hin|Hin]%elem_of_app; [|done].
  apply (Hdisj x Hin). by left.
Qed.

Lemma attachment_exact_ext w w' :
  system_objs w' = system_objs w →
  (∀ e, scheduling <$> engine_objs w' !! e = scheduling <$> engine_objs w !! e) →
  attachment_exact w → attachment_exact w'.
Proof.
  intros Hsys Heng Hex s.
  assert (system_of w' s = system_of w s) as -> by (unfold system_of; by rewrite Hsys).
  destruct (Hex s) as [Hnd Hback]. split; [done|].
  intros e (E & HE & Hs)%Hback. specialize (Heng e). rewrite HE in Heng.
  destruct (engine_objs w' !! e) as [E'|]; [|done].
  injection Heng as Hss _. exists E'. by rewrite Hss.
Qed.

Lemma addSystem_keeps_exact e s : keeps attachment_exact (addSystem e s).
Proof.
  intros w w' Hex. rewrite addSystem_eq.
  destruct (engine_objs w !! e) as [E|] eqn:HE; [|by intros [= <-]].
  destruct (indexOf s (_systems E)) as [i|] eqn:Hidx; [by intros [= <-]|].
  cbn zeta. intros [= <-].
  set (E1 := with_systems E (_systems E ++ [s])).
  set (w1 := set_engine_objs <[e := E1]> w).
  destruct (attached_facts s e w1) as (Heng2 & _ & Hatt2).
  assert (∀ e' s', (∃ E', engine_objs w !! e' = Some E' ∧ s' ∈ _systems E') ∨
                   (e' = e ∧ s' = s) →
     ∃ E', engine_objs (set_engine_objs <[e := with_systemsNeedSorting E1 true]>
                          (attached s e w1)) !! e' = Some E' ∧ s' ∈ _systems E')
    as Hhas.
  { intros e' s' Hor. simpl. rewrite Heng2. simpl.
    rewrite insert_insert_eq, lookup_insert. case_decide as He.
    - subst e'. eexists. split; [done|]. simpl. apply elem_of_app.
      destruct Hor as [(E' & HE' & Hs')|[_ ->]].
      + left. by simplify_eq.
      + right. by apply list_elem_of_singleton.
    - destruct Hor as [?|[? _]]; done. }
  intros s'. split.
  - change (NoDup (_engines (system_of (attached s e w1) s'))).
    unfold attached.
    change (system_of w1 s) with (system_of w s).
    destruct (indexOf e (_engines (system_of w s))) as [j|] eqn:Hj;
      [apply (Hex s')|].
    rewrite system_of_insert. case_decide; [|apply (Hex s')].
    subst s'. simpl. apply NoDup_app. repeat split.
    + apply (Hex s).
    + intros x Hx ->%list_elem_of_singleton. by apply indexOf_None in Hj.
    + apply NoDup_singleton.
  - intros e' He'.
    change (e' ∈ _engines (system_of (attached s e w1) s')) in He'.
    apply Hatt2 in He'. apply Hhas. destruct He' as [He'|[-> ->]]; [left|by right].
    by apply (Hex s').
Qed.

Lemma removeSystem_keeps_exact e s :
  keeps (λ w, systems_consistent w ∧ attachment_exact w) (removeSystem e s).
Proof.
  intros w w' [Hcons Hex] Hfinal.
  split; [by apply (removeSystem_keeps_consistent e s w)|].
  revert Hfinal. rewrite removeSystem_eq.
  destruct (engine_objs w !! e) as [E|] eqn:HE; [|by intros [= <-]].
  destruct (indexOf s (_systems E)) as [i|] eqn:Hidx; [|by intros [= <-]].
  apply indexOf_Some in Hidx as [Hi _]. intros [= <-].
  set (E1 := with_systems E (delete i (_systems E))).
  set (w1 := set_engine_objs <[e := E1]> w).
  destruct (detached_facts s e w1) as (Heng2 & _ & Hsub & _).
  destruct Hcons as [Hengines _].
  destruct (Hengines e E HE) as (Hnd & Hatt & _).
  intros s'. split.
  - unfold detached. change (system_of w1 s) with (system_of w s).
    destruct (indexOf e (_engines (system_of w s))) as [j|] eqn:Hj;
      [|apply (Hex s')].
    rewrite system_of_insert. case_decide; [|apply (Hex s')].
    subst s'. simpl. eapply sublist_NoDup; [apply (Hex s)|apply sublist_delete].
  - intros e' He'. rewrite Heng2. simpl. rewrite lookup_insert.
    case_decide as He.
    + subst e'. eexists. split; [done|]. simpl.
      destruct (decide (s' = s)) as [->|Hne].
      * exfalso. revert He'. unfold detached.
        change (system_of w1 s) with (system_of w s).
        pose proof (Hatt s ltac:(by eapply list_elem_of_lookup_2)) as Hin.
        destruct (indexOf e (_engines (system_of w s))) as [j|] eqn:Hj.
        -- rewrite system_of_insert, decide_True by done. simpl.
           apply indexOf_Some in Hj as [Hj _].
           apply not_elem_of_delete_NoDup; [apply (Hex s)|done].
        -- by apply indexOf_None in Hj.
      * apply Hsub in He'. destruct (Hex s') as [_ Hback].
        destruct (Hback e He') as (E' & HE' & Hs'). simplify_eq.
        by eapply elem_of_delete_ne.
    + apply Hsub in He'. by apply (Hex s').
Qed.

Lemma set_priority_keeps_exact s value :
  keeps (λ w, systems_consistent w ∧ attachment_exact w) (set_priority s value).
Proof.
  intros w w' [Hcons Hex] Hfinal.
  split; [by apply (set_priority_keeps_consistent s value w)|].
  revert Hfinal. unfold set_priority. unfold_monad.
  set (w0 := set_system_objs _ w).
  destruct Hcons as [_ Hexist].
  destruct (for_of_notifyPriorityChange_Ok (_engines (system_of w s)) s w0)
    as (w2 & Hrun & _ & _ & Hsys & _ & _ & Hlook); [by apply Hexist|].
  rewrite Hrun. intros [= <-]. intros s'.
  assert (_engines (system_of w2 s') = _engines (system_of w s')) as ->.
  { unfold system_of at 1. rewrite Hsys.
    change (default new_System (system_objs w0 !! s')) with (system_of w0 s').
    unfold w0. rewrite system_of_insert. by case_decide; subst. }
  destruct (Hex s') as [Hnd Hback]. split; [done|].
  intros e (E & HE & Hs)%Hback. rewrite Hlook. simpl. rewrite HE. simpl.
  eexists. split; [done|]. by case_bool_decide.
Qed.

Lemma exec_silent_keeps_attachment c :
  keeps (λ w, systems_consistent w ∧ attachment_exact w) (exec silent 0 c).
Proof.
  destruct c;
    try (match goal with
         | |- keeps _ (exec _ _ ?c) =>
             intros w w' [Hcons Hex] Hf;
             destruct (exec_scheduling c w w' I Hf) as [Hsys Heng];
             split; [by apply (systems_consistent_ext w w')
                    |by apply (attachment_exact_ext w w')]
         end).
  - intros w w' [Hcons Hex] Hf. split.
    + by apply (addSystem_keeps_consistent e system w).
    + by apply (addSystem_keeps_exact e system w).
  - apply removeSystem_keeps_exact.
  - apply set_priority_keeps_exact.
Qed.

Lemma exec_keeps_attachment handlers fuel c :
  keeps (λ w, systems_consistent w ∧ attachment_exact w) (exec handlers fuel c).
Proof.
  apply (exec_keeps_any (λ w, systems_consistent w ∧ attachment_exact w));
    [done|apply exec_silent_keeps_attachment].
Qed.

Lemma sort_step_keeps_attachment e :
  keeps (λ w, systems_consistent w ∧ attachment_exact w) (sort_step e).
Proof.
  intros w w' [Hcons Hex] Hfinal.
  split; [by apply (sort_step_keeps_consistent e w)|].
  revert Hfinal. unfold sort_step. unfold_monad.
  destruct (engine_objs w !! e) as [E|] eqn:HE; [|by intros [= <-]].
  destruct (_systemsNeedSorting E) eqn:Hflag; [|by intros [= <-]].
  simpl. rewrite lookup_insert_eq. intros [= <-]. intros s.
  destruct (Hex s) as [Hnd Hback]. split; [done|].
  intros e' (E' & HE' & Hs)%Hback. simpl.
  rewrite insert_insert_eq, lookup_insert. case_decide; [|eauto].
  simplify_eq. eexists. split; [done|]. simpl. unfold by_priority.
  by rewrite (Array_sort_perm (priority w) (_systems E)).
Qed.

Lemma update_keeps_attachment handlers behaviour fuel e delta :
  keeps (λ w, systems_consistent w ∧ attachment_exact w)
        (update handlers behaviour fuel e delta).
Proof.
  apply (update_keeps_any (λ w, systems_consistent w ∧ attachment_exact w));
    [done|apply sort_step_keeps_attachment|intros; apply exec_keeps_attachment].
Qed.

Lemma reachable_attachment w : reachable w → attachment_exact w.
Proof.
  intros Hreach.
  assert (systems_consistent w ∧ attachment_exact w) as [_ Hex]; [|done].
  induction Hreach as [|w h w' Hreach IH Hstep].
  - split; [apply empty_world_consistent|]. intros s. unfold system_of. simpl.
    rewrite lookup_empty. simpl. split; [constructor|by intros e ?%elem_of_nil].
  - destruct h as [components bt|handlers fuel c|handlers behaviour fuel e delta];
      unfold host_step in Hstep.
    + destruct IH as [Hcons Hex].
      assert (systems_consistent w') as Hcons'.
      { eapply (keeps_bind _ (new_Engine components bt) (λ _, mret tt));
          [apply new_Engine_keeps_consistent| |exact Hcons|exact Hstep].
        by intros _ w1 w2 ? [= <-]. }
      split; [done|]. revert Hstep. unfold new_Engine. unfold_monad.
      intros [= <-]. intros s. destruct (Hex s) as [Hnd Hback].
      split; [done|]. intros e (E & HE & Hs)%Hback. simpl.
      rewrite lookup_insert. case_decide as Hfresh; [|eauto].
      exfalso. apply (is_fresh (dom (engine_objs w))). rewrite Hfresh.
      apply elem_of_dom. eauto.
    + by apply (exec_keeps_attachment handlers fuel c w).
    + by apply (update_keeps_attachment handlers behaviour fuel e delta w).
Qed.

(** ** What a call leaves alone *)

Lemma exec_listeners e c w w' E' :
  final (exec silent 0 c w) = Some w' → engine_objs w' !! e = Some E' →
  ∃ E, engine_objs w !! e = Some E ∧
       _entityListeners E' = listeners_after e c (_entityListeners E).
Proof.
  destruct c; simpl.
  - rewrite addEntity_eq. repeat case_match; intros [= <-]; eauto.
  - rewrite removeEntity_eq. repeat case_match; intros [= <-]; eauto.
  - rewrite addSystem_eq. repeat case_match; intros [= <-]; eauto.
    simpl. destruct (attached_facts system e0 (set_engine_objs
        <[e0 := with_systems e1 (_systems e1 ++ [system])]> w)) as (-> & _).
    simpl. rewrite insert_insert_eq, lookup_insert. case_decide; [|eauto].
    subst. intros [= <-]. eauto.
  - rewrite removeSystem_eq. repeat case_match; intros [= <-]; eauto.
    destruct (detached_facts system e0 (set_engine_objs
        <[e0 := with_systems e1 (delete n (_systems e1))]> w)) as (-> & _).
    simpl. rewrite lookup_insert. case_decide; [|eauto].
    subst. intros [= <-]. eauto.
  - unfold set_priority. unfold_monad. intros Hf HE'.
    destruct (for_of_notifyPriorityChange_fields _ _ _ _ Hf e E' HE') as (E & HE & _).
    apply for_of_notifyPriorityChange in Hf as (_ & _ & _ & _ & _ & Hfw).
    destruct (Hfw e E HE) as [b Hb]. exists E. split; [done|].
    rewrite Hb in HE'. by injection HE' as <-.
  - unfold addEntityListener. unfold_monad.
    destruct (engine_objs w !! e0) as [E0|] eqn:HE0.
    + destruct (indexOf listener (_entityListeners E0)) eqn:Hidx.
      * intros [= <-] HE'. exists E'. split; [done|].
        case_decide; [|done]. subst. simplify_eq. by rewrite Hidx.
      * intros [= <-]. simpl. rewrite lookup_insert. case_decide.
        -- subst. intros [= <-]. exists E0. split; [done|]. simpl.
           by rewrite Hidx.
        -- intros HE'. by exists E'.
    + intros [= <-] HE'. exists E'. split; [done|].
      case_decide; [subst; congruence|done].
  - unfold removeEntityListener. unfold_monad.
    destruct (engine_objs w !! e0) as [E0|] eqn:HE0.
    + destruct (indexOf listener (_entityListeners E0)) eqn:Hidx.
      * intros [= <-]. simpl. rewrite lookup_insert. case_decide.
        -- subst. intros [= <-]. exists E0. split; [done|]. simpl.
           by rewrite Hidx.
        -- intros HE'. by exists E'.
      * intros [= <-] HE'. exists E'. split; [done|].
        case_decide; [|done]. subst. simplify_eq. by rewrite Hidx.
    + intros [= <-] HE'. exists E'. split; [done|].
      case_decide; [subst; congruence|done].
  - unfold addBlueprint. unfold_monad.
    repeat case_match; simplify_eq/=; intros [= <-]; eauto.
  - unfold start, new_EntityFactory. unfold_monad.
    destruct (engine_objs w !! e0) as [E0|] eqn:HE0; [|intros [= <-]; eauto].
    destruct (blueprint_arrays w !! _blueprints E0); [|intros [= <-]; eauto].
    intros [= <-]. simpl. rewrite lookup_insert. case_decide; [|eauto].
    subst. intros [= <-]. eauto.
  - unfold entities. unfold_monad.
    repeat case_match; simplify_eq/=; intros [= <-]; eauto.
  - unfold write_entity_array. repeat case_match; intros [= <-]; eauto.
Qed.

Lemma exec_fields c w w' :
  final (exec silent 0 c w) = Some w' →
  ∀ e E', engine_objs w' !! e = Some E' →
    ∃ E, engine_objs w !! e = Some E ∧ array_fields E' = array_fields E.
Proof.
  destruct c; simpl.
  - rewrite addEntity_eq. repeat case_match; intros [= <-]; eauto.
  - rewrite removeEntity_eq. repeat case_match; intros [= <-]; eauto.
  - rewrite addSystem_eq. repeat case_match; intros [= <-]; eauto.
    simpl. destruct (attached_facts system e (set_engine_objs
        <[e := with_systems e0 (_systems e0 ++ [system])]> w)) as (-> & _).
    simpl. rewrite insert_insert_eq. by eapply array_fields_insert.
  - rewrite removeSystem_eq. repeat case_match; intros [= <-]; eauto.
    destruct (detached_facts system e (set_engine_objs
        <[e := with_systems e0 (delete n (_systems e0))]> w)) as (-> & _).
    simpl. by eapply array_fields_insert.
  - unfold set_priority. unfold_monad. intros Hf.
    by apply (for_of_notifyPriorityChange_fields _ _ _ _ Hf).
  - unfold addEntityListener. unfold_monad.
    repeat case_match; simplify_eq/=; intros [= <-]; eauto.
    by eapply array_fields_insert.
  - unfold removeEntityListener. unfold_monad.
    repeat case_match; simplify_eq/=; intros [= <-]; eauto.
    by eapply array_fields_insert.
  - unfold addBlueprint. unfold_monad.
    repeat case_match; simplify_eq/=; intros [= <-]; eauto.
  - unfold start, new_EntityFactory. unfold_monad.
    repeat case_match; simplify_eq/=; intros [= <-]; eauto.
    by eapply array_fields_insert.
  - unfold entities. unfold_monad.
    repeat case_match; simplify_eq/=; intros [= <-]; eauto.
  - unfold write_entity_array. repeat case_match; intros [= <-]; eauto.
Qed.

Lemma exec_factory e c w w' E' :
  c ≠ Start e →
  final (exec silent 0 c w) = Some w' → engine_objs w' !! e = Some E' →
  ∃ E, engine_objs w !! e = Some E ∧ entityFactory E' = entityFactory E.
Proof.
  intros Hc. destruct c; simpl.
  - rewrite addEntity_eq. repeat case_match; intros [= <-]; eauto.
  - rewrite removeEntity_eq. repeat case_match; intros [= <-]; eauto.
  - rewrite addSystem_eq. repeat case_match; intros [= <-]; eauto.
    simpl. destruct (attached_facts system e0 (set_engine_objs
        <[e0 := with_systems e1 (_systems e1 ++ [system])]> w)) as (-> & _).
    simpl. rewrite insert_insert_eq, lookup_insert. case_decide; [|eauto].
    subst. intros [= <-]. eauto.
  - rewrite removeSystem_eq. repeat case_match; intros [= <-]; eauto.
    destruct (detached_facts system e0 (set_engine_objs
        <[e0 := with_systems e1 (delete n (_systems e1))]> w)) as (-> & _).
    simpl. rewrite lookup_insert. case_decide; [|eauto].
    subst. intros [= <-]. eauto.
  - unfold set_priority. unfold_monad. intros Hf HE'.
    destruct (for_of_notifyPriorityChange_fields _ _ _ _ Hf e E' HE') as (E & HE & _).
    apply for_of_notifyPriorityChange in Hf as (_ & _ & _ & _ & _ & Hfw).
    destruct (Hfw e E HE) as [b Hb]. exists E. split; [done|].
    rewrite Hb in HE'. by injection HE' as <-.
  - unfold addEntityListener. unfold_monad.
    destruct (engine_objs w !! e0) as [E0|] eqn:HE0; [|intros [= <-]; eauto].
    destruct (indexOf listener (_entityListeners E0)); intros [= <-]; eauto.
    simpl. rewrite lookup_insert. case_decide; [|eauto].
    subst. intros [= <-]. eauto.
  - unfold removeEntityListener. unfold_monad.
    destruct (engine_objs w !! e0) as [E0|] eqn:HE0; [|intros [= <-]; eauto].
    destruct (indexOf listener (_entityListeners E0)); intros [= <-]; eauto.
    simpl. rewrite lookup_insert. case_decide; [|eauto].
    subst. intros [= <-]. eauto.
  - unfold addBlueprint. unfold_monad.
    repeat case_match; simplify_eq/=; intros [= <-]; eauto.
  - unfold start, new_EntityFactory. unfold_monad.
    destruct (engine_objs w !! e0) as [E0|] eqn:HE0; [|intros [= <-]; eauto].
    destruct (blueprint_arrays w !! _blueprints E0); [|intros [= <-]; eauto].
    intros [= <-]. simpl. rewrite lookup_insert_ne by congruence. eauto.
  - unfold entities. unfold_monad.
    repeat case_match; simplify_eq/=; intros [= <-]; eauto.
  - unfold write_entity_array. repeat case_match; intros [= <-]; eauto.
Qed.

Lemma exec_keeps_engines c w w' e :
  is_Some (engine_objs w !! e) → final (exec silent 0 c w) = Some w' →
  is_Some (engine_objs w' !! e).
Proof.
  intros [E HE] Hf. destruct (exec_systems e c w E w' HE Hf) as (_ & E' & HE' & _).
  by eexists.
Qed.

Lemma entities_of_eq w e E a :
  engine_objs w !! e = Some E → entity_arrays w !! _entities E = Some a →
  entities_of w e = elems a.
Proof. intros HE Ha. unfold entities_of. by rewrite HE, Ha. Qed.

(** ** Calls that return *)

(** After [addSystem] the engine has the system, and the system the
    engine. *)
Lemma addSystem_attaches e s w w' :
  reachable w → addSystem e s w = Ok tt w' →
  ∃ E', engine_objs w' !! e = Some E' ∧ s ∈ _systems E' ∧
        e ∈ _engines (system_of w' s).
Proof.
  intros Hreach Hadd.
  assert (systems_consistent w') as [Hengines _].
  { apply (addSystem_keeps_consistent e s w); [by apply reachable_consistent|].
    by rewrite Hadd. }
  assert (∃ E', engine_objs w' !! e = Some E' ∧ s ∈ _systems E') as (E' & HE' & Hs).
  { rewrite addSystem_eq in Hadd.
    destruct (engine_objs w !! e) as [E|] eqn:HE; [|done].
    destruct (indexOf s (_systems E)) as [i|] eqn:Hidx.
    - injection Hadd as <-. exists E. split; [done|].
      apply indexOf_Some in Hidx as [Hi _]. by eapply list_elem_of_lookup_2.
    - injection Hadd as <-. eexists. split.
      + simpl. apply lookup_insert_eq.
      + simpl. apply elem_of_app. right. by apply list_elem_of_singleton. }
  exists E'. repeat split; [done..|]. by apply (Hengines e E' HE').
Qed.

(** A write to the priority of a system whose engines all exist. *)
Lemma set_priority_notifies s value w :
  (∀ e, e ∈ _engines (system_of w s) → is_Some (engine_objs w !! e)) →
  ∃ w', set_priority s value w = Ok tt w' ∧
    priority w' s = value ∧
    _engines (system_of w' s) = _engines (system_of w s) ∧
    invocations w' = invocations w ∧
    (∀ e E, engine_objs w !! e = Some E →
       ∃ E', engine_objs w' !! e = Some E' ∧ _systems E' = _systems E ∧
         _systemsNeedSorting E' =
           (if bool_decide (e ∈ _engines (system_of w s)) then true
            else _systemsNeedSorting E)) ∧
    (∀ e E, e ∈ _engines (system_of w s) → engine_objs w !! e = Some E →
       ∃ w'' E'', sort_step e w' = Ok tt w'' ∧
         engine_objs w'' !! e = Some E'' ∧
         _systems E'' = Array_sort (by_priority w') (_systems E) ∧
         _systemsNeedSorting E'' = false ∧
         invocations w'' = invocations w' ∧
         ∀ handlers behaviour fuel delta,
           update handlers behaviour fuel e delta w'
           = run_systems handlers behaviour fuel fuel e delta 0 w'').
Proof.
  intros Hes. unfold set_priority. unfold_monad.
  set (w0 := set_system_objs _ w).
  destruct (for_of_notifyPriorityChange_Ok (_engines (system_of w s)) s w0 Hes)
    as (w' & Hrun & _ & _ & Hsys & _ & Hinv & Hlook).
  exists w'. split; [done|].
  assert (system_of w' s = mkSystem value (_engines (system_of w s))) as Hs.
  { unfold system_of. rewrite Hsys. simpl. by rewrite lookup_insert_eq. }
  split; [unfold priority; by rewrite Hs|]. split; [by rewrite Hs|].
  split; [done|].
  assert (∀ e E, engine_objs w !! e = Some E →
     ∃ E', engine_objs w' !! e = Some E' ∧ _systems E' = _systems E ∧
       _systemsNeedSorting E' =
         (if bool_decide (e ∈ _engines (system_of w s)) then true
          else _systemsNeedSorting E)) as Hengines.
  { intros e E HE. rewrite Hlook. simpl. rewrite HE. simpl.
    eexists. split; [done|]. by case_bool_decide. }
  split; [done|]. intros e E He HE.
  destruct (Hengines e E HE) as (E' & HE' & Hss & Hflag).
  rewrite bool_decide_eq_true_2 in Hflag by done.
  destruct (sort_step_spec e w' E' HE') as (w'' & E'' & Hstep & HE'' & Hs'' & Hf'' & Hi'' & _).
  rewrite Hflag, Hss in Hs''.
  exists w'', E''. repeat split; try done.
  intros handlers behaviour fuel delta. unfold update. by rewrite bind_eq, Hstep.
Qed.

Lemma addBlueprint_spec e b w E arr :
  engine_objs w !! e = Some E →
  blueprint_arrays w !! _blueprints E = Some arr → frozen arr = false →
  ∃ w' arr',
    addBlueprint e b w = Ok tt w' ∧ engine_objs w' = engine_objs w ∧
    blueprint_arrays w' !! _blueprints E = Some arr' ∧ frozen arr' = false ∧
    elems arr `prefix_of` elems arr' ∧
    bp_ref b ∈ bp_ref <$> elems arr'.
Proof.
  intros HE Harr Hfr. unfold addBlueprint. unfold_monad. rewrite HE, Harr.
  destruct (indexOf (bp_ref b) (bp_ref <$> elems arr)) as [i|] eqn:Hidx.
  - exists w, arr. repeat split; try done.
    apply indexOf_Some in Hidx as [Hi _]. by eapply list_elem_of_lookup_2.
  - rewrite Harr, Hfr. eexists _, _. split; [done|]. simpl.
    rewrite lookup_insert_eq. repeat split; try done.
    + by apply prefix_app_r.
    + simpl. rewrite fmap_app. set_solver.
Qed.

Lemma exec_returns_if_live c w :
  systems_consistent w → arrays_live w → well_targeted w c →
  ∃ w', exec silent 0 c w = Ok tt w'.
Proof.
  intros [_ Hexist] Hlive [Hpush Htarget].
  assert (∀ e, target c = Some e →
            ∃ E a b, engine_objs w !! e = Some E ∧
              entity_arrays w !! _entities E = Some a ∧ frozen a = false ∧
              blueprint_arrays w !! _blueprints E = Some b ∧ frozen b = false)
    as Hengine.
  { intros e [E HE]%Htarget.
    destruct (Hlive e E HE) as [(a & Ha & Hfa) (b & Hb & Hfb)].
    by exists E, a, b. }
  destruct c; simpl;
    try (destruct (Hengine e eq_refl) as (E & a & b & HE & Ha & Hfa & Hb & Hfb)).
  - rewrite addEntity_eq, HE, Ha, Hfa. destruct (indexOf _ _); eauto.
  - rewrite removeEntity_eq, HE, Ha, Hfa. destruct (indexOf _ _); eauto.
  - rewrite addSystem_eq, HE. destruct (indexOf _ _); eauto.
  - rewrite removeSystem_eq, HE. destruct (indexOf _ _); eauto.
  - destruct (set_priority_notifies system value w) as (w' & Hrun & _); [|eauto].
    apply Hexist.
  - unfold addEntityListener. unfold_monad. rewrite HE.
    destruct (indexOf _ _); eauto.
  - unfold removeEntityListener. unfold_monad. rewrite HE.
    destruct (indexOf _ _); eauto.
  - destruct (addBlueprint_spec e blueprint w E b HE Hb Hfb) as (w' & _ & Hrun & _).
    eauto.
  - unfold start, new_EntityFactory. unfold_monad. rewrite HE, Hb. eauto.
  - unfold entities. unfold_monad. rewrite HE, Ha. eauto.
  - by destruct (Hpush l entity).
Qed.

(** ** Listeners that make mild calls *)

Lemma exec_plain_notifications c w w' :
  calls_listeners c = false → final (exec silent 0 c w) = Some w' →
  notifications w' = notifications w.
Proof.
  destruct c; try done; simpl; intros _.
  - rewrite addSystem_eq. repeat case_match; intros [= <-]; try done.
    simpl. unfold attached. by case_match.
  - rewrite removeSystem_eq. repeat case_match; intros [= <-]; try done.
    unfold detached. by case_match.
  - unfold set_priority. unfold_monad.
    by intros (_ & _ & _ & -> & _)%for_of_notifyPriorityChange.
  - unfold addEntityListener. unfold_monad.
    repeat case_match; simplify_eq/=; by intros [= <-].
  - unfold removeEntityListener. unfold_monad.
    repeat case_match; simplify_eq/=; by intros [= <-].
  - unfold addBlueprint. unfold_monad.
    repeat case_match; simplify_eq/=; by intros [= <-].
  - unfold start, new_EntityFactory. unfold_monad.
    repeat case_match; simplify_eq/=; by intros [= <-].
  - unfold entities. unfold_monad.
    repeat case_match; simplify_eq/=; by intros [= <-].
  - unfold write_entity_array. repeat case_match; by intros [= <-].
Qed.

Lemma exec_plain_entity_arrays c w w' l a :
  calls_listeners c = false → (∀ l x, c ≠ ArrayPush l x) →
  final (exec silent 0 c w) = Some w' →
  entity_arrays w !! l = Some a → entity_arrays w' !! l = Some a.
Proof.
  destruct c; try done; simpl; intros _ Hpush.
  - rewrite addSystem_eq. repeat case_match; intros [= <-]; try done.
    simpl. unfold attached. by case_match.
  - rewrite removeSystem_eq. repeat case_match; intros [= <-]; try done.
    unfold detached. by case_match.
  - unfold set_priority. unfold_monad.
    by intros (-> & _)%for_of_notifyPriorityChange.
  - unfold addEntityListener. unfold_monad.
    repeat case_match; simplify_eq/=; by intros [= <-].
  - unfold removeEntityListener. unfold_monad.
    repeat case_match; simplify_eq/=; by intros [= <-].
  - unfold addBlueprint. unfold_monad.
    repeat case_match; simplify_eq/=; by intros [= <-].
  - unfold start, new_EntityFactory. unfold_monad.
    repeat case_match; simplify_eq/=; by intros [= <-].
  - unfold entities. unfold_monad.
    repeat case_match; simplify_eq/=; intros [= <-]; try done.
    intros Hl. simpl. rewrite lookup_insert_ne; [done|]. by eapply fresh_loc_ne.
  - by destruct (Hpush l0 entity).
Qed.

Lemma undisturbed_refl e w : undisturbed e w w.
Proof. split; [done|]. intros E HE. split; [done|]. by exists E. Qed.

Lemma undisturbed_trans e w1 w2 w3 :
  undisturbed e w1 w2 → undisturbed e w2 w3 → undisturbed e w1 w3.
Proof.
  intros [Heng12 He12] [Heng23 He23]. split; [by auto|].
  intros E HE. destruct (He12 E HE) as (Harr2 & E2 & HE2 & Hl2 & Hf2).
  destruct (He23 E2 HE2) as (Harr3 & E3 & HE3 & Hl3 & Hf3).
  split; [by rewrite <- Harr2, <- Hf2|]. exists E3. split; [done|]. split; congruence.
Qed.

Lemma exec_mild e c w w0 :
  systems_consistent w → arrays_live w →
  (∀ e', is_Some (engine_objs w0 !! e') → is_Some (engine_objs w !! e')) →
  mild e w0 c →
  ∃ w', exec silent 0 c w = Ok tt w' ∧ systems_consistent w' ∧ arrays_live w' ∧
        notifications w' = notifications w ∧ undisturbed e w w'.
Proof.
  intros Hcons Hlive Hmono (Hplain & [Hpush Htarget] & Hstart & Hadd & Hrem).
  destruct (exec_returns_if_live c w Hcons Hlive) as [w' Hrun].
  { split; [done|]. intros e' He'. by apply Hmono, Htarget. }
  assert (final (exec silent 0 c w) = Some w') as Hf by by rewrite Hrun.
  exists w'. split; [done|].
  split; [by apply (exec_silent_keeps_consistent c w)|].
  split; [by apply (exec_silent_keeps_arrays_live c w)|].
  split; [by apply (exec_plain_notifications c w)|].
  split; [intros e' He'; by apply (exec_keeps_engines c w)|].
  intros E HE. destruct (Hlive e E HE) as [(a & Ha & _) _].
  split; [rewrite Ha; by apply (exec_plain_entity_arrays c w)|].
  destruct (exec_keeps_engines c w w' e) as [E' HE']; [by eexists|done|].
  exists E'. split; [done|].
  destruct (exec_listeners e c w w' E' Hf HE') as (E0 & HE0 & Hls).
  destruct (exec_fields c w w' Hf e E' HE') as (E1 & HE1 & Hfields).
  assert (_entities E' = _entities E1) as Hent
    by (unfold array_fields in Hfields; by injection Hfields).
  rewrite HE in HE0, HE1. injection HE0 as <-. injection HE1 as <-.
  split; [|done].
  rewrite Hls. destruct c; simpl; try done.
  - case_decide; [subst|done]. by destruct (Hadd listener).
  - case_decide; [subst|done]. by destruct (Hrem listener).
Qed.

Lemma run_script_mild handlers fuel e w0 cs : ∀ w,
  systems_consistent w → arrays_live w →
  (∀ e', is_Some (engine_objs w0 !! e') → is_Some (engine_objs w !! e')) →
  Forall (mild e w0) cs →
  ∃ w', run_script handlers fuel cs w = Ok tt w' ∧
        systems_consistent w' ∧ arrays_live w' ∧
        notifications w' = notifications w ∧ undisturbed e w w'.
Proof.
  induction cs as [|c cs IH]; intros w Hcons Hlive Hmono Hcs.
  - exists w. do 4 (split; [done|]). apply undisturbed_refl.
  - apply Forall_cons in Hcs as [Hc Hcs].
    destruct (exec_mild e c w w0 Hcons Hlive Hmono Hc)
      as (w1 & Hrun1 & Hcons1 & Hlive1 & Hnote1 & Hund1).
    destruct (IH w1) as (w2 & Hrun2 & Hcons2 & Hlive2 & Hnote2 & Hund2); [done..| |done|].
    { intros e' He'. by apply Hund1, Hmono. }
    exists w2. unfold run_script in *. rewrite for_of_cons.
    destruct Hc as [Hplain _]. rewrite exec_plain, Hrun1 by done.
    do 3 (split; [done|]). split; [congruence|by eapply undisturbed_trans].
Qed.

Lemma call_listener_mild handlers fuel e n w :
  mild_listeners handlers e → systems_consistent w → arrays_live w →
  ∃ w', call_listener handlers (exec handlers fuel) n w = Ok tt w' ∧
        systems_consistent w' ∧ arrays_live w' ∧
        notifications w' = notifications w ++ [n] ∧ undisturbed e w w'.
Proof.
  intros Hmild Hcons Hlive. unfold call_listener, notify. unfold_monad.
  set (w1 := set_notifications (λ t, t ++ [n]) w).
  change (for_of (handlers n w1) (exec handlers fuel))
    with (run_script handlers fuel (handlers n w1)).
  destruct (run_script_mild handlers fuel e w1 (handlers n w1) w1)
    as (w' & Hrun & Hcons' & Hlive' & Hnote' & Hund'); [done..|].
  exists w'. by do 4 (split; [done|]).
Qed.

Lemma for_listeners_mild handlers depth e call :
  mild_listeners handlers e →
  ∀ fuel i w E,
    systems_consistent w → arrays_live w → engine_objs w !! e = Some E →
    (length (_entityListeners E) - i ≤ fuel)%nat →
    ∃ w', for_listeners handlers (exec handlers depth) fuel e call i w = Ok tt w' ∧
          systems_consistent w' ∧ arrays_live w' ∧
          notifications w' = notifications w ++ (call <$> drop i (_entityListeners E)) ∧
          undisturbed e w w'.
Proof.
  intros Hmild. induction fuel as [|fuel IH]; intros i w E Hcons Hlive HE Hfuel;
    rewrite for_listeners_unfold, HE.
  - rewrite lookup_ge_None_2 by lia. rewrite drop_ge by lia.
    exists w. rewrite app_nil_r. do 4 (split; [done|]). apply undisturbed_refl.
  - destruct (_entityListeners E !! i) as [l|] eqn:Hi.
    + destruct (call_listener_mild handlers depth e (call l) w Hmild Hcons Hlive)
        as (w1 & -> & Hcons1 & Hlive1 & Hnote1 & Hund1).
      destruct (proj2 Hund1 E HE) as (Harr1 & E1 & HE1 & Hl1 & Hf1).
      destruct (IH (S i) w1 E1 Hcons1 Hlive1 HE1) as (w2 & Hrun2 & Hcons2 & Hlive2 & Hnote2 & Hund2).
      { rewrite Hl1. lia. }
      exists w2. do 3 (split; [done|]). split.
      * rewrite Hnote2, Hnote1, Hl1, (drop_S _ _ _ Hi), <- app_assoc. done.
      * by apply (undisturbed_trans e w w1 w2).
    + apply lookup_ge_None in Hi. rewrite drop_ge by lia.
      exists w. rewrite app_nil_r. do 4 (split; [done|]). apply undisturbed_refl.
Qed.

(** [addEntity] with an entity the engine does not hold, and listeners that
    make mild calls. *)
Lemma addEntity_new handlers fuel e entity w E :
  mild_listeners handlers e → systems_consistent w → arrays_live w →
  engine_objs w !! e = Some E → entity ∉ entities_of w e →
  ∃ w', exec handlers (S fuel) (AddEntity e entity) w = Ok tt w' ∧
        systems_consistent w' ∧ arrays_live w' ∧
        entities_of w' e = entities_of w e ++ [entity] ∧
        notifications w' =
          notifications w ++ ((λ l, onEntityAdded l entity) <$> _entityListeners E) ∧
        (∀ e', is_Some (engine_objs w !! e') → is_Some (engine_objs w' !! e')) ∧
        ∃ E', engine_objs w' !! e = Some E' ∧
              _entityListeners E' = _entityListeners E ∧ _entities E' = _entities E.
Proof.
  intros Hmild Hcons Hlive HE Hnew.
  destruct (Hlive e E HE) as [(a & Ha & Hfr) _].
  rewrite (entities_of_eq w e E a HE Ha) in *.
  rewrite exec_unfold. simpl. rewrite addEntity_unfold, HE, Ha, Hfr.
  apply indexOf_None in Hnew as ->.
  set (w1 := set_entity_arrays _ w).
  assert (arrays_live w1) as Hlive1.
  { apply (arrays_live_ext w); [eauto|by apply stays_live_write|apply stays_live_refl|done]. }
  destruct (for_listeners_mild handlers fuel e (λ l, onEntityAdded l entity) Hmild
              (length (_entityListeners E) + S fuel) 0 w1 E)
    as (w' & Hrun & Hcons' & Hlive' & Hnote' & Heng' & He'); [done..|lia|].
  destruct (He' E HE) as (Harr' & E' & HE' & Hl' & Hf').
  exists w'. rewrite drop_0 in Hnote'. do 3 (split; [done|]).
  split; [|by eauto 10].
  assert (entity_arrays w' !! _entities E' = Some (mkArray (elems a ++ [entity]) false))
    as Ha'.
  { rewrite Hf', Harr'. simpl. by rewrite lookup_insert_eq. }
  by rewrite (entities_of_eq w' e E' _ HE' Ha').
Qed.

(** [addEntity] with an entity the engine holds, with any listeners. *)
Lemma addEntity_held handlers fuel e entity w :
  entity ∈ entities_of w e →
  exec handlers fuel (AddEntity e entity) w = Ok tt w.
Proof.
  intros Hheld. rewrite exec_unfold. simpl. rewrite addEntity_unfold.
  unfold entities_of in Hheld.
  destruct (engine_objs w !! e) as [E|]; [|by apply elem_of_nil in Hheld].
  destruct (entity_arrays w !! _entities E) as [a|]; [|by apply elem_of_nil in Hheld].
  simpl in Hheld. destruct (indexOf entity (elems a)) eqn:Hidx; [done|].
  by apply indexOf_None in Hidx.
Qed.

Lemma indexOf_middle `{EqDecision A} (x : A) l1 l2 :
  x ∉ l1 → indexOf x (l1 ++ x :: l2) = Some (length l1).
Proof.
  induction l1 as [|y l1 IH]; simpl; intros Hx.
  - by rewrite decide_True.
  - apply not_elem_of_cons in Hx as [Hxy Hx].
    rewrite decide_False by congruence. by rewrite IH.
Qed.

Lemma delete_middle {A} (l1 l2 : list A) x :
  delete (length l1) (l1 ++ x :: l2) = l1 ++ l2.
Proof. induction l1 as [|y l1 IH]; simpl; [done|]. by rewrite IH. Qed.

(** [removeEntity] with an entity the engine holds, and listeners that make
    mild calls. *)
Lemma removeEntity_old handlers fuel e entity w E l1 l2 :
  mild_listeners handlers e → systems_consistent w → arrays_live w →
  engine_objs w !! e = Some E →
  entities_of w e = l1 ++ entity :: l2 → entity ∉ l1 →
  ∃ w', exec handlers (S fuel) (RemoveEntity e entity) w = Ok tt w' ∧
        systems_consistent w' ∧ arrays_live w' ∧
        entities_of w' e = l1 ++ l2 ∧
        notifications w' =
          notifications w ++ ((λ l, onEntityRemoved l entity) <$> _entityListeners E) ∧
        (∀ e', is_Some (engine_objs w !! e') → is_Some (engine_objs w' !! e')) ∧
        ∃ E', engine_objs w' !! e = Some E' ∧
              _entityListeners E' = _entityListeners E ∧ _entities E' = _entities E.
Proof.
  intros Hmild Hcons Hlive HE Hents Hfirst.
  destruct (Hlive e E HE) as [(a & Ha & Hfr) _].
  rewrite (entities_of_eq w e E a HE Ha) in *.
  rewrite exec_unfold. simpl. rewrite removeEntity_unfold, HE, Ha, Hfr, Hents.
  rewrite indexOf_middle by done. rewrite delete_middle.
  set (w1 := set_entity_arrays _ w).
  assert (arrays_live w1) as Hlive1.
  { apply (arrays_live_ext w); [eauto|by apply stays_live_write|apply stays_live_refl|done]. }
  destruct (for_listeners_mild handlers fuel e (λ l, onEntityRemoved l entity) Hmild
              (length (_entityListeners E) + S fuel) 0 w1 E)
    as (w' & Hrun & Hcons' & Hlive' & Hnote' & Heng' & He'); [done..|lia|].
  destruct (He' E HE) as (Harr' & E' & HE' & Hl' & Hf').
  exists w'. rewrite drop_0 in Hnote'. do 3 (split; [done|]).
  split; [|by eauto 10].
  assert (entity_arrays w' !! _entities E' = Some (mkArray (l1 ++ l2) false)) as Ha'.
  { rewrite Hf', Harr'. simpl. by rewrite lookup_insert_eq. }
  by rewrite (entities_of_eq w' e E' _ HE' Ha').
Qed.

(** [removeEntity] with an entity that the entity array does not hold, with
    any listeners. *)
Lemma removeEntity_absent_live handlers fuel e entity w E a :
  engine_objs w !! e = Some E →
  entity_arrays w !! _entities E = Some a →
  entity ∉ elems a →
  exec handlers fuel (RemoveEntity e entity) w = Ok tt w.
Proof.
  intros HE Ha Habsent. rewrite exec_unfold. simpl.
  rewrite removeEntity_unfold, HE, Ha.
  by apply indexOf_None in Habsent as ->.
Qed.

Lemma quiet_mild handlers e : quiet handlers → mild_listeners handlers e.
Proof. intros Hq n w. rewrite Hq. constructor. Qed.

(** ** Priority order of a tick *)

Lemma systems_after_untouched e c ss :
  touches_systems e c = false → systems_after e c ss = ss.
Proof.
  destruct c; simpl; try done; intros Hb%bool_decide_eq_false; by case_decide.
Qed.

(** The order of a tick from a state whose system list is in priority
    order when the flag is down. *)
Lemma update_order_if_sorted handlers behaviour e delta fuel w E :
  engine_objs w !! e = Some E →
  (_systemsNeedSorting E = false → in_priority_order w (_systems E)) →
  keeps_systems behaviour e →
  leaves_systems handlers e →
  (length (_systems E) < fuel)%nat →
  let order := Array_sort (by_priority w) (_systems E) in
  order ≡ₚ _systems E ∧ in_priority_order w order ∧
  (∀ p, filter (λ s, priority w s = p) order
        = filter (λ s, priority w s = p) (_systems E)) ∧
  (∀ i j s1 s2, order !! i = Some s1 → order !! j = Some s2 →
     priority w s1 < priority w s2 → (i < j)%nat) ∧
  (∃ w1 E1, sort_step e w = Ok tt w1 ∧ engine_objs w1 !! e = Some E1 ∧
     _systems E1 = order ∧ _systemsNeedSorting E1 = false ∧
     invocations w1 = invocations w) ∧
  match update handlers behaviour fuel e delta w with
  | Ok _ w' => invocations w' = invocations w ++ (invoke e delta <$> order)
  | Throw _ w' =>
      ∃ k, invocations w' = invocations w ++ (invoke e delta <$> take k order)
  | OutOfFuel => ¬ quiet handlers
  end.
Proof.
  intros HE Hsorted Hkeeps Hleaves Hfuel order.
  assert (in_priority_order w order) as Horder by apply (Array_sort_sorted (priority w)).
  assert (order ≡ₚ _systems E) as Hperm by apply (Array_sort_perm (priority w)).
  split; [done|]. split; [done|].
  split; [intros p; apply (Array_sort_stable (priority w))|].
  split; [intros i j s1 s2; by apply (sorted_lookup_lt (priority w))|].
  destruct (sort_step_spec e w E HE) as (w1 & E1 & Hstep & HE1 & Hs1 & Hflag1 & Hinv1 & _).
  assert (_systems E1 = order) as Hs1'.
  { rewrite Hs1. destruct (_systemsNeedSorting E); [done|].
    symmetry. by apply (Array_sort_id (priority w)), Hsorted. }
  split; [by eauto 10|].
  unfold update. rewrite bind_eq, Hstep.
  assert (∀ s w0, Forall (cmd_ok e (λ ss, ss = order)) (behaviour s e delta w0))
    as Hok.
  { intros s w0. eapply Forall_impl; [apply Hkeeps|].
    intros c Hc ss ->. by rewrite systems_after_untouched. }
  assert (∀ n w0, Forall (cmd_ok e (λ ss, ss = order)) (handlers n w0)) as Hok'.
  { intros n w0. eapply Forall_impl; [apply Hleaves|].
    intros c Hc ss ->. by rewrite systems_after_untouched. }
  assert (length order = length (_systems E)) as Hlen by by rewrite Hperm.
  pose proof (run_systems_ok handlers behaviour e delta _ Hok Hok' (length order)
                ltac:(by intros ss ->) fuel fuel 0%nat w1 E1 HE1 Hs1' ltac:(lia)) as Hrun.
  destruct (run_systems handlers behaviour fuel fuel e delta 0 w1) as [[] w2|err w2|];
    [| |done].
  - destruct Hrun as (E2 & _ & -> & _ & ->). by rewrite Hinv1.
  - destruct Hrun as (E2 & k & _ & -> & _ & ->). exists k. by rewrite Hinv1.
Qed.

(** C1, amended.  In every state the program reaches, and in a tick during
    which no callback and no listener adds a system to the engine or removes
    one from it: [update] first replaces the system list by its stable
    ascending sort by priority and takes the flag down, without an
    invocation; it then invokes the systems in exactly that order, up to the
    first callback that throws; in that order a system of smaller priority
    comes at a smaller position.  The fuel is not used up, unless by
    listeners that make calls. *)
Theorem update_priority_order handlers behaviour e delta fuel w E :
  reachable w →
  engine_objs w !! e = Some E →
  keeps_systems behaviour e →
  leaves_systems handlers e →
  (length (_systems E) < fuel)%nat →
  let order := Array_sort (by_priority w) (_systems E) in
  order ≡ₚ _systems E ∧ in_priority_order w order ∧
  (∀ p, filter (λ s, priority w s = p) order
        = filter (λ s, priority w s = p) (_systems E)) ∧
  (∀ i j s1 s2, order !! i = Some s1 → order !! j = Some s2 →
     priority w s1 < priority w s2 → (i < j)%nat) ∧
  (∃ w1 E1, sort_step e w = Ok tt w1 ∧ engine_objs w1 !! e = Some E1 ∧
     _systems E1 = order ∧ _systemsNeedSorting E1 = false ∧
     invocations w1 = invocations w) ∧
  match update handlers behaviour fuel e delta w with
  | Ok _ w' => invocations w' = invocations w ++ (invoke e delta <$> order)
  | Throw _ w' =>
      ∃ k, invocations w' = invocations w ++ (invoke e delta <$> take k order)
  | OutOfFuel => ¬ quiet handlers
  end.
Proof.
  intros Hreach HE. apply update_order_if_sorted; [done|].
  destruct (reachable_consistent w Hreach) as [Hengines _].
  by apply (Hengines e E HE).
Qed.

(** ** A system added during the tick *)


(** ** Scenarios *)

Lemma four_systems_reachable : reachable four_systems.
Proof.
  replace four_systems with
    (run_host [Construct [] None;
               Call silent 0 (AddSystem 0 10); Call silent 0 (AddSystem 0 11);
               Call silent 0 (AddSystem 0 12); Call silent 0 (AddSystem 0 13);
               Call silent 0 (SetPriority 11 1); Call silent 0 (SetPriority 12 2);
               Call silent 0 (SetPriority 13 3)]%nat empty_world)
    by (vm_compute; reflexivity).
  apply reachable_run_host, reachable_empty.
Qed.

Lemma two_listeners_reachable : reachable two_listeners.
Proof.
  replace two_listeners with
    (run_host [Call silent 0 (AddEntityListener 0 30); Call silent 0 (AddEntityListener 0 31);
               Call silent 0 (AddEntity 0 4)]%nat four_systems)
    by (vm_compute; reflexivity).
  apply reachable_run_host, four_systems_reachable.
Qed.

Lemma late_world_reachable : reachable late_world.
Proof.
  replace late_world with
    (run_host [Construct [X] None; Call silent 0 (AddBlueprint 0 blueprint_A)] empty_world)
    by (vm_compute; reflexivity).
  apply reachable_run_host, reachable_empty.
Qed.

Lemma update_priority_order_witness :
  match update silent calm 5 0%nat 0 four_systems with
  | Ok _ w' =>
      invocations w' = invocations four_systems
        ++ (invoke 0%nat 0 <$> Array_sort (by_priority four_systems) [10; 11; 12; 13]%nat)
  | Throw _ w' =>
      ∃ k, invocations w' = invocations four_systems
        ++ (invoke 0%nat 0 <$> take k (Array_sort (by_priority four_systems) [10; 11; 12; 13]%nat))
  | OutOfFuel => ¬ quiet silent
  end.
Proof.
  apply (update_priority_order silent calm 0%nat 0 5 four_systems four_systems_engine).
  - exact four_systems_reachable.
  - vm_compute. reflexivity.
  - intros s delta w. repeat constructor.
  - intros n w. constructor.
  - simpl. lia.
Defined.

(** C1 as stated fails: systems 12 and 13 are attached with priorities 2
    and 3 at the start of the tick, and the tick invokes 13 before 12. *)
Lemma update_priority_order_counterexample :
  reachable four_systems ∧
  engine_objs four_systems !! 0%nat = Some four_systems_engine ∧
  priority four_systems 12%nat = 2 ∧ priority four_systems 13%nat = 3 ∧
  _engines (system_of four_systems 12%nat) = [0%nat] ∧
  _engines (system_of four_systems 13%nat) = [0%nat] ∧
  invoked (update silent reorder 9 0%nat 0 four_systems) = Some [10; 11; 13; 12]%nat.
Proof.
  split; [exact four_systems_reachable|]. repeat split; vm_compute; reflexivity.
Qed.



Example update_spawn_two_invoked :
  invoked (update silent spawn_two 7 0%nat 0 four_systems)
  = Some [10; 11; 12; 13; 20; 21]%nat.
Proof. vm_compute. reflexivity. Qed.

Example update_spawn_invoked :
  invoked (update silent spawn 6 0%nat 0 four_systems) = Some [10; 11; 12; 13; 20]%nat.
Proof. vm_compute. reflexivity. Qed.

Example update_calm_invoked :
  invoked (update silent calm 5 0%nat 0 four_systems) = Some [10; 11; 12; 13]%nat.
Proof. vm_compute. reflexivity. Qed.

(** ** Priority writes *)

Lemma four_systems_settled_reachable : reachable four_systems_settled.
Proof.
  replace four_systems_settled with
    (run_host [Tick silent idle 5 0%nat 0] four_systems)
    by (vm_compute; reflexivity).
  apply reachable_run_host, four_systems_reachable.
Qed.

(** C7.  In every state the program reaches, a write to the priority of a
    system returns; the system has the new priority, and nothing is invoked.
    The engines in the system's list of engines are exactly the engines that
    have the system in their system list, where [addSystem] put it: each of
    them has its flag up after the write, every other engine has the flag it
    had, and no engine's system list has changed, so nothing is sorted yet.
    For an engine that has the system the next [update] therefore starts by
    sorting by the new priorities, before any invocation, whatever the flag
    was. *)
Theorem set_priority_marks_engines s value w :
  reachable w →
  ∃ w', set_priority s value w = Ok tt w' ∧
    priority w' s = value ∧
    _engines (system_of w' s) = _engines (system_of w s) ∧
    invocations w' = invocations w ∧
    (∀ e E, engine_objs w !! e = Some E →
       (e ∈ _engines (system_of w s) ↔ s ∈ _systems E) ∧
       ∃ E', engine_objs w' !! e = Some E' ∧ _systems E' = _systems E ∧
         _systemsNeedSorting E' =
           (if bool_decide (s ∈ _systems E) then true else _systemsNeedSorting E)) ∧
    (∀ e E, engine_objs w !! e = Some E → s ∈ _systems E →
       ∃ w'' E'', sort_step e w' = Ok tt w'' ∧
         engine_objs w'' !! e = Some E'' ∧
         _systems E'' = Array_sort (by_priority w') (_systems E) ∧
         _systemsNeedSorting E'' = false ∧
         invocations w'' = invocations w' ∧
         ∀ handlers behaviour fuel delta,
           update handlers behaviour fuel e delta w'
           = run_systems handlers behaviour fuel fuel e delta 0 w'').
Proof.
  intros Hreach.
  destruct (reachable_consistent w Hreach) as [Hengines Hexist].
  pose proof (reachable_attachment w Hreach s) as [_ Hback].
  assert (∀ e E, engine_objs w !! e = Some E →
            (e ∈ _engines (system_of w s) ↔ s ∈ _systems E)) as Hiff.
  { intros e E HE. split.
    - intros (E' & HE' & Hs)%Hback. by simplify_eq.
    - by apply (Hengines e E HE). }
  destruct (set_priority_notifies s value w) as (w' & Hrun & Hprio & Heng & Hinv & Hflags & Hnext).
  { intros e He. by apply (Hexist s). }
  exists w'. do 4 (split; [done|]). split.
  - intros e E HE. split; [by apply Hiff|].
    destruct (Hflags e E HE) as (E' & HE' & Hss & Hflag).
    exists E'. do 2 (split; [done|]).
    by rewrite Hflag, (bool_decide_ext _ _ (Hiff e E HE)).
  - intros e E HE Hs. apply Hnext; [|done]. by apply (Hiff e E HE).
Qed.

Lemma set_priority_marks_engines_witness :
  scheduling <$> engine_objs four_systems_settled !! 0%nat
    = Some ([10; 11; 12; 13]%nat, false) ∧
  ∃ w', set_priority 12%nat (-5) four_systems_settled = Ok tt w' ∧
        priority w' 12%nat = -5 ∧
        invocations w' = invocations four_systems_settled ∧
        scheduling <$> engine_objs w' !! 0%nat = Some ([10; 11; 12; 13]%nat, true) ∧
        invoked (update silent idle 5 0%nat 0 w')
        = Some [10; 11; 12; 13; 12; 10; 11; 13]%nat.
Proof.
  split; [vm_compute; reflexivity|].
  destruct (set_priority_marks_engines 12%nat (-5) four_systems_settled
              four_systems_settled_reachable)
    as (w' & Hrun & Hprio & _ & Hinv & Hflags & _).
  exists w'. do 3 (split; [done|]).
  destruct (Hflags 0%nat four_systems_settled_engine) as (_ & E' & HE' & Hss & Hflag);
    [vm_compute; reflexivity|].
  split.
  - rewrite HE'. simpl. unfold scheduling. rewrite Hss, Hflag. vm_compute. reflexivity.
  - vm_compute in Hrun. injection Hrun as <-. vm_compute. reflexivity.
Defined.

(** ** Entities *)

Lemma filter_eq_new `{EqDecision A} (x : A) l :
  x ∉ l → length (filter (λ y, y = x) (l ++ [x])) = 1%nat.
Proof.
  intros Hnew. rewrite filter_app, length_app.
  rewrite (filter_cons_True _ x []) by done.
  assert (filter (λ y, y = x) l = []) as ->; [|done].
  induction l as [|y l IH]; [done|].
  apply not_elem_of_cons in Hnew as [Hy Hl].
  rewrite filter_cons_False by congruence. by apply IH.
Qed.

(** C6, amended.  In every state the program reaches, for an entity the
    engine does not hold yet, and with listeners whose code calls neither
    [addEntity] nor [removeEntity] nor [start], writes to no array, leaves
    the listener list of the engine alone and calls engines that exist: two
    calls of [addEntity] with the entity both return; the second changes
    nothing; the engine's entities are the old ones with the entity at the
    end, so they hold the entity exactly once; the calls made to listeners
    are, after the old ones, one [onEntityAdded] for each listener, in the
    order of the listener list; and the engine has the listeners it had. *)
Theorem addEntity_twice handlers fuel e entity w E :
  reachable w → engine_objs w !! e = Some E →
  entity ∉ entities_of w e →
  mild_listeners handlers e →
  ∃ w1, exec handlers (S fuel) (AddEntity e entity) w = Ok tt w1 ∧
    exec handlers (S fuel) (AddEntity e entity) w1 = Ok tt w1 ∧
    entities_of w1 e = entities_of w e ++ [entity] ∧
    length (filter (λ x, x = entity) (entities_of w1 e)) = 1%nat ∧
    notifications w1 =
      notifications w ++ ((λ l, onEntityAdded l entity) <$> _entityListeners E) ∧
    ∃ E1, engine_objs w1 !! e = Some E1 ∧ _entityListeners E1 = _entityListeners E.
Proof.
  intros Hreach HE Hnew Hmild.
  destruct (addEntity_new handlers fuel e entity w E Hmild) as
    (w1 & Hrun & _ & _ & Hents & Hnote & _ & E1 & HE1 & Hl1 & _);
    [by apply reachable_consistent|by apply reachable_arrays_live|done..|].
  exists w1. split; [done|]. split.
  { apply addEntity_held. rewrite Hents. set_solver. }
  split; [done|]. split; [rewrite Hents; by apply filter_eq_new|].
  split; [done|]. by exists E1.
Qed.

Lemma addEntity_twice_witness :
  ∃ w1, exec tuning 1 (AddEntity 0%nat 5%nat) two_listeners = Ok tt w1 ∧
        exec tuning 1 (AddEntity 0%nat 5%nat) w1 = Ok tt w1 ∧
        entities_of w1 0%nat = [4; 5]%nat ∧
        notifications w1 =
          notifications two_listeners ++ [onEntityAdded 30 5; onEntityAdded 31 5]%nat ∧
        _systems <$> engine_objs w1 !! 0%nat = Some [10; 11; 12; 13; 30; 31]%nat.
Proof.
  destruct (addEntity_twice tuning 0 0%nat 5%nat two_listeners two_listeners_engine)
    as (w1 & H1 & H2 & H3 & _ & H4 & _).
  - exact two_listeners_reachable.
  - vm_compute. reflexivity.
  - refine (bool_decide_unpack _ _). vm_compute. exact I.
  - intros n w. unfold tuning. destruct n as [l x|l x]; [|constructor].
    apply Forall_cons_2.
    + split; [done|]. split; [split; [discriminate|discriminate]|].
      repeat split; discriminate.
    + case_decide as He; [|constructor]. apply Forall_cons_2; [|constructor].
      split; [done|]. split; [split; [discriminate|by intros e [= <-]]|].
      repeat split; discriminate.
  - exists w1. split; [exact H1|]. split; [exact H2|]. split; [exact H3|].
    split; [exact H4|].
    vm_compute in H1. injection H1 as <-. vm_compute. reflexivity.
Defined.

(** C6 as stated fails: the listeners 30 and 31 are registered, in that
    order; listener 30 unsubscribes when it is told of a new entity; two
    calls of [addEntity] with a new entity return, and listener 31 is never
    told of the entity. *)
Lemma addEntity_twice_counterexample :
  reachable two_listeners ∧
  _entityListeners <$> engine_objs two_listeners !! 0%nat = Some [30; 31]%nat ∧
  (5%nat ∉ entities_of two_listeners 0%nat) ∧
  ∃ w1 w2,
    exec unsubscribing 1 (AddEntity 0%nat 5%nat) two_listeners = Ok tt w1 ∧
    exec unsubscribing 1 (AddEntity 0%nat 5%nat) w1 = Ok tt w2 ∧
    entities_of w2 0%nat = [4; 5]%nat ∧
    notifications w2 = notifications two_listeners ++ [onEntityAdded 30%nat 5%nat].
Proof.
  split; [exact two_listeners_reachable|].
  split; [vm_compute; reflexivity|].
  split; [refine (bool_decide_unpack _ _); vm_compute; exact I|].
  eexists _, _. split; [vm_compute; reflexivity|].
  split; [vm_compute; reflexivity|].
  split; vm_compute; reflexivity.
Qed.

(** C9.  In every state the program reaches, [removeEntity] with an entity
    the engine does not hold returns and leaves the whole state as it was:
    the entities, the systems, the listeners, the blueprints, and the record
    of the calls made to listeners; no listener is called, whatever the
    listeners are. *)
Theorem removeEntity_absent handlers fuel e entity w :
  reachable w → is_Some (engine_objs w !! e) →
  entity ∉ entities_of w e →
  exec handlers fuel (RemoveEntity e entity) w = Ok tt w.
Proof.
  intros Hreach [E HE] Habsent.
  destruct (reachable_arrays_live w Hreach e E HE) as [(a & Ha & Hfr) _].
  rewrite (entities_of_eq w e E a HE Ha) in Habsent.
  by apply (removeEntity_absent_live handlers fuel e entity w E a).
Qed.

Lemma removeEntity_absent_witness :
  exec unsubscribing 1 (RemoveEntity 0%nat 5%nat) two_listeners = Ok tt two_listeners.
Proof.
  apply (removeEntity_absent unsubscribing 1 0%nat 5%nat two_listeners).
  - exact two_listeners_reachable.
  - exists two_listeners_engine. vm_compute. reflexivity.
  - refine (bool_decide_unpack _ _). vm_compute. exact I.
Defined.

(** ** The [entities] snapshot *)

Lemma exec_silent_keeps_frozen l a c : keeps (holds_frozen l a) (exec silent 0 c).
Proof.
  intros w w' [Hl Hfr].
  assert (∀ w1, entity_arrays w1 = entity_arrays w → holds_frozen l a w1) as Hsame.
  { intros w1 Hw1. split; [by rewrite Hw1|done]. }
  assert (∀ l0 f w1, final (write_entity_array l0 f w) = Some w1 →
                     holds_frozen l a w1) as Hwrite.
  { intros l0 f w1. unfold write_entity_array.
    destruct (entity_arrays w !! l0) as [a0|] eqn:Hl0; [|intros [= <-]; by apply Hsame].
    destruct (frozen a0) eqn:Hfr0; intros [= <-]; [by apply Hsame|].
    split; [|done]. simpl. rewrite lookup_insert_ne; [done|].
    intros ->. congruence. }
  destruct c; simpl.
  - rewrite addEntity_eq. repeat case_match; intros [= <-]; try by apply Hsame.
    split; [|done]. simpl. rewrite lookup_insert_ne; [done|]. intros Heq.
    rewrite Heq in *. congruence.
  - rewrite removeEntity_eq. repeat case_match; intros [= <-]; try by apply Hsame.
    split; [|done]. simpl. rewrite lookup_insert_ne; [done|]. intros Heq.
    rewrite Heq in *. congruence.
  - unfold addSystem, onAttach. unfold_monad.
    repeat case_match; simplify_eq/=; intros [= <-]; by apply Hsame.
  - unfold removeSystem, onDetach. unfold_monad.
    repeat case_match; simplify_eq/=; intros [= <-]; by apply Hsame.
  - unfold set_priority. unfold_monad.
    intros (Hents & _)%for_of_notifyPriorityChange. by apply Hsame.
  - unfold addEntityListener. unfold_monad.
    repeat case_match; simplify_eq/=; intros [= <-]; by apply Hsame.
  - unfold removeEntityListener. unfold_monad.
    repeat case_match; simplify_eq/=; intros [= <-]; by apply Hsame.
  - unfold addBlueprint. unfold_monad.
    repeat case_match; simplify_eq/=; intros [= <-]; by apply Hsame.
  - unfold start, new_EntityFactory. unfold_monad.
    repeat case_match; simplify_eq/=; intros [= <-]; by apply Hsame.
  - unfold entities. unfold_monad.
    repeat case_match; simplify_eq/=; intros [= <-]; try by apply Hsame.
    split; [|done]. simpl. rewrite lookup_insert_ne; [done|].
    by eapply fresh_loc_ne.
  - apply Hwrite.
Qed.

Lemma exec_keeps_frozen l a handlers fuel c :
  keeps (holds_frozen l a) (exec handlers fuel c).
Proof. apply exec_keeps_any; [done|apply exec_silent_keeps_frozen]. Qed.

Lemma run_script_keeps_frozen l a handlers fuel cs :
  keeps (holds_frozen l a) (run_script handlers fuel cs).
Proof. apply keeps_for_of. intros c. apply exec_keeps_frozen. Qed.

Lemma update_keeps_frozen l a handlers behaviour fuel e delta :
  keeps (holds_frozen l a) (update handlers behaviour fuel e delta).
Proof.
  apply update_keeps_any; [done| |intros; apply exec_keeps_frozen].
  intros w w' [Hl Hfr]. unfold sort_step. unfold_monad.
  repeat case_match; simplify_eq/=; by intros [= <-].
Qed.

(** The [entities] getter on an engine whose entity array exists. *)
Lemma entities_copy_frozen e w E a :
  engine_objs w !! e = Some E →
  entity_arrays w !! _entities E = Some a →
  ∃ l w0,
    entities e w = Ok l w0 ∧
    entity_arrays w !! l = None ∧
    w0 = set_entity_arrays <[l := mkArray (elems a) true]> w ∧
    holds_frozen l (mkArray (elems a) true) w0 ∧
    (∀ entity, write_entity_array l (λ es, es ++ [entity]) w0 = Throw TypeError w0) ∧
    entity_arrays w0 !! _entities E = Some a.
Proof.
  intros HE Ha.
  set (l := fresh (dom (entity_arrays w))).
  assert (entity_arrays w !! l = None) as Hfresh.
  { apply not_elem_of_dom. apply is_fresh. }
  assert (l ≠ _entities E) as Hne by (intros Heq; congruence).
  exists l, (set_entity_arrays <[l := mkArray (elems a) true]> w).
  split. { unfold entities. unfold_monad. by rewrite HE, Ha. }
  split; [done|]. split; [done|].
  split. { split; [|done]. simpl. by rewrite lookup_insert_eq. }
  split.
  { intros entity. unfold write_entity_array. simpl. by rewrite lookup_insert_eq. }
  simpl. by rewrite lookup_insert_ne.
Qed.

(** C8.  In every state the program reaches, the [entities] getter returns
    a new array object that holds the engine's entities of that moment and
    is frozen.  No later operation changes that object: not a command (a
    write to the object itself is refused with a [TypeError]), not a script
    of commands, not a tick with any callbacks, with any listeners.  In
    particular [addEntity] with a further entity, with listeners that make
    mild calls, returns, the engine then holds the entity, and the array
    returned before does not. *)
Theorem entities_snapshot e w :
  reachable w → is_Some (engine_objs w !! e) →
  ∃ l w0,
    entities e w = Ok l w0 ∧
    entity_arrays w !! l = None ∧
    w0 = set_entity_arrays <[l := mkArray (entities_of w e) true]> w ∧
    holds_frozen l (mkArray (entities_of w e) true) w0 ∧
    (∀ handlers fuel cs,
       keeps (holds_frozen l (mkArray (entities_of w e) true))
             (run_script handlers fuel cs)) ∧
    (∀ handlers behaviour fuel e' delta,
       keeps (holds_frozen l (mkArray (entities_of w e) true))
             (update handlers behaviour fuel e' delta)) ∧
    (∀ entity, write_entity_array l (λ es, es ++ [entity]) w0 = Throw TypeError w0) ∧
    (∀ handlers fuel entity, mild_listeners handlers e → entity ∉ entities_of w e →
       ∃ w', exec handlers (S fuel) (AddEntity e entity) w0 = Ok tt w' ∧
         entity_arrays w' !! l = Some (mkArray (entities_of w e) true) ∧
         entities_of w' e = entities_of w e ++ [entity]).
Proof.
  intros Hreach [E HE].
  destruct (reachable_arrays_live w Hreach e E HE) as [(a & Ha & Hfr) _].
  rewrite (entities_of_eq w e E a HE Ha).
  destruct (entities_copy_frozen e w E a HE Ha)
    as (l & w0 & Hget & Hfresh & Hw0 & Hheld & Hwrite & Ha0).
  exists l, w0. do 4 (split; [done|]).
  split; [intros; apply run_script_keeps_frozen|].
  split; [intros; apply update_keeps_frozen|].
  split; [done|].
  intros handlers fuel entity Hmild Hnew.
  assert (engine_objs w0 !! e = Some E) as HE0 by by rewrite Hw0.
  assert (reachable w0) as Hreach0.
  { apply (reachable_step w (Call silent 0 (GetEntities e))); [done|].
    simpl. unfold_monad. by rewrite Hget. }
  destruct (addEntity_new handlers fuel e entity w0 E Hmild)
    as (w' & Hrun & _ & _ & Hents & _);
    [by apply reachable_consistent|by apply reachable_arrays_live|done| |].
  { by rewrite (entities_of_eq w0 e E a HE0 Ha0). }
  exists w'. split; [done|]. split.
  - apply (exec_keeps_frozen l (mkArray (elems a) true) handlers (S fuel)
             (AddEntity e entity) w0 w'); [done|by rewrite Hrun].
  - by rewrite Hents, (entities_of_eq w0 e E a HE0 Ha0).
Qed.

Lemma entities_snapshot_witness :
  ∃ l w0, entities 0%nat two_listeners = Ok l w0 ∧
    ∃ w', exec tuning 1 (AddEntity 0%nat 5%nat) w0 = Ok tt w' ∧
      elems <$> entity_arrays w' !! l = Some [4%nat] ∧
      entities_of w' 0%nat = [4; 5]%nat.
Proof.
  destruct (entities_snapshot 0%nat two_listeners)
    as (l & w0 & Hget & _ & _ & _ & _ & _ & _ & Hadd).
  - exact two_listeners_reachable.
  - exists two_listeners_engine. vm_compute. reflexivity.
  - exists l, w0. split; [exact Hget|].
    destruct (Hadd tuning 0%nat 5%nat) as (w' & Hw' & Hsnap & Hown).
    + intros n w. unfold tuning. destruct n as [l0 x|l0 x]; [|constructor].
      apply Forall_cons_2.
      * split; [done|]. split; [split; [discriminate|discriminate]|].
        repeat split; discriminate.
      * case_decide as He; [|constructor]. apply Forall_cons_2; [|constructor].
        split; [done|]. split; [split; [discriminate|by intros e [= <-]]|].
        repeat split; discriminate.
    + refine (bool_decide_unpack _ _). vm_compute. exact I.
    + exists w'. split; [exact Hw'|]. split.
      * rewrite Hsnap. vm_compute. reflexivity.
      * rewrite Hown. vm_compute. reflexivity.
Defined.

Example entities_snapshot_run :
  (λ r, match r with
        | Ok l w0 =>
            (l, elems <$> entity_arrays (world_after (update unsubscribing spawn 6 0%nat 0)
                            (world_after (run_script unsubscribing 1
                                            [AddEntity 0 5; ArrayPush l 6;
                                             RemoveEntity 0 4]%nat) w0)) !! l,
             elems <$> entity_arrays (world_after (update unsubscribing spawn 6 0%nat 0)
                            (world_after (run_script unsubscribing 1
                                            [AddEntity 0 5; ArrayPush l 6;
                                             RemoveEntity 0 4]%nat) w0)) !! 0%nat)
        | _ => (0%nat, None, None)
        end) (entities 0%nat two_listeners)
  = (1%nat, Some [4%nat], Some [4; 5]%nat).
Proof. vm_compute. reflexivity. Qed.

(** ** Blueprint resolution *)



Lemma resolve_parents_ok rec ps cs :
  resolve_parents rec ps = Some (inr cs) →
  ∃ css, Forall2 (λ p cs', rec p = Some (inr cs')) ps css ∧ cs = concat css.
Proof.
  revert cs. induction ps as [|p ps IH]; intros cs; simpl.
  - intros [= <-]. by exists [].
  - destruct (rec p) as [[err|cs1]|] eqn:Hp; [done| |done].
    destruct (resolve_parents rec ps) as [[err|cs2]|]; [done| |done].
    intros [= <-]. destruct (IH cs2 eq_refl) as (css & Hcss & ->).
    exists (cs1 :: css). split; [by constructor|done].
Qed.

Lemma resolve_parents_err rec ps err :
  resolve_parents rec ps = Some (inl err) → ∃ p, p ∈ ps ∧ rec p = Some (inl err).
Proof.
  induction ps as [|p ps IH]; simpl; [done|].
  destruct (rec p) as [[err1|cs1]|] eqn:Hp; [| |done].
  - intros [= <-]. exists p. split; [by left|done].
  - destruct (resolve_parents rec ps) as [[err2|cs2]|]; [|done..].
    intros [= <-]. destruct (IH eq_refl) as (q & Hq & Hrec).
    exists q. split; [by right|done].
Qed.

Section Resolution.

Variable bs : list Blueprint.







(** The flat list of a blueprint is the lists of its parents, in the order
    listed, followed by its own. *)
Lemma resolve_ok_own fuel path name cs b :
  resolve fuel bs path name = Some (inr cs) → find_blueprint bs name = Some b →
  ∃ inherited, cs = inherited ++ bp_components b.
Proof.
  destruct fuel as [|fuel]; [done|]. cbn [resolve].
  case_bool_decide; [done|]. intros Hres Hb. rewrite Hb in Hres.
  destruct (resolve_parents _ (parents b)) as [[err|cs1]|]; [done| |done].
  injection Hres as <-. by exists cs1.
Qed.

End Resolution.

(** ** [buildEntity] *)

Lemma buildEntity_eq e type w E :
  engine_objs w !! e = Some E →
  buildEntity e type w =
  match blueprintTypes E with
  | Some bt =>
      if truthy (js_get bt type)
      then call_buildEntity (entityFactory E) (js_get bt type) w
      else Throw (InvalidBlueprintType type) w
  | None => call_buildEntity (entityFactory E) type w
  end.
Proof.
  intros HE. unfold buildEntity. unfold_monad. rewrite HE.
  destruct (blueprintTypes E) as [bt|]; [|done].
  by destruct (truthy (js_get bt type)).
Qed.

(** The factory has two failures of its own, and the missing factory is a
    [TypeError]: none of them is the failure of the validation. *)
Lemma resolve_not_invalid fuel bs : ∀ path name k,
  resolve fuel bs path name ≠ Some (inl (InvalidBlueprintType k)).
Proof.
  induction fuel as [|fuel IH]; intros path name k; [done|]. cbn [resolve].
  case_bool_decide; [done|]. destruct (find_blueprint bs name) as [b|]; [|done].
  destruct (resolve_parents _ (parents b)) as [[err|cs]|] eqn:Hps; [|done..].
  apply resolve_parents_err in Hps as (p & _ & Hp). intros [= ->].
  by apply IH in Hp.
Qed.

Lemma call_buildEntity_not_invalid factory type w k w' :
  call_buildEntity factory type w ≠ Throw (InvalidBlueprintType k) w'.
Proof.
  unfold call_buildEntity, EntityFactory_buildEntity.
  destruct factory as [f|]; [|done]. destruct type; try done.
  destruct (resolve _ _ _ _) as [[err|cs]|] eqn:Hres; [|done..].
  intros [= -> _]. by apply resolve_not_invalid in Hres.
Qed.

Lemma call_buildEntity_pure factory type w :
  match call_buildEntity factory type w with
  | Ok _ w' | Throw _ w' => w' = w
  | OutOfFuel => True
  end.
Proof.
  unfold call_buildEntity. destruct factory as [f|]; [|done].
  by destruct (EntityFactory_buildEntity f type) as [[err|ent]|].
Qed.

(** What the validation of [buildEntity] does.  With a type enumeration,
    [buildEntity] throws the InvalidBlueprintType error, which carries the
    key, when the value the enumeration object has under the key is falsy
    (no such property, [0], the empty string); when that value is truthy it
    is what the factory is called with.  Without an enumeration the factory
    is called with the key itself.  In no other case is an
    InvalidBlueprintType error thrown. *)
Lemma buildEntity_guard e type w E :
  engine_objs w !! e = Some E →
  match blueprintTypes E with
  | Some bt =>
      if truthy (js_get bt type)
      then buildEntity e type w = call_buildEntity (entityFactory E) (js_get bt type) w
      else buildEntity e type w = Throw (InvalidBlueprintType type) w
  | None => buildEntity e type w = call_buildEntity (entityFactory E) type w
  end ∧
  ∀ k w', buildEntity e type w = Throw (InvalidBlueprintType k) w' ↔
    k = type ∧ w' = w ∧
    ∃ bt, blueprintTypes E = Some bt ∧ truthy (js_get bt type) = false.
Proof.
  intros HE. rewrite (buildEntity_eq e type w E HE). split.
  - destruct (blueprintTypes E) as [bt|]; [|done].
    by destruct (truthy (js_get bt type)).
  - intros k w'. destruct (blueprintTypes E) as [bt|].
    + destruct (truthy (js_get bt type)) eqn:Ht.
      * split; [by intros ?%call_buildEntity_not_invalid|].
        intros (_ & _ & bt' & [= <-] & Hf). congruence.
      * split; [intros [= <- <-]; eauto|]. by intros (-> & -> & _).
    + split; [by intros ?%call_buildEntity_not_invalid|].
      by intros (_ & _ & bt' & ? & _).
Qed.

(** *** A scenario with blueprints *)

(** C3.  The guard of [buildEntity] is on the truth value of the entry of
    the enumeration, not on membership.  With the enumeration that
    [enum BlueprintType { A, B }] is at run time, the key ["A"] is a member,
    its entry is [0], and [buildEntity("A")] throws the InvalidBlueprintType
    error; its sibling ["B"] passes the validation, and so does
    ["toString"], which is no member: the factory is called with what the
    enumeration object has under the key. *)
Theorem buildEntity_rejects_member :
  engine_objs enum_world !! 0%nat = Some enum_engine ∧
  blueprintTypes enum_engine = Some numeric_enum ∧
  numeric_enum !! "A" = Some (VNum 0) ∧
  buildEntity 0%nat (VStr "A") enum_world
    = Throw (InvalidBlueprintType (VStr "A")) enum_world ∧
  numeric_enum !! "B" = Some (VNum 1) ∧
  buildEntity 0%nat (VStr "B") enum_world
    = call_buildEntity (entityFactory enum_engine) (VNum 1) enum_world ∧
  numeric_enum !! "toString" = None ∧
  buildEntity 0%nat (VStr "toString") enum_world
    = call_buildEntity (entityFactory enum_engine) VObject enum_world.
Proof.
  assert (engine_objs enum_world !! 0%nat = Some enum_engine) as HE
    by (vm_compute; reflexivity).
  split; [done|]. split; [done|]. split; [vm_compute; reflexivity|]. split.
  { destruct (buildEntity_guard 0%nat (VStr "A") enum_world enum_engine HE) as [H _].
    exact H. }
  split; [vm_compute; reflexivity|]. split.
  { destruct (buildEntity_guard 0%nat (VStr "B") enum_world enum_engine HE) as [H _].
    exact H. }
  split; [vm_compute; reflexivity|].
  destruct (buildEntity_guard 0%nat (VStr "toString") enum_world enum_engine HE) as [H _].
  exact H.
Qed.

(** The enumeration's numbers are keys too: [buildEntity(1)] passes the
    validation with the name ["B"]. *)
Example buildEntity_enum_number :
  buildEntity 0%nat (VNum 1) enum_world
  = call_buildEntity (entityFactory enum_engine) (VStr "B") enum_world.
Proof.
  destruct (buildEntity_guard 0%nat (VNum 1) enum_world enum_engine) as [H _].
  - vm_compute. reflexivity.
  - exact H.
Qed.

Example buildEntity_enum_value :
  (comp_fields <$>
     (result (buildEntity 0%nat (VNum 1) enum_world) ≫= λ r,
      match r with inr ent => getComponent "X" ent | inl _ => None end))
  = Some {[ "v" := VNum 2 ]}.
Proof. vm_compute. reflexivity. Qed.

Lemma buildEntity_named e type name w E :
  engine_objs w !! e = Some E → key_names E type name →
  buildEntity e type w = call_buildEntity (entityFactory E) (VStr name) w.
Proof.
  intros HE Hkey. rewrite (buildEntity_eq e type w E HE). unfold key_names in Hkey.
  destruct (blueprintTypes E) as [bt|]; [|by rewrite Hkey].
  destruct Hkey as [-> Hne]. simpl.
  by apply String.eqb_neq in Hne as ->.
Qed.





Example buildEntity_cycle_run :
  buildEntity 0%nat (VStr "A") cyclic_world
    = Throw (CyclicBlueprintInheritance "A") cyclic_world ∧
  buildEntity 0%nat (VStr "B") cyclic_world
    = Throw (CyclicBlueprintInheritance "B") cyclic_world.
Proof. split; vm_compute; reflexivity. Qed.

(** *** Merge order *)

Lemma assemble_snoc cs bc :
  assemble (cs ++ [bc])
  = putComponent (cc_name (component bc)) (instantiate bc) (assemble cs).
Proof. unfold assemble. by rewrite foldl_app. Qed.

(** On a collision of names the later list wins. *)
Lemma getComponent_assemble_app cname cs1 cs2 :
  getComponent cname (assemble (cs1 ++ cs2))
  = match last_named cname cs2 with
    | Some bc => Some (instantiate bc)
    | None => getComponent cname (assemble cs1)
    end.
Proof.
  induction cs2 as [|bc cs2 IH] using rev_ind.
  - by rewrite app_nil_r.
  - rewrite app_assoc, assemble_snoc. unfold last_named, getComponent, putComponent.
    rewrite filter_app.
    destruct (decide (cc_name (component bc) = cname)) as [Heq|Hne].
    + rewrite (filter_cons_True _ bc []) by done. rewrite filter_nil, last_snoc.
      by rewrite Heq, lookup_insert_eq.
    + rewrite (filter_cons_False _ bc []) by done. rewrite filter_nil, app_nil_r.
      rewrite lookup_insert_ne by done. apply IH.
Qed.

Lemma resolve_ok_lists fuel bs path name cs b :
  resolve fuel bs path name = Some (inr cs) → find_blueprint bs name = Some b →
  ∃ css,
    Forall2 (λ p cs', ∃ fuel' path', resolve fuel' bs path' p = Some (inr cs'))
            (parents b) css ∧
    cs = concat css ++ bp_components b.
Proof.
  destruct fuel as [|fuel]; [done|]. cbn [resolve].
  case_bool_decide; [done|]. intros Hres Hb. rewrite Hb in Hres.
  destruct (resolve_parents _ (parents b)) as [[err|cs1]|] eqn:Hps; [done| |done].
  injection Hres as <-. apply resolve_parents_ok in Hps as (css & Hcss & ->).
  exists css. split; [|done]. eapply Forall2_impl; [exact Hcss|].
  intros p cs' Hp. by exists fuel, (name :: path).
Qed.

(** C5.  When [buildEntity] returns an Entity for a registered blueprint,
    the Entity is assembled from the resolved component lists of the
    blueprint's parents, in the order listed, followed by the blueprint's
    own list; so for every component name in the blueprint's own list the
    Entity has the instance of the blueprint's own last entry for it,
    whatever the parents have under that name. *)
Theorem buildEntity_child_overrides e w E f key name b ent w' :
  engine_objs w !! e = Some E → entityFactory E = Some f →
  key_names E key name →
  find_blueprint (fac_blueprints f) name = Some b →
  buildEntity e key w = Ok ent w' →
  ∃ css,
    Forall2 (λ p cs, ∃ fuel path,
               resolve fuel (fac_blueprints f) path p = Some (inr cs))
            (parents b) css ∧
    ent = assemble (concat css ++ bp_components b) ∧
    ∀ cname bc, last_named cname (bp_components b) = Some bc →
                getComponent cname ent = Some (instantiate bc).
Proof.
  intros HE Hf Hkey Hb. rewrite (buildEntity_named e key name w E HE Hkey), Hf.
  unfold call_buildEntity, EntityFactory_buildEntity.
  destruct (resolve _ _ _ _) as [[err|cs]|] eqn:Hres; [done| |done].
  intros [= <- <-].
  destruct (resolve_ok_lists _ _ _ _ _ _ Hres Hb) as (css & Hcss & ->).
  exists css. repeat split; try done.
  intros cname bc Hlast. by rewrite getComponent_assemble_app, Hlast.
Qed.

Lemma buildEntity_child_overrides_witness :
  ∃ ent, buildEntity 0%nat (VNum 1) enum_world = Ok ent enum_world ∧
         comp_fields <$> getComponent "X" ent = Some {[ "v" := VNum 2 ]}.
Proof.
  exists (assemble (bp_components blueprint_A ++ bp_components blueprint_B)).
  assert (buildEntity 0%nat (VNum 1) enum_world
          = Ok (assemble (bp_components blueprint_A ++ bp_components blueprint_B))
               enum_world) as Hbuild by (vm_compute; reflexivity).
  split; [exact Hbuild|].
  assert (engine_objs enum_world !! 0%nat = Some enum_engine) as HE
    by (vm_compute; reflexivity).
  assert (key_names enum_engine (VNum 1) "B") as Hkey
    by (split; [vm_compute; reflexivity|discriminate]).
  assert (find_blueprint [blueprint_A; blueprint_B] "B" = Some blueprint_B) as Hfind
    by (vm_compute; reflexivity).
  destruct (buildEntity_child_overrides 0%nat enum_world enum_engine
              (mkEntityFactory [blueprint_A; blueprint_B] [X]) (VNum 1) "B"
              blueprint_B _ _ HE eq_refl Hkey Hfind Hbuild) as (css & _ & _ & Hlast).
  assert (last_named "X" (bp_components blueprint_B)
          = Some (mkBlueprintComponent X (Some {[ "v" := VNum 2 ]}))) as HX
    by (vm_compute; reflexivity).
  rewrite (Hlast "X" _ HX). vm_compute. reflexivity.
Defined.

(** ** [start] and later blueprints *)

Lemma addBlueprints_spec e later : ∀ w E arr,
  engine_objs w !! e = Some E →
  blueprint_arrays w !! _blueprints E = Some arr → frozen arr = false →
  ∃ w' arr',
    addBlueprints e later w = Ok tt w' ∧ engine_objs w' = engine_objs w ∧
    blueprint_arrays w' !! _blueprints E = Some arr' ∧ frozen arr' = false ∧
    elems arr `prefix_of` elems arr' ∧
    ∀ b, b ∈ later → bp_ref b ∈ bp_ref <$> elems arr'.
Proof.
  induction later as [|b later IH]; intros w E arr HE Harr Hfr.
  - exists w, arr. repeat split; try done. by intros b ?%elem_of_nil.
  - destruct (addBlueprint_spec e b w E arr HE Harr Hfr)
      as (w1 & arr1 & Hrun1 & Heng1 & Harr1 & Hfr1 & Hpre1 & Hin1).
    destruct (IH w1 E arr1) as (w2 & arr2 & Hrun2 & Heng2 & Harr2 & Hfr2 & Hpre2 & Hin2);
      [by rewrite Heng1|done..|].
    exists w2, arr2. unfold addBlueprints in *. rewrite for_of_cons, Hrun1.
    repeat split; try done; [congruence|by etrans|].
    intros b' [->|Hb']%elem_of_cons; [|by apply Hin2].
    destruct Hpre2 as [k ->]. rewrite fmap_app. set_solver.
Qed.

Lemma buildEntity_engine_objs e type w w' :
  engine_objs w = engine_objs w' →
  result (buildEntity e type w) = result (buildEntity e type w').
Proof.
  intros Heq. unfold buildEntity. unfold_monad. rewrite Heq.
  destruct (engine_objs w' !! e) as [E|]; [|done].
  assert (∀ t, result (call_buildEntity (entityFactory E) t w)
             = result (call_buildEntity (entityFactory E) t w')) as Hcall.
  { intros t. unfold call_buildEntity. destruct (entityFactory E) as [f|]; [|done].
    by destruct (EntityFactory_buildEntity f t) as [[err|ent]|]. }
  destruct (blueprintTypes E) as [bt|]; [|apply Hcall].
  destruct (truthy (js_get bt type)); [apply Hcall|done].
Qed.

(** [start], and blueprints added later, on a live blueprint array. *)
Lemma start_then_addBlueprints e w E arr later :
  engine_objs w !! e = Some E →
  blueprint_arrays w !! _blueprints E = Some arr → frozen arr = false →
  ∃ w1 w2 arr2,
    start e w = Ok tt w1 ∧
    engine_objs w1 !! e
      = Some (with_entityFactory E (mkEntityFactory (elems arr) (_components E))) ∧
    addBlueprints e later w1 = Ok tt w2 ∧
    engine_objs w2 = engine_objs w1 ∧
    (∀ type, result (buildEntity e type w2) = result (buildEntity e type w1)) ∧
    blueprint_arrays w2 !! _blueprints E = Some arr2 ∧
    elems arr `prefix_of` elems arr2 ∧
    (∀ b, b ∈ later → bp_ref b ∈ bp_ref <$> elems arr2) ∧
    ∃ w3, start e w2 = Ok tt w3 ∧
      engine_objs w3 !! e
        = Some (with_entityFactory E (mkEntityFactory (elems arr2) (_components E))).
Proof.
  intros HE Harr Hfr.
  set (E1 := with_entityFactory E (mkEntityFactory (elems arr) (_components E))).
  set (w1 := set_engine_objs <[e := E1]> w).
  assert (start e w = Ok tt w1) as Hstart.
  { unfold start, new_EntityFactory. unfold_monad. by rewrite HE, Harr. }
  assert (engine_objs w1 !! e = Some E1) as HE1 by (simpl; by rewrite lookup_insert_eq).
  destruct (addBlueprints_spec e later w1 E1 arr HE1 Harr Hfr)
    as (w2 & arr2 & Hrun & Heng & Harr2 & Hfr2 & Hpre & Hin).
  change (_blueprints E1) with (_blueprints E) in Harr2.
  exists w1, w2, arr2. repeat split; try done.
  - intros type. by apply buildEntity_engine_objs.
  - eexists. split.
    + unfold start, new_EntityFactory. unfold_monad.
      rewrite Heng, HE1. simpl. by rewrite Harr2.
    + simpl. by rewrite lookup_insert_eq.
Qed.

Lemma blueprints_of_eq w e E arr :
  engine_objs w !! e = Some E → blueprint_arrays w !! _blueprints E = Some arr →
  blueprints_of w e = elems arr.
Proof. intros HE Harr. unfold blueprints_of. by rewrite HE, Harr. Qed.

(** C2.  In every state the program reaches, [start] gives the engine a
    factory over the blueprints the engine holds at that moment.  Blueprints
    added afterwards go into the registry and leave the engine, with its
    factory, as it was: every [buildEntity] yields what it yielded before
    they were added.  A second [start] builds a factory over the registry of
    then, which holds them. *)
Theorem start_snapshots_blueprints e w E later :
  reachable w → engine_objs w !! e = Some E →
  ∃ w1 w2,
    start e w = Ok tt w1 ∧
    engine_objs w1 !! e
      = Some (with_entityFactory E (mkEntityFactory (blueprints_of w e) (_components E))) ∧
    addBlueprints e later w1 = Ok tt w2 ∧
    engine_objs w2 = engine_objs w1 ∧
    (∀ type, result (buildEntity e type w2) = result (buildEntity e type w1)) ∧
    blueprints_of w e `prefix_of` blueprints_of w2 e ∧
    (∀ b, b ∈ later → bp_ref b ∈ bp_ref <$> blueprints_of w2 e) ∧
    ∃ w3, start e w2 = Ok tt w3 ∧
      engine_objs w3 !! e
        = Some (with_entityFactory E
                  (mkEntityFactory (blueprints_of w2 e) (_components E))).
Proof.
  intros Hreach HE.
  destruct (reachable_arrays_live w Hreach e E HE) as [_ (arr & Harr & Hfr)].
  rewrite (blueprints_of_eq w e E arr HE Harr).
  destruct (start_then_addBlueprints e w E arr later HE Harr Hfr)
    as (w1 & w2 & arr2 & Hstart & HE1 & Hadd & Heng & Hsame & Harr2 & Hpre & Hin & Hagain).
  exists w1, w2. pose proof HE1 as HE2. rewrite <- Heng in HE2.
  rewrite (blueprints_of_eq w2 e _ arr2 HE2 Harr2). by repeat split.
Qed.

Lemma start_snapshots_blueprints_witness :
  ∃ w1 w2, start 0%nat late_world = Ok tt w1 ∧
           addBlueprints 0%nat [blueprint_B] w1 = Ok tt w2 ∧
           ∀ type, result (buildEntity 0%nat type w2) = result (buildEntity 0%nat type w1).
Proof.
  destruct (start_snapshots_blueprints 0%nat late_world late_engine [blueprint_B])
    as (w1 & w2 & Hstart & _ & Hadd & _ & Hsame & _).
  - exact late_world_reachable.
  - vm_compute. reflexivity.
  - by exists w1, w2.
Defined.

Example late_blueprint_unknown :
  result (buildEntity 0%nat (VStr "B")
            (world_after (start 0%nat;; addBlueprint 0%nat blueprint_B) late_world))
    = Some (inl (UnknownBlueprint (VStr "B"))) ∧
  (comp_fields <$>
     (result (buildEntity 0%nat (VStr "B")
                (world_after (start 0%nat;; addBlueprint 0%nat blueprint_B;; start 0%nat)
                             late_world)) ≫= λ r,
      match r with inr ent => getComponent "X" ent | inl _ => None end))
    = Some {[ "v" := VNum 2 ]}.
Proof. split; vm_compute; reflexivity. Qed.

(** * Further properties of the engine and of the systems *)

(** ** Attachment *)

(** X1.  In every state the program reaches the system list of an engine
    and the engine lists of the systems mirror each other: a system is in
    the engine's list exactly when the engine is in the system's, neither
    list holds a member twice, and a system list whose sort-needed flag is
    down is in ascending priority order. *)
Theorem attachment_mirrors_membership w e E s :
  reachable w → engine_objs w !! e = Some E →
  (s ∈ _systems E ↔ e ∈ _engines (system_of w s)) ∧
  NoDup (_systems E) ∧ NoDup (_engines (system_of w s)) ∧
  (_systemsNeedSorting E = false → in_priority_order w (_systems E)).
Proof.
  intros Hreach HE.
  destruct (reachable_consistent w Hreach) as [Hengines _].
  destruct (Hengines e E HE) as (Hnd & Hatt & Hsorted).
  destruct (reachable_attachment w Hreach s) as [Hnd' Hback].
  repeat split; try done; [by apply Hatt|].
  intros (E' & HE' & Hs)%Hback. by simplify_eq.
Qed.

Lemma attachment_mirrors_membership_witness :
  (12%nat ∈ [10; 11; 12; 13]%nat ↔ 0%nat ∈ _engines (system_of four_systems 12%nat)) ∧
  NoDup [10; 11; 12; 13]%nat ∧ NoDup (_engines (system_of four_systems 12%nat)) ∧
  (true = false → in_priority_order four_systems [10; 11; 12; 13]%nat).
Proof.
  apply (attachment_mirrors_membership four_systems 0%nat four_systems_engine 12%nat).
  - exact four_systems_reachable.
  - vm_compute. reflexivity.
Defined.

(** ** Exceptions *)

Lemma tuning_mild e : mild_listeners tuning e.
Proof.
  intros n w. unfold tuning. destruct n as [l x|l x]; [|constructor].
  apply Forall_cons_2.
  - split; [done|]. split; [split; [discriminate|discriminate]|].
    repeat split; discriminate.
  - case_decide as He; [|constructor]. apply Forall_cons_2; [|constructor].
    split; [done|]. split; [split; [discriminate|by intros e0 [= <-]]|].
    repeat split; discriminate.
Qed.

(** A call other than [start] on an engine that exists, with listeners that
    make mild calls. *)
Lemma exec_returns_if_mild handlers fuel c w :
  systems_consistent w → arrays_live w → well_targeted w c →
  (∀ e, c ≠ Start e) →
  (∀ e, calls_listeners c = true → target c = Some e → mild_listeners handlers e) →
  ∃ w', exec handlers (S fuel) c w = Ok tt w' ∧
        systems_consistent w' ∧ arrays_live w' ∧
        ∀ e', is_Some (engine_objs w !! e') → is_Some (engine_objs w' !! e').
Proof.
  intros Hcons Hlive Htarget Hstart Hmild.
  destruct (calls_listeners c) eqn:Hcalls.
  - destruct c; try done.
    + destruct (proj2 Htarget e eq_refl) as [E HE].
      destruct (decide (entity ∈ entities_of w e)) as [Hin|Hnew].
      * exists w. by rewrite addEntity_held.
      * destruct (addEntity_new handlers fuel e entity w E) as
          (w' & Hrun & Hcons' & Hlive' & _ & _ & Heng & _); [by apply Hmild|done..|].
        by exists w'.
    + destruct (proj2 Htarget e eq_refl) as [E HE].
      destruct (Hlive e E HE) as [(a & Ha & Hfr) _].
      destruct (decide (entity ∈ entities_of w e)) as [Hin|Hnew].
      * apply list_elem_of_split_l in Hin as (l1 & l2 & Hsplit & Hfirst).
        destruct (removeEntity_old handlers fuel e entity w E l1 l2) as
          (w' & Hrun & Hcons' & Hlive' & _ & _ & Heng & _); [by apply Hmild|done..|].
        by exists w'.
      * exists w. rewrite (entities_of_eq w e E a HE Ha) in Hnew.
        by rewrite (removeEntity_absent_live handlers (S fuel) e entity w E a).
  - rewrite exec_plain by done.
    destruct (exec_returns_if_live c w Hcons Hlive Htarget) as [w' Hrun].
    assert (final (exec silent 0 c w) = Some w') as Hf by by rewrite Hrun.
    exists w'. split; [done|].
    split; [by apply (exec_silent_keeps_consistent c w)|].
    split; [by apply (exec_silent_keeps_arrays_live c w)|].
    intros e' He'. by apply (exec_keeps_engines c w).
Qed.

(** X2.  In every state the program reaches, a call of [addSystem],
    [removeSystem], [addEntityListener], [removeEntityListener],
    [addBlueprint] or the [entities] getter on an engine that exists, and a
    write to the priority of any system, returns; and so does a call of
    [addEntity] or [removeEntity] on an engine that exists, with listeners
    whose code makes only calls of the first kind, on engines that exist and
    leaving the listener list of the engine alone. *)
Theorem exec_returns handlers fuel c w :
  reachable w → well_targeted w c → (∀ e, c ≠ Start e) →
  (∀ e, calls_listeners c = true → target c = Some e → mild_listeners handlers e) →
  ∃ w', exec handlers (S fuel) c w = Ok tt w'.
Proof.
  intros Hreach Htarget Hstart Hmild.
  destruct (exec_returns_if_mild handlers fuel c w) as (w' & Hrun & _); try done.
  - by apply reachable_consistent.
  - by apply reachable_arrays_live.
  - by exists w'.
Qed.

Lemma exec_returns_witness :
  ∃ w', exec tuning 1 (RemoveEntity 0 4) two_listeners = Ok tt w'.
Proof.
  apply exec_returns.
  - exact two_listeners_reachable.
  - split; [discriminate|]. intros e [= <-]. exists two_listeners_engine.
    vm_compute. reflexivity.
  - discriminate.
  - intros e _ _. apply tuning_mild.
Defined.

Lemma sort_step_keeps_engines e w w' e' :
  is_Some (engine_objs w !! e') → final (sort_step e w) = Some w' →
  is_Some (engine_objs w' !! e').
Proof.
  intros He'. unfold sort_step. unfold_monad.
  destruct (engine_objs w !! e) as [E|] eqn:HE; [|by intros [= <-]].
  destruct (_systemsNeedSorting E) eqn:Hflag; [|by intros [= <-]].
  simpl. rewrite lookup_insert_eq. intros [= <-]. simpl.
  rewrite insert_insert_eq, lookup_insert. by case_decide.
Qed.

(** X3.  In every state the program reaches, a tick does not throw when
    its callbacks call [addSystem], [removeSystem], [addEntityListener],
    [removeEntityListener], [addBlueprint], the [entities] getter,
    [addEntity] and [removeEntity] on engines that exist and write
    priorities, and the listeners make only calls of the first kind that
    change no listener list: [update] returns, or the loop goes on for
    ever. *)
Theorem update_does_not_throw handlers behaviour fuel e delta w :
  reachable w → is_Some (engine_objs w !! e) →
  (∀ s w0, Forall (λ c, well_targeted w c ∧ ∀ e', c ≠ Start e') (behaviour s e delta w0)) →
  (∀ e', mild_listeners handlers e') →
  ∀ err w', update handlers behaviour fuel e delta w ≠ Throw err w'.
Proof.
  intros Hreach He Hsafe Hmild.
  set (Inv := λ w1, systems_consistent w1 ∧ arrays_live w1 ∧
                    ∀ e', is_Some (engine_objs w !! e') →
                          is_Some (engine_objs w1 !! e')).
  assert (Inv w) as Hinv.
  { split; [by apply reachable_consistent|].
    split; [by apply reachable_arrays_live|done]. }
  assert (∀ depth cs w1, Inv w1 →
            Forall (λ c, well_targeted w c ∧ ∀ e', c ≠ Start e') cs →
            ∃ w2, run_script handlers (S depth) cs w1 = Ok tt w2 ∧ Inv w2) as Hscript.
  { intros depth. induction cs as [|c cs IH]; intros w1 (Hc1 & Hl1 & Hd1) Hcs.
    - exists w1. by split.
    - apply Forall_cons in Hcs as [[[Hpush Htarget] Hstart] Hcs].
      destruct (exec_returns_if_mild handlers depth c w1 Hc1 Hl1)
        as (w2 & Hrun & Hc2 & Hl2 & Hd2); [|done|by intros; apply Hmild|].
      { split; [done|]. intros e' He'. by apply Hd1, Htarget. }
      destruct (IH w2) as (w3 & Hrun3 & Hinv3); [|done|].
      + split; [done|]. split; [done|]. intros e' He'. by apply Hd2, Hd1.
      + exists w3. split; [|done]. unfold run_script.
        by rewrite for_of_cons, Hrun. }
  assert (∀ depth fuel i w1, Inv w1 →
            ∀ err w', run_systems handlers behaviour (S depth) fuel e delta i w1
                      ≠ Throw err w')
    as Hloop.
  { intros depth. clear fuel. induction fuel as [|fuel IH]; intros i w1 Hinv1 err w'; [done|].
    cbn [run_systems]. rewrite bind_eq. unfold get_engine at 1.
    destruct Hinv1 as (Hc1 & Hl1 & Hd1).
    destruct (Hd1 e He) as [E1 HE1]. rewrite HE1.
    destruct (_systems E1 !! i) as [s|]; [|done].
    rewrite bind_eq. unfold System_update. unfold_monad. cbn beta.
    set (w0 := set_invocations _ w1).
    destruct (Hscript depth (behaviour s e delta w0) w0) as (w2 & -> & Hinv2); [|done|].
    - split; [by apply (systems_consistent_ext w1)|].
      split; [|done].
      eapply arrays_live_ext; cycle 3;
        [exact Hl1|eauto|apply stays_live_refl..].
    - by apply IH. }
  intros err w'. unfold update. rewrite bind_eq.
  destruct He as [E HE].
  destruct (sort_step_spec e w E HE) as (w1 & E1 & Hstep & _).
  rewrite Hstep. destruct fuel as [|depth]; [done|].
  apply Hloop. destruct Hinv as (Hc & Hl & _).
  split; [|split].
  - apply (sort_step_keeps_consistent e w); [done|by rewrite Hstep].
  - apply (sort_step_keeps_arrays_live e w); [done|by rewrite Hstep].
  - intros e' He'. apply (sort_step_keeps_engines e w); [done|by rewrite Hstep].
Qed.

Lemma update_does_not_throw_witness :
  ∃ w', update tuning calm 5 0%nat 0 four_systems = Ok tt w'.
Proof.
  destruct (update tuning calm 5 0%nat 0 four_systems) as [[] w1|err w1|] eqn:Hup.
  - exists w1. reflexivity.
  - exfalso. revert Hup. apply update_does_not_throw.
    + exact four_systems_reachable.
    + exists four_systems_engine. vm_compute. reflexivity.
    + intros s w0. unfold calm. repeat constructor; try discriminate.
      intros e [= <-]. exists four_systems_engine. vm_compute. reflexivity.
    + apply tuning_mild.
  - exfalso. revert Hup. vm_compute. discriminate.
Defined.

(** ** Adding and removing systems *)

Lemma count_NoDup {A} `{EqDecision A} (l : list A) x :
  NoDup l → x ∈ l → length (filter (λ y, y = x) l) = 1%nat.
Proof.
  induction 1 as [|y l Hy Hnd IH]; [by intros ?%elem_of_nil|].
  intros Hx. destruct (decide (y = x)) as [->|Hne].
  - rewrite filter_cons_True by done. simpl. f_equal.
    clear IH Hx Hnd. induction l as [|z l IH]; [done|].
    apply not_elem_of_cons in Hy as [Hz Hl].
    rewrite filter_cons_False by congruence. by apply IH.
  - rewrite filter_cons_False by done. apply IH.
    apply elem_of_cons in Hx as [->|Hx]; done.
Qed.

Lemma delete_app_last {A} (l : list A) x : delete (length l) (l ++ [x]) = l.
Proof. induction l as [|y l IH]; simpl; [done|]. by rewrite IH. Qed.

Lemma system_of_set_engine_objs f w s :
  system_of (set_engine_objs f w) s = system_of w s.
Proof. done. Qed.

Lemma reachable_call handlers fuel c w w' :
  reachable w → exec handlers fuel c w = Ok tt w' → reachable w'.
Proof.
  intros Hreach Hrun. apply (reachable_step w (Call handlers fuel c)); [done|].
  simpl. by rewrite Hrun.
Qed.

(** X4.  In every state the program reaches, two calls of [addSystem] with
    the same system on an engine return, and the second changes nothing:
    afterwards the engine holds the system exactly once and the system holds
    the engine exactly once.  A system the engine did not hold goes to the
    end of the list, and the sort-needed flag is up. *)
Theorem addSystem_twice e s w E :
  reachable w → engine_objs w !! e = Some E →
  ∃ w1 E1,
    addSystem e s w = Ok tt w1 ∧ addSystem e s w1 = Ok tt w1 ∧
    engine_objs w1 !! e = Some E1 ∧
    length (filter (λ x, x = s) (_systems E1)) = 1%nat ∧
    length (filter (λ x, x = e) (_engines (system_of w1 s))) = 1%nat ∧
    (s ∈ _systems E → w1 = w) ∧
    (s ∉ _systems E →
       _systems E1 = _systems E ++ [s] ∧ _systemsNeedSorting E1 = true).
Proof.
  intros Hreach HE.
  assert (∃ w1, addSystem e s w = Ok tt w1) as [w1 Hadd].
  { rewrite addSystem_eq, HE. destruct (indexOf _ _); eauto. }
  destruct (addSystem_attaches e s w w1 Hreach Hadd) as (E1 & HE1 & Hs1 & He1).
  assert (reachable w1) as Hreach1 by by apply (reachable_call silent 0 (AddSystem e s) w).
  destruct (reachable_consistent w1 Hreach1) as [Hengines _].
  destruct (Hengines e E1 HE1) as (Hnd & _ & _).
  destruct (reachable_attachment w1 Hreach1 s) as [Hnd' _].
  exists w1, E1. split; [done|]. split.
  { rewrite addSystem_eq, HE1. destruct (indexOf s (_systems E1)) eqn:Hidx; [done|].
    by apply indexOf_None in Hidx. }
  split; [done|]. split; [by apply count_NoDup|]. split; [by apply count_NoDup|].
  rewrite addSystem_eq, HE in Hadd. split.
  - intros Hin. destruct (indexOf s (_systems E)) eqn:Hidx; [by injection Hadd|].
    by apply indexOf_None in Hidx.
  - intros Hnew. apply indexOf_None in Hnew. rewrite Hnew in Hadd.
    injection Hadd as <-. simpl in HE1. rewrite lookup_insert_eq in HE1.
    by injection HE1 as <-.
Qed.

Lemma addSystem_twice_witness :
  ∃ w1 E1, addSystem 0%nat 20%nat four_systems = Ok tt w1 ∧
           addSystem 0%nat 20%nat w1 = Ok tt w1 ∧
           engine_objs w1 !! 0%nat = Some E1 ∧
           _systems E1 = [10; 11; 12; 13; 20]%nat.
Proof.
  destruct (addSystem_twice 0%nat 20%nat four_systems four_systems_engine)
    as (w1 & E1 & H1 & H2 & HE1 & _ & _ & _ & Hnew).
  - exact four_systems_reachable.
  - vm_compute. reflexivity.
  - exists w1, E1. split; [exact H1|]. split; [exact H2|]. split; [exact HE1|].
    apply Hnew. refine (bool_decide_unpack _ _). vm_compute. exact I.
Defined.

(** X5.  In every state the program reaches, [removeSystem] undoes
    [addSystem] of a system the engine did not hold, but for the sort-needed
    flag: the engine's system list, the engine lists and the priorities of
    all systems, and every other engine are as before; the flag of the engine
    stays up. *)
Theorem removeSystem_undoes_addSystem e s w E :
  reachable w → engine_objs w !! e = Some E → s ∉ _systems E →
  ∃ w1 w2,
    addSystem e s w = Ok tt w1 ∧ removeSystem e s w1 = Ok tt w2 ∧
    engine_objs w2 = <[e := with_systemsNeedSorting E true]> (engine_objs w) ∧
    (∀ s', system_of w2 s' = system_of w s') ∧
    entity_arrays w2 = entity_arrays w ∧ blueprint_arrays w2 = blueprint_arrays w ∧
    notifications w2 = notifications w ∧ invocations w2 = invocations w.
Proof.
  intros Hreach HE Hnew.
  assert (e ∉ _engines (system_of w s)) as Hdetached.
  { intros (E' & HE' & Hs)%(reachable_attachment w Hreach s). by simplify_eq. }
  apply indexOf_None in Hdetached as Hidx_e. apply indexOf_None in Hnew as Hidx_s.
  set (E1 := with_systems E (_systems E ++ [s])).
  set (S1 := mkSystem (_priority (system_of w s)) (_engines (system_of w s) ++ [e])).
  set (w1 := set_engine_objs <[e := with_systemsNeedSorting E1 true]>
               (set_system_objs <[s := S1]> (set_engine_objs <[e := E1]> w))).
  assert (addSystem e s w = Ok tt w1) as Hadd.
  { rewrite addSystem_eq, HE, Hidx_s. cbn zeta. unfold attached.
    rewrite system_of_set_engine_objs. by rewrite Hidx_e. }
  assert (system_of w1 s = S1) as HS1.
  { unfold w1. rewrite system_of_set_engine_objs, system_of_insert.
    by rewrite decide_True. }
  set (w2 := set_system_objs
               <[s := mkSystem (_priority S1) (delete (length (_engines (system_of w s)))
                                                      (_engines S1))]>
               (set_engine_objs
                  <[e := with_systems (with_systemsNeedSorting E1 true)
                           (delete (length (_systems E)) (_systems E1))]> w1)).
  assert (removeSystem e s w1 = Ok tt w2) as Hrem.
  { rewrite removeSystem_eq. unfold w1 at 1. simpl. rewrite lookup_insert_eq. simpl.
    rewrite (indexOf_app_new s (_systems E)) by done.
    unfold detached. rewrite system_of_set_engine_objs, HS1. simpl.
    by rewrite (indexOf_app_new e (_engines (system_of w s))). }
  exists w1, w2. split; [done|]. split; [done|]. split.
  { simpl. by rewrite !insert_insert_eq, delete_app_last. }
  split; [|done]. intros s'. unfold w2. rewrite system_of_insert.
  case_decide as Hs'.
  - subst s'. simpl. rewrite delete_app_last. by destruct (system_of w s).
  - rewrite system_of_set_engine_objs. unfold w1.
    rewrite system_of_set_engine_objs, system_of_insert, decide_False by done.
    by rewrite system_of_set_engine_objs.
Qed.

Lemma removeSystem_undoes_addSystem_witness :
  ∃ w1 w2, addSystem 0%nat 20%nat four_systems = Ok tt w1 ∧
           removeSystem 0%nat 20%nat w1 = Ok tt w2 ∧
           engine_objs w2 = engine_objs four_systems ∧
           ∀ s', system_of w2 s' = system_of four_systems s'.
Proof.
  destruct (removeSystem_undoes_addSystem 0%nat 20%nat four_systems four_systems_engine)
    as (w1 & w2 & H1 & H2 & Heng & Hsys & _).
  - exact four_systems_reachable.
  - vm_compute. reflexivity.
  - refine (bool_decide_unpack _ _). vm_compute. exact I.
  - exists w1, w2. split; [exact H1|]. split; [exact H2|]. split; [|exact Hsys].
    rewrite Heng. vm_compute. reflexivity.
Defined.

(** ** Removing entities *)

(** X6.  In every state the program reaches, [removeEntity] with an entity
    the engine holds, with listeners whose code calls neither [addEntity]
    nor [removeEntity] nor [start], writes to no array, leaves the listener
    list of the engine alone and calls engines that exist, returns; it takes
    the first occurrence of the entity out of the engine's entities and
    keeps the others in their order; it calls [onEntityRemoved] once on each
    listener, in the order of the listener list; the engine has the
    listeners it had; and with listeners that make no call it leaves the
    engines, the systems and the blueprints as they were. *)
Theorem removeEntity_held handlers fuel e entity w E l1 l2 :
  reachable w → engine_objs w !! e = Some E →
  entities_of w e = l1 ++ entity :: l2 → entity ∉ l1 →
  mild_listeners handlers e →
  ∃ w', exec handlers (S fuel) (RemoveEntity e entity) w = Ok tt w' ∧
    entities_of w' e = l1 ++ l2 ∧
    notifications w' =
      notifications w ++ ((λ l, onEntityRemoved l entity) <$> _entityListeners E) ∧
    (∃ E', engine_objs w' !! e = Some E' ∧ _entityListeners E' = _entityListeners E) ∧
    (quiet handlers →
       engine_objs w' = engine_objs w ∧ system_objs w' = system_objs w ∧
       blueprint_arrays w' = blueprint_arrays w ∧ invocations w' = invocations w).
Proof.
  intros Hreach HE Hsplit Hfirst Hmild.
  destruct (removeEntity_old handlers fuel e entity w E l1 l2 Hmild)
    as (w' & Hrun & _ & _ & Hents & Hnote & _ & E' & HE' & Hl' & _);
    [by apply reachable_consistent|by apply reachable_arrays_live|done..|].
  exists w'. do 3 (split; [done|]). split; [by exists E'|].
  intros Hq. revert Hrun. rewrite exec_unfold. simpl.
  rewrite removeEntity_quiet by done. rewrite HE.
  by repeat case_match; intros [= <-].
Qed.

Lemma removeEntity_held_witness :
  ∃ w', exec tuning 1 (RemoveEntity 0%nat 4%nat) two_listeners = Ok tt w' ∧
        entities_of w' 0%nat = [] ∧
        notifications w' =
          notifications two_listeners ++ [onEntityRemoved 30 4; onEntityRemoved 31 4]%nat.
Proof.
  destruct (removeEntity_held tuning 0 0%nat 4%nat two_listeners two_listeners_engine [] [])
    as (w' & Hrun & Hents & Hnote & _).
  - exact two_listeners_reachable.
  - vm_compute. reflexivity.
  - vm_compute. reflexivity.
  - apply not_elem_of_nil.
  - apply tuning_mild.
  - exists w'. split; [exact Hrun|]. split; [exact Hents|]. exact Hnote.
Defined.

(** X7.  In every state the program reaches, with listeners of the same
    kind, [removeEntity] undoes [addEntity] of an entity the engine did not
    hold: the entities and the listeners of the engine are as before, and
    each listener has been told of the addition and then, after all
    additions, of the removal. *)
Theorem removeEntity_undoes_addEntity handlers fuel e entity w E :
  reachable w → engine_objs w !! e = Some E → entity ∉ entities_of w e →
  mild_listeners handlers e →
  ∃ w1 w2, exec handlers (S fuel) (AddEntity e entity) w = Ok tt w1 ∧
    exec handlers (S fuel) (RemoveEntity e entity) w1 = Ok tt w2 ∧
    entities_of w2 e = entities_of w e ∧
    notifications w2 =
      notifications w ++ ((λ l, onEntityAdded l entity) <$> _entityListeners E)
                      ++ ((λ l, onEntityRemoved l entity) <$> _entityListeners E) ∧
    ∃ E2, engine_objs w2 !! e = Some E2 ∧ _entityListeners E2 = _entityListeners E.
Proof.
  intros Hreach HE Hnew Hmild.
  destruct (addEntity_new handlers fuel e entity w E Hmild)
    as (w1 & Hadd & Hcons1 & Hlive1 & Hents1 & Hnote1 & _ & E1 & HE1 & Hl1 & _);
    [by apply reachable_consistent|by apply reachable_arrays_live|done..|].
  destruct (removeEntity_old handlers fuel e entity w1 E1 (entities_of w e) [] Hmild)
    as (w2 & Hrem & _ & _ & Hents2 & Hnote2 & _ & E2 & HE2 & Hl2 & _); [done..|].
  exists w1, w2. do 2 (split; [done|]).
  split; [by rewrite Hents2, app_nil_r|].
  split; [by rewrite Hnote2, Hnote1, Hl1, <- app_assoc|].
  exists E2. split; [done|congruence].
Qed.

Lemma removeEntity_undoes_addEntity_witness :
  ∃ w1 w2, exec tuning 1 (AddEntity 0%nat 5%nat) two_listeners = Ok tt w1 ∧
           exec tuning 1 (RemoveEntity 0%nat 5%nat) w1 = Ok tt w2 ∧
           entities_of w2 0%nat = entities_of two_listeners 0%nat.
Proof.
  destruct (removeEntity_undoes_addEntity tuning 0 0%nat 5%nat two_listeners
              two_listeners_engine)
    as (w1 & w2 & H1 & H2 & H3 & _).
  - exact two_listeners_reachable.
  - vm_compute. reflexivity.
  - refine (bool_decide_unpack _ _). vm_compute. exact I.
  - apply tuning_mild.
  - exists w1, w2. split; [exact H1|]. split; [exact H2|exact H3].
Defined.

(** ** Listeners *)

Lemma listeners_after_NoDup e c ls : NoDup ls → NoDup (listeners_after e c ls).
Proof.
  intros Hnd. destruct c; simpl; try done.
  - case_decide; [|done]. destruct (indexOf listener ls) eqn:Hidx; [done|].
    apply indexOf_None in Hidx. apply NoDup_app. split; [done|].
    split; [|apply NoDup_singleton].
    by intros x Hx ->%list_elem_of_singleton.
  - case_decide; [|done]. destruct (indexOf listener ls); [|done].
    eapply sublist_NoDup; [done|apply sublist_delete].
Qed.

Lemma exec_silent_keeps_listeners c : keeps listeners_unique (exec silent 0 c).
Proof.
  intros w w' Huniq Hf e E' HE'.
  destruct (exec_listeners e c w w' E' Hf HE') as (E & HE & ->).
  apply listeners_after_NoDup. by apply (Huniq e).
Qed.

Lemma exec_keeps_listeners handlers fuel c :
  keeps listeners_unique (exec handlers fuel c).
Proof. apply exec_keeps_any; [done|apply exec_silent_keeps_listeners]. Qed.

Lemma sort_step_keeps_listeners e : keeps listeners_unique (sort_step e).
Proof.
  intros w w' Huniq. unfold sort_step. unfold_monad.
  destruct (engine_objs w !! e) as [E|] eqn:HE; [|by intros [= <-]].
  destruct (_systemsNeedSorting E) eqn:Hflag; [|by intros [= <-]].
  simpl. rewrite lookup_insert_eq. intros [= <-]. intros e' E'. simpl.
  rewrite insert_insert_eq, lookup_insert. case_decide; [|apply Huniq].
  intros [= <-]. simpl. by apply (Huniq e).
Qed.

Lemma update_keeps_listeners handlers behaviour fuel e delta :
  keeps listeners_unique (update handlers behaviour fuel e delta).
Proof.
  apply update_keeps_any;
    [done|apply sort_step_keeps_listeners|intros; apply exec_keeps_listeners].
Qed.

Lemma reachable_listeners w : reachable w → listeners_unique w.
Proof.
  induction 1 as [|w h w' _ IH Hstep]; [by intros e E ?|].
  destruct h as [components bt|handlers fuel c|handlers behaviour fuel e delta];
    unfold host_step in Hstep.
  - revert Hstep. unfold new_Engine. unfold_monad. intros [= <-].
    intros e E. simpl. rewrite lookup_insert. case_decide; [|apply IH].
    intros [= <-]. constructor.
  - by apply (exec_keeps_listeners handlers fuel c w).
  - by apply (update_keeps_listeners handlers behaviour fuel e delta w).
Qed.

(** X8.  In every state the program reaches, with listeners whose code calls
    neither [addEntity] nor [removeEntity] nor [start], writes to no array,
    leaves the listener list of the engine alone and calls engines that
    exist, adding to an engine an entity it does not hold calls
    [onEntityAdded] with that entity once on each of the engine's listeners
    and on nothing else: the calls made are the old ones followed by calls
    that are all different, one for each listener. *)
Theorem addEntity_notifies_each_once handlers fuel e entity w E :
  reachable w → engine_objs w !! e = Some E → entity ∉ entities_of w e →
  mild_listeners handlers e →
  ∃ w' ns,
    exec handlers (S fuel) (AddEntity e entity) w = Ok tt w' ∧
    notifications w' = notifications w ++ ns ∧
    NoDup ns ∧ length ns = length (_entityListeners E) ∧
    ∀ n, n ∈ ns ↔ ∃ l, l ∈ _entityListeners E ∧ n = onEntityAdded l entity.
Proof.
  intros Hreach HE Hnew Hmild.
  destruct (addEntity_new handlers fuel e entity w E Hmild)
    as (w' & Hadd & _ & _ & _ & Hnote & _);
    [by apply reachable_consistent|by apply reachable_arrays_live|done..|].
  eexists w', _. split; [done|]. split; [done|]. split; [|split].
  - assert (Inj (=) (=) (λ l, onEntityAdded l entity)) by (by intros l1 l2 [= ->]).
    apply (NoDup_fmap_2 _). by apply (reachable_listeners w Hreach e).
  - by rewrite length_fmap.
  - intros n. rewrite list_elem_of_fmap. naive_solver.
Qed.

Lemma addEntity_notifies_each_once_witness :
  ∃ w' ns, exec tuning 1 (AddEntity 0%nat 5%nat) two_listeners = Ok tt w' ∧
           notifications w' = notifications two_listeners ++ ns ∧
           length ns = 2%nat.
Proof.
  destruct (addEntity_notifies_each_once tuning 0 0%nat 5%nat two_listeners
              two_listeners_engine)
    as (w' & ns & Hadd & Hns & _ & Hlen & _).
  - exact two_listeners_reachable.
  - vm_compute. reflexivity.
  - refine (bool_decide_unpack _ _). vm_compute. exact I.
  - apply tuning_mild.
  - exists w', ns. split; [exact Hadd|]. split; [exact Hns|exact Hlen].
Defined.

Lemma entities_of_with_entityListeners w e E ls e' :
  engine_objs w !! e = Some E →
  entities_of (set_engine_objs <[e := with_entityListeners E ls]> w) e'
  = entities_of w e'.
Proof.
  intros HE. unfold entities_of. simpl. rewrite lookup_insert.
  case_decide; [|done]. subst. by rewrite HE.
Qed.

(** X9.  In every state the program reaches, with listeners of the same
    kind, a listener taken off an engine with [removeEntityListener] is not
    called for an entity added afterwards, and every other listener of the
    engine still is. *)
Theorem removeEntityListener_silences handlers fuel e l entity w E :
  reachable w → engine_objs w !! e = Some E → entity ∉ entities_of w e →
  mild_listeners handlers e →
  ∃ w1 w2 ns,
    removeEntityListener e l w = Ok tt w1 ∧
    exec handlers (S fuel) (AddEntity e entity) w1 = Ok tt w2 ∧
    notifications w2 = notifications w ++ ns ∧
    ∀ l', onEntityAdded l' entity ∈ ns ↔ l' ∈ _entityListeners E ∧ l' ≠ l.
Proof.
  intros Hreach HE Hnew Hmild.
  assert (∃ w1, removeEntityListener e l w = Ok tt w1) as [w1 Hrem].
  { unfold removeEntityListener. unfold_monad. rewrite HE.
    destruct (indexOf _ _); eauto. }
  assert (reachable w1) as Hreach1
    by by apply (reachable_call silent 0 (RemoveEntityListener e l) w).
  assert (∃ E1, engine_objs w1 !! e = Some E1 ∧
                entities_of w1 e = entities_of w e ∧
                notifications w1 = notifications w ∧
                ∀ l', l' ∈ _entityListeners E1 ↔ l' ∈ _entityListeners E ∧ l' ≠ l)
    as (E1 & HE1 & Hents & Hnot & Hls).
  { revert Hrem. unfold removeEntityListener. unfold_monad. rewrite HE.
    destruct (indexOf l (_entityListeners E)) as [i|] eqn:Hidx; intros [= <-].
    - eexists. split; [apply lookup_insert_eq|].
      split; [by apply entities_of_with_entityListeners|]. split; [done|].
      intros l'. simpl. apply indexOf_Some in Hidx as [Hi _].
      pose proof (reachable_listeners w Hreach e E HE) as Hnd. split.
      + intros Hin. split.
        * eapply elem_of_sublist; [exact Hin|apply sublist_delete].
        * intros ->. by apply (not_elem_of_delete_NoDup (_entityListeners E) i l).
      + intros [Hin Hne]. by apply (elem_of_delete_ne _ i l' l).
    - exists E. split; [done|]. split; [done|]. split; [done|].
      apply indexOf_None in Hidx. intros l'. split; [|by intros []].
      intros Hin. split; [done|]. by intros ->. }
  destruct (addEntity_new handlers fuel e entity w1 E1 Hmild)
    as (w2 & Hadd & _ & _ & _ & Hnote & _);
    [by apply reachable_consistent|by apply reachable_arrays_live|done|by rewrite Hents|].
  eexists w1, w2, _. split; [done|]. split; [done|].
  split; [by rewrite Hnote, Hnot|].
  intros l'. rewrite <- Hls, list_elem_of_fmap. split.
  - by intros (l0 & [= ->] & Hin).
  - intros Hin. by exists l'.
Qed.

Lemma removeEntityListener_silences_witness :
  ∃ w1 w2 ns,
    removeEntityListener 0%nat 30%nat two_listeners = Ok tt w1 ∧
    exec tuning 1 (AddEntity 0%nat 5%nat) w1 = Ok tt w2 ∧
    notifications w2 = notifications two_listeners ++ ns ∧
    (onEntityAdded 30%nat 5%nat ∉ ns) ∧ onEntityAdded 31%nat 5%nat ∈ ns.
Proof.
  destruct (removeEntityListener_silences tuning 0 0%nat 30%nat 5%nat two_listeners
              two_listeners_engine) as (w1 & w2 & ns & H1 & H2 & H3 & H4).
  - exact two_listeners_reachable.
  - vm_compute. reflexivity.
  - refine (bool_decide_unpack _ _). vm_compute. exact I.
  - apply tuning_mild.
  - exists w1, w2, ns. split; [exact H1|]. split; [exact H2|]. split; [exact H3|].
    split.
    + intros Hin. apply H4 in Hin as [_ Hne]. by apply Hne.
    + apply H4. split; [|discriminate].
      refine (bool_decide_unpack _ _). vm_compute. exact I.
Defined.

(** X10.  In every state the program reaches, two calls of
    [addEntityListener] with the same listener on an engine return, and the
    second changes nothing: afterwards the engine has the listener exactly
    once, at the end of the list if it did not have it. *)
Theorem addEntityListener_twice e l w E :
  reachable w → engine_objs w !! e = Some E →
  ∃ w1 E1,
    addEntityListener e l w = Ok tt w1 ∧ addEntityListener e l w1 = Ok tt w1 ∧
    engine_objs w1 !! e = Some E1 ∧
    length (filter (λ x, x = l) (_entityListeners E1)) = 1%nat ∧
    (l ∈ _entityListeners E → w1 = w) ∧
    (l ∉ _entityListeners E → _entityListeners E1 = _entityListeners E ++ [l]).
Proof.
  intros Hreach HE.
  assert (∃ w1, addEntityListener e l w = Ok tt w1) as [w1 Hadd].
  { unfold addEntityListener. unfold_monad. rewrite HE.
    destruct (indexOf _ _); eauto. }
  assert (reachable w1) as Hreach1
    by by apply (reachable_call silent 0 (AddEntityListener e l) w).
  assert (∃ E1, engine_objs w1 !! e = Some E1 ∧ l ∈ _entityListeners E1 ∧
                (l ∈ _entityListeners E → w1 = w) ∧
                (l ∉ _entityListeners E →
                   _entityListeners E1 = _entityListeners E ++ [l]))
    as (E1 & HE1 & Hin1 & Hold & Hfresh).
  { revert Hadd. unfold addEntityListener. unfold_monad. rewrite HE.
    destruct (indexOf l (_entityListeners E)) as [i|] eqn:Hidx; intros [= <-].
    - exists E. split; [done|]. apply indexOf_Some in Hidx as [Hi _].
      split; [by eapply list_elem_of_lookup_2|]. split; [done|].
      intros Hnot. exfalso. apply Hnot. by eapply list_elem_of_lookup_2.
    - eexists. split; [apply lookup_insert_eq|]. simpl.
      split; [apply elem_of_app; right; by apply list_elem_of_singleton|].
      apply indexOf_None in Hidx. split; [done|done]. }
  exists w1, E1. split; [done|]. split.
  { unfold addEntityListener. unfold_monad. rewrite HE1.
    destruct (indexOf l (_entityListeners E1)) eqn:Hidx; [done|].
    by apply indexOf_None in Hidx. }
  split; [done|]. split; [|done].
  apply count_NoDup; [|done]. by apply (reachable_listeners w1 Hreach1 e).
Qed.

Lemma addEntityListener_twice_witness :
  ∃ w1 E1, addEntityListener 0%nat 32%nat two_listeners = Ok tt w1 ∧
           addEntityListener 0%nat 32%nat w1 = Ok tt w1 ∧
           engine_objs w1 !! 0%nat = Some E1 ∧
           _entityListeners E1 = [30; 31; 32]%nat.
Proof.
  destruct (addEntityListener_twice 0%nat 32%nat two_listeners two_listeners_engine)
    as (w1 & E1 & H1 & H2 & HE1 & _ & _ & Hnew).
  - exact two_listeners_reachable.
  - vm_compute. reflexivity.
  - exists w1, E1. split; [exact H1|]. split; [exact H2|]. split; [exact HE1|].
    apply Hnew. refine (bool_decide_unpack _ _). vm_compute. exact I.
Defined.

(** ** [buildEntity] before [start] *)

Lemma host_step_keeps_unstarted e h :
  ¬ may_start e h → keeps (unstarted e) (host_step h).
Proof.
  assert (∀ c, c ≠ Start e → keeps (unstarted e) (exec silent 0 c)) as Hsilent.
  { intros c Hne w w' Hun Hf E' HE'.
    destruct (exec_factory e c w w' E' Hne Hf HE') as (E & HE & ->).
    by apply Hun. }
  assert (∀ handlers, (∀ n w0, Start e ∉ handlers n w0) →
            ∀ fuel c, c ≠ Start e → keeps (unstarted e) (exec handlers fuel c)) as Hexec.
  { intros handlers Hhs fuel c Hne.
    apply (exec_keeps (unstarted e) (λ c, c ≠ Start e) handlers); [done|done| |done].
    intros n w0. apply Forall_forall. intros c0 Hc0 ->. by apply (Hhs n w0). }
  destruct h as [components bt|handlers fuel c|handlers behaviour fuel e' delta];
    simpl; intros Hno.
  - intros w w' Hun. unfold new_Engine. unfold_monad. intros [= <-] E. simpl.
    rewrite lookup_insert. case_decide; [by intros [= <-]|apply Hun].
  - apply Hexec; [|by intros ->; apply Hno; left].
    intros n w0 Hin. apply Hno. right. eauto.
  - apply (update_keeps (unstarted e) (λ c, c ≠ Start e)).
    + done.
    + intros w w' Hun. unfold sort_step. unfold_monad.
      destruct (engine_objs w !! e') as [E|] eqn:HE; [|by intros [= <-]].
      destruct (_systemsNeedSorting E) eqn:Hflag; [|by intros [= <-]].
      simpl. rewrite lookup_insert_eq. intros [= <-]. intros E'. simpl.
      rewrite insert_insert_eq, lookup_insert. case_decide; [|apply Hun].
      subst. intros [= <-]. simpl. by apply Hun.
    + intros depth c Hne. apply Hexec; [|done].
      intros n w0 Hin. apply Hno. right. eauto.
    + intros s w0. apply Forall_forall. intros c Hc ->. apply Hno. left. eauto.
Qed.

Lemma run_host_keeps_unstarted e hs :
  Forall (λ h, ¬ may_start e h) hs →
  ∀ w, unstarted e w → unstarted e (run_host hs w).
Proof.
  induction 1 as [|h hs Hh Hhs IH]; intros w Hw; [done|].
  cbn [run_host foldl]. apply IH. unfold world_after.
  destruct (final (host_step h w)) as [w'|] eqn:Hf; simpl; [|exact Hw].
  by apply (host_step_keeps_unstarted e h Hh w).
Qed.

(** X11.  Only [start] gives an engine its factory.  Whatever the host
    program has done (engines constructed, operations called, ticks run),
    as long as none of it, callbacks included, was a call of [start] on the
    engine, [buildEntity] on the engine yields no entity: it throws the
    InvalidBlueprintType error when there is a type enumeration whose value
    under the key is falsy, and a [TypeError], from the call on the missing
    factory, in every other case.  The state is left as it was. *)
Theorem buildEntity_needs_start e hs type E :
  Forall (λ h, ¬ may_start e h) hs →
  engine_objs (run_host hs empty_world) !! e = Some E →
  buildEntity e type (run_host hs empty_world) =
    Throw (match blueprintTypes E with
           | Some bt => if truthy (js_get bt type) then TypeError
                        else InvalidBlueprintType type
           | None => TypeError
           end) (run_host hs empty_world).
Proof.
  intros Hhs HE.
  assert (unstarted e (run_host hs empty_world)) as Hun.
  { apply run_host_keeps_unstarted; [done|]. by intros E0 ?. }
  rewrite (buildEntity_eq e type _ E HE), (Hun E HE).
  destruct (blueprintTypes E) as [bt|]; [|done].
  by destruct (truthy (js_get bt type)).
Qed.

Lemma buildEntity_needs_start_witness :
  buildEntity 0%nat (VStr "A") late_world = Throw TypeError late_world.
Proof.
  apply (buildEntity_needs_start 0%nat
           [Construct [X] None; Call silent 0 (AddBlueprint 0%nat blueprint_A)]
           (VStr "A") late_engine).
  - repeat constructor; simpl; [tauto|].
    intros [?|(n & w0 & Hin)]; [discriminate|by apply elem_of_nil in Hin].
  - vm_compute. reflexivity.
Defined.

(** ** Systems that leave during a tick *)

Lemma logged_nil w : logged [] w = w.
Proof. destruct w. unfold logged, set_invocations. simpl. by rewrite app_nil_r. Qed.

Lemma logged_app xs ys w : logged ys (logged xs w) = logged (xs ++ ys) w.
Proof.
  destruct w. unfold logged, set_invocations. simpl. by rewrite app_assoc.
Qed.

Lemma invocations_detached s e w : invocations (detached s e w) = invocations w.
Proof. unfold detached. by case_match. Qed.

Section Leaving.

Variable handlers : Handlers.
Variable behaviour : Behaviour.
Variable depth : nat.
Variables (e : EngineRef) (delta : Z).

(** A system whose callback makes no call only adds to the trace. *)
Lemma run_systems_idle mid : ∀ l1 l2 fuel w E,
  engine_objs w !! e = Some E → _systems E = l1 ++ mid ++ l2 →
  (∀ s w0, s ∈ mid → behaviour s e delta w0 = []) →
  run_systems handlers behaviour depth (length mid + fuel) e delta (length l1) w
  = run_systems handlers behaviour depth fuel e delta (length l1 + length mid)
      (logged (invoke e delta <$> mid) w).
Proof.
  induction mid as [|s mid IH]; intros l1 l2 fuel w E HE Hss Hidle.
  - simpl. by rewrite logged_nil, Nat.add_0_r.
  - cbn [length Nat.add run_systems]. rewrite bind_eq. unfold get_engine at 1.
    rewrite HE, Hss.
    rewrite lookup_app_r by lia. rewrite Nat.sub_diag. cbn [app lookup list_lookup].
    unfold System_update. unfold_monad. cbn beta.
    rewrite Hidle by left. cbn [run_script for_of]. unfold_monad.
    change (set_invocations _ w) with (logged [invoke e delta s] w).
    replace (S (length l1)) with (length (l1 ++ [s]))
      by (rewrite length_app; simpl; lia).
    rewrite (IH (l1 ++ [s]) l2 fuel (logged [invoke e delta s] w) E); cycle 1.
    + done.
    + by rewrite Hss, <- app_assoc.
    + intros s' w0 Hs'. apply Hidle. by right.
    + rewrite logged_app. f_equal. rewrite length_app. simpl. lia.
Qed.

End Leaving.

(** X12.  The loop of [update] reads the system list afresh at every step,
    by index.  So when the callback of a system takes that system off the
    engine and the other callbacks make no call, the tick returns and has
    invoked every system of the engine but the one that came next in the
    order: that one moved into the index the loop had just done with. *)
Theorem update_skips_after_removal handlers behaviour fuel e delta w E pre s0 s1 rest :
  reachable w → engine_objs w !! e = Some E →
  tick_order w E = pre ++ s0 :: s1 :: rest →
  (∀ w0, behaviour s0 e delta w0 = [RemoveSystem e s0]) →
  (∀ s w0, s ∈ pre ++ s1 :: rest → behaviour s e delta w0 = []) →
  (length (_systems E) ≤ fuel)%nat →
  ∃ w' E',
    update handlers behaviour fuel e delta w = Ok tt w' ∧
    invocations w' = invocations w ++ (invoke e delta <$> pre ++ s0 :: rest) ∧
    engine_objs w' !! e = Some E' ∧ _systems E' = pre ++ s1 :: rest.
Proof.
  intros Hreach HE Horder Hs0 Hidle Hfuel.
  destruct (reachable_consistent w Hreach) as [Hengines _].
  destruct (Hengines e E HE) as (Hnd & _ & _).
  assert (tick_order w E ≡ₚ _systems E) as Hperm.
  { unfold tick_order. destruct (_systemsNeedSorting E); [|done].
    apply Array_sort_perm. }
  rewrite <- Hperm in Hnd. rewrite <- Hperm, Horder in Hfuel.
  rewrite Horder in Hnd. apply NoDup_app in Hnd as (_ & Hdisj & _).
  assert (s0 ∉ pre) as Hs0pre.
  { intros Hin. apply (Hdisj s0 Hin). by left. }
  destruct (sort_step_spec e w E HE) as (w1 & E1 & Hsort & HE1 & Hss1 & _ & Hinv1 & _).
  fold (tick_order w E) in Hss1. rewrite Horder in Hss1.
  unfold update. rewrite bind_eq, Hsort.
  rewrite length_app in Hfuel. simpl in Hfuel.
  generalize fuel at 1. intros depth.
  replace fuel with (length pre + S (length rest + S (fuel - length pre - length rest - 2)))%nat
    by lia.
  rewrite (run_systems_idle handlers behaviour depth e delta pre [] (s0 :: s1 :: rest) _
             w1 E1 HE1 Hss1);
    [|intros s w0 Hs; apply Hidle, elem_of_app; by left].
  set (w2 := logged (invoke e delta <$> pre) w1).
  cbn [length Nat.add run_systems]. rewrite bind_eq. unfold get_engine at 1.
  change (engine_objs w2) with (engine_objs w1). rewrite HE1, Hss1.
  rewrite lookup_app_r by lia. rewrite Nat.sub_diag. cbn [lookup list_lookup].
  unfold System_update. unfold_monad. cbn beta.
  rewrite Hs0. cbn [run_script for_of]. rewrite exec_plain by done.
  cbn [exec perform]. unfold_monad.
  change (set_invocations _ w2) with (logged [invoke e delta s0] w2).
  unfold w2. rewrite logged_app.
  set (w3 := logged _ w1).
  rewrite removeSystem_eq. change (engine_objs w3) with (engine_objs w1).
  rewrite HE1, Hss1, (indexOf_middle s0 pre (s1 :: rest) Hs0pre), delete_middle.
  set (E2 := with_systems E1 (pre ++ s1 :: rest)).
  set (w4 := detached s0 e (set_engine_objs <[e := E2]> w3)).
  assert (engine_objs w4 !! e = Some E2) as HE2.
  { unfold w4. rewrite (proj1 (detached_facts _ _ _)). simpl.
    apply lookup_insert_eq. }
  replace (S (length pre)) with (length (pre ++ [s1]))
    by (rewrite length_app; simpl; lia).
  rewrite (run_systems_idle handlers behaviour depth e delta rest (pre ++ [s1]) [] _
             w4 E2 HE2); cycle 1.
  { simpl. by rewrite app_nil_r, <- app_assoc. }
  { intros s w0 Hs. apply Hidle, elem_of_app. right. by right. }
  cbn [run_systems]. rewrite bind_eq. unfold get_engine at 1.
  change (engine_objs (logged _ w4)) with (engine_objs w4). rewrite HE2.
  rewrite lookup_ge_None_2; cycle 1.
  { simpl. rewrite !length_app. simpl. lia. }
  eexists _, E2. split; [done|]. split; [|done].
  change (invocations (logged ?xs w4)) with (invocations w4 ++ xs).
  unfold w4. rewrite invocations_detached.
  change (invocations w3 ++ (invoke e delta <$> rest)
          = invocations w ++ (invoke e delta <$> pre ++ s0 :: rest)).
  unfold w3. change (invocations (logged ?xs w1)) with (invocations w1 ++ xs).
  rewrite Hinv1, fmap_app, <- !app_assoc. done.
Qed.

Lemma update_skips_after_removal_witness :
  ∃ w', update unsubscribing leave 5 0%nat 0 four_systems = Ok tt w' ∧
        inv_system <$> invocations w' = [10; 11; 13]%nat.
Proof.
  destruct (update_skips_after_removal unsubscribing leave 5 0%nat 0 four_systems
              four_systems_engine [10%nat] 11%nat 12%nat [13%nat])
    as (w' & E' & Hup & Hinv & _).
  - exact four_systems_reachable.
  - vm_compute. reflexivity.
  - vm_compute. reflexivity.
  - intros w0. reflexivity.
  - intros s w0 Hs. unfold leave. rewrite decide_False; [done|].
    intros ->. revert Hs. refine (bool_decide_unpack _ _). vm_compute. exact I.
  - vm_compute. lia.
  - exists w'. split; [exact Hup|]. rewrite Hinv. vm_compute. reflexivity.
Defined.

(** ** Systems that keep adding systems *)

Lemma run_systems_grows handlers behaviour depth e delta :
  (∀ s w0 E0, engine_objs w0 !! e = Some E0 →
     ∃ s', (s' ∉ _systems E0) ∧ behaviour s e delta w0 = [AddSystem e s']) →
  ∀ fuel i w E,
    engine_objs w !! e = Some E → (i < length (_systems E))%nat →
    run_systems handlers behaviour depth fuel e delta i w = OutOfFuel.
Proof.
  intros Hgrow. induction fuel as [|fuel IH]; intros i w E HE Hi; [done|].
  cbn [run_systems]. rewrite bind_eq. unfold get_engine at 1. rewrite HE.
  destruct (lookup_lt_is_Some_2 _ _ Hi) as [s Hs]. rewrite Hs.
  unfold System_update. unfold_monad. cbn beta.
  set (w0 := set_invocations _ w).
  destruct (Hgrow s w0 E HE) as (s' & Hnew & ->).
  cbn [run_script for_of]. rewrite exec_plain by done.
  cbn [exec perform]. unfold_monad. rewrite addSystem_eq.
  change (engine_objs w0) with (engine_objs w). rewrite HE.
  apply indexOf_None in Hnew. rewrite Hnew. cbn zeta.
  eapply IH; [apply lookup_insert_eq|]. simpl. rewrite length_app. simpl. lia.
Qed.

(** X13.  When every callback adds to the engine a system it does not hold
    yet, the loop of [update], which runs to the end of the list as it is at
    each step, never gets there: on an engine with at least one system the
    tick does not return, and does not throw, however long it runs. *)
Theorem update_never_returns handlers behaviour e delta w E :
  engine_objs w !! e = Some E → _systems E ≠ [] →
  (∀ s w0 E0, engine_objs w0 !! e = Some E0 →
     ∃ s', (s' ∉ _systems E0) ∧ behaviour s e delta w0 = [AddSystem e s']) →
  ∀ fuel, update handlers behaviour fuel e delta w = OutOfFuel.
Proof.
  intros HE Hne Hgrow fuel.
  destruct (sort_step_spec e w E HE) as (w1 & E1 & Hsort & HE1 & Hss1 & _).
  unfold update. rewrite bind_eq, Hsort.
  apply (run_systems_grows handlers behaviour fuel e delta Hgrow fuel 0%nat w1 E1 HE1).
  rewrite Hss1. destruct (_systemsNeedSorting E).
  - rewrite (Array_sort_perm (priority w) (_systems E)).
    destruct (_systems E); [done|simpl; lia].
  - destruct (_systems E); [done|simpl; lia].
Qed.

Lemma update_never_returns_witness :
  update unsubscribing breed 1000 0%nat 0 four_systems = OutOfFuel.
Proof.
  apply (update_never_returns unsubscribing breed 0%nat 0 four_systems
           four_systems_engine).
  - vm_compute. reflexivity.
  - discriminate.
  - intros s w0 E0 HE0. unfold breed. rewrite HE0. eexists. split; [|done].
    intros Hin. apply (is_fresh (list_to_set (_systems E0) : gset nat)).
    by apply elem_of_list_to_set.
Defined.

(** ** The batch forms *)

Lemma addEntities_mild handlers fuel e es :
  mild_listeners handlers e →
  ∀ w E,
    systems_consistent w → arrays_live w → engine_objs w !! e = Some E →
    ∃ w' new,
      addEntities handlers (exec handlers fuel) (S fuel) e es w = Ok tt w' ∧
      entities_of w' e = entities_of w e ++ new ∧ NoDup new ∧
      (∀ x, x ∈ new ↔ x ∈ es ∧ x ∉ entities_of w e) ∧
      notifications w' =
        notifications w ++
        (new ≫= λ x, (λ l, onEntityAdded l x) <$> _entityListeners E).
Proof.
  intros Hmild. unfold addEntities.
  induction es as [|x es IH]; intros w E Hcons Hlive HE.
  - exists w, []. split; [done|]. split; [by rewrite app_nil_r|].
    split; [constructor|]. split; [|by rewrite app_nil_r].
    intros y. split; [by intros ?%elem_of_nil|by intros [?%elem_of_nil _]].
  - rewrite for_of_cons.
    change (addEntity handlers (exec handlers fuel) (S fuel) e x w)
      with (exec handlers (S fuel) (AddEntity e x) w).
    destruct (decide (x ∈ entities_of w e)) as [Hx|Hx].
    + rewrite addEntity_held by done.
      destruct (IH w E Hcons Hlive HE) as (w' & new & Hrun & Hents & Hnd & Hin & Hnot).
      exists w', new. do 3 (split; [done|]). split; [|done].
      intros y. rewrite Hin, elem_of_cons. split; [naive_solver|].
      intros [[->|Hy] Hnew]; done.
    + destruct (addEntity_new handlers fuel e x w E Hmild Hcons Hlive HE Hx)
        as (w1 & -> & Hcons1 & Hlive1 & Hents1 & Hnote1 & _ & E1 & HE1 & Hl1 & _).
      destruct (IH w1 E1 Hcons1 Hlive1 HE1)
        as (w' & new & Hrun & Hents & Hnd & Hin & Hnot).
      rewrite Hents1 in Hents, Hin. rewrite Hl1 in Hnot.
      exists w', (x :: new). split; [done|].
      split; [by rewrite Hents, <- app_assoc|]. split; [|split].
      * constructor; [|done]. rewrite Hin, elem_of_app, list_elem_of_singleton.
        naive_solver.
      * intros y. rewrite !elem_of_cons, Hin, elem_of_app, list_elem_of_singleton.
        destruct (decide (y = x)) as [->|Hne]; naive_solver.
      * rewrite Hnot, Hnote1. simpl. by rewrite <- app_assoc.
Qed.

(** X14.  In every state the program reaches, [addEntities], with listeners
    whose code calls neither [addEntity] nor [removeEntity] nor [start],
    writes to no array, leaves the listener list of the engine alone and
    calls engines that exist, returns; the engine's entities are the old
    ones followed by those of the given ones it did not hold, each once, and
    for each of these, in the order they have in that list, every listener
    has been called once with it. *)
Theorem addEntities_adds_new_ones handlers fuel e es w E :
  reachable w → engine_objs w !! e = Some E →
  mild_listeners handlers e →
  ∃ w' new,
    addEntities handlers (exec handlers fuel) (S fuel) e es w = Ok tt w' ∧
    entities_of w' e = entities_of w e ++ new ∧ NoDup new ∧
    (∀ x, x ∈ new ↔ x ∈ es ∧ x ∉ entities_of w e) ∧
    notifications w' =
      notifications w ++
      (new ≫= λ x, (λ l, onEntityAdded l x) <$> _entityListeners E).
Proof.
  intros Hreach HE Hmild. apply addEntities_mild; [done| | |done].
  - by apply reachable_consistent.
  - by apply reachable_arrays_live.
Qed.

Lemma addEntities_adds_new_ones_witness :
  ∃ w' new,
    addEntities tuning (exec tuning 0) 1 0%nat [5; 4; 5; 6]%nat two_listeners = Ok tt w' ∧
    entities_of w' 0%nat = entities_of two_listeners 0%nat ++ new ∧
    NoDup new.
Proof.
  destruct (addEntities_adds_new_ones tuning 0 0%nat [5; 4; 5; 6]%nat two_listeners
              two_listeners_engine) as (w' & new & H1 & H2 & H3 & _).
  - exact two_listeners_reachable.
  - vm_compute. reflexivity.
  - apply tuning_mild.
  - exists w', new. split; [exact H1|]. split; [exact H2|exact H3].
Defined.

Lemma filter_ext_in {A} (P Q : A → Prop) `{!∀ x, Decision (P x), !∀ x, Decision (Q x)}
    (l : list A) :
  (∀ x, x ∈ l → P x ↔ Q x) → filter P l = filter Q l.
Proof.
  induction l as [|a l IH]; intros Hiff; [done|].
  rewrite !filter_cons, IH by (intros x Hx; apply Hiff; by right).
  apply decide_ext, Hiff. by left.
Qed.

Lemma filter_all {A} (P : A → Prop) `{!∀ x, Decision (P x)} (l : list A) :
  (∀ x, x ∈ l → P x) → filter P l = l.
Proof.
  induction l as [|a l IH]; intros Hall; [done|].
  rewrite filter_cons_True by (apply Hall; by left).
  f_equal. apply IH. intros x Hx. apply Hall. by right.
Qed.

Lemma delete_NoDup_filter `{EqDecision A} (l : list A) i x :
  NoDup l → l !! i = Some x → delete i l = filter (λ y, y ≠ x) l.
Proof.
  intros Hnd. revert i. induction Hnd as [|y l Hy Hnd IH]; intros i Hi; [done|].
  destruct i as [|i]; simpl in Hi.
  - injection Hi as ->. rewrite filter_cons_False by (by intros ?). simpl.
    symmetry. apply filter_all. by intros z Hz ->.
  - apply list_elem_of_lookup_2 in Hi as Hx.
    rewrite filter_cons_True by (intros ->; done). simpl. f_equal. by apply IH.
Qed.

Lemma removeEntities_mild handlers fuel e es :
  mild_listeners handlers e →
  ∀ w E,
    systems_consistent w → arrays_live w → engine_objs w !! e = Some E →
    NoDup (entities_of w e) →
    ∃ w' gone,
      removeEntities handlers (exec handlers fuel) (S fuel) e es w = Ok tt w' ∧
      entities_of w' e = filter (λ x, x ∉ es) (entities_of w e) ∧ NoDup gone ∧
      (∀ x, x ∈ gone ↔ x ∈ es ∧ x ∈ entities_of w e) ∧
      notifications w' =
        notifications w ++
        (gone ≫= λ x, (λ l, onEntityRemoved l x) <$> _entityListeners E).
Proof.
  intros Hmild. unfold removeEntities.
  induction es as [|x es IH]; intros w E Hcons Hlive HE Hnd.
  - exists w, []. split; [done|]. split; [|split; [constructor|split]].
    + symmetry. apply filter_all. intros z _. apply not_elem_of_nil.
    + intros y. split; [by intros ?%elem_of_nil|by intros [?%elem_of_nil _]].
    + by rewrite app_nil_r.
  - rewrite for_of_cons.
    change (removeEntity handlers (exec handlers fuel) (S fuel) e x w)
      with (exec handlers (S fuel) (RemoveEntity e x) w).
    destruct (Hlive e E HE) as [(a & Ha & Hfr) _].
    destruct (decide (x ∈ entities_of w e)) as [Hx|Hx].
    + apply list_elem_of_split_l in Hx as (l1 & l2 & Hsplit & Hfirst).
      destruct (removeEntity_old handlers fuel e x w E l1 l2 Hmild Hcons Hlive HE
                  Hsplit Hfirst)
        as (w1 & -> & Hcons1 & Hlive1 & Hents1 & Hnote1 & _ & E1 & HE1 & Hl1 & _).
      assert (l1 ++ l2 = filter (λ y, y ≠ x) (entities_of w e)) as Hdel.
      { rewrite <- (delete_middle l1 l2 x), <- Hsplit.
        apply delete_NoDup_filter; [done|].
        rewrite Hsplit. by rewrite list_lookup_middle. }
      destruct (IH w1 E1 Hcons1 Hlive1 HE1)
        as (w' & gone & Hrun & Hents & Hndg & Hin & Hnot).
      { rewrite Hents1. rewrite Hsplit in Hnd.
        eapply sublist_NoDup; [exact Hnd|].
        apply sublist_app; [done|]. by apply sublist_cons. }
      rewrite Hents1, Hdel in Hents, Hin. rewrite Hl1 in Hnot.
      exists w', (x :: gone). split; [done|]. split; [|split; [|split]].
      * rewrite Hents, list_filter_filter. apply list_filter_iff.
        intros y. rewrite not_elem_of_cons. naive_solver.
      * constructor; [|done]. rewrite Hin, list_elem_of_filter. naive_solver.
      * intros y. rewrite !elem_of_cons, Hin, list_elem_of_filter.
        assert (x ∈ entities_of w e) by (rewrite Hsplit; set_solver).
        destruct (decide (y = x)) as [->|Hne]; naive_solver.
      * rewrite Hnot, Hnote1. simpl. by rewrite <- app_assoc.
    + rewrite (entities_of_eq w e E a HE Ha) in Hx.
      rewrite (removeEntity_absent_live handlers (S fuel) e x w E a HE Ha Hx).
      rewrite <- (entities_of_eq w e E a HE Ha) in Hx.
      destruct (IH w E Hcons Hlive HE Hnd)
        as (w' & gone & Hrun & Hents & Hndg & Hin & Hnot).
      exists w', gone. split; [done|]. split; [|split; [done|split; [|done]]].
      * rewrite Hents. apply filter_ext_in. intros y Hy.
        rewrite not_elem_of_cons. split; [|naive_solver].
        intros Hnot'. split; [|done]. by intros ->.
      * intros y. rewrite Hin, elem_of_cons. split; [naive_solver|].
        intros [[->|Hy] Hold]; done.
Qed.

(** X15.  In every state the program reaches in which the engine holds no
    entity twice, [removeEntities], with listeners of the same kind,
    returns; the engine's entities are the old ones without the given ones,
    in the old order, and for each entity the engine gave up every listener
    has been called once with it. *)
Theorem removeEntities_removes_held_ones handlers fuel e es w E :
  reachable w → engine_objs w !! e = Some E → NoDup (entities_of w e) →
  mild_listeners handlers e →
  ∃ w' gone,
    removeEntities handlers (exec handlers fuel) (S fuel) e es w = Ok tt w' ∧
    entities_of w' e = filter (λ x, x ∉ es) (entities_of w e) ∧
    NoDup gone ∧ (∀ x, x ∈ gone ↔ x ∈ es ∧ x ∈ entities_of w e) ∧
    notifications w' =
      notifications w ++
      (gone ≫= λ x, (λ l, onEntityRemoved l x) <$> _entityListeners E).
Proof.
  intros Hreach HE Hnd Hmild. apply removeEntities_mild; [done| | |done..].
  - by apply reachable_consistent.
  - by apply reachable_arrays_live.
Qed.

Lemma removeEntities_removes_held_ones_witness :
  ∃ w', removeEntities tuning (exec tuning 0) 1 0%nat [7; 4; 4]%nat two_listeners
          = Ok tt w' ∧
        entities_of w' 0%nat = [].
Proof.
  destruct (removeEntities_removes_held_ones tuning 0 0%nat [7; 4; 4]%nat two_listeners
              two_listeners_engine) as (w' & gone & H1 & H2 & _).
  - exact two_listeners_reachable.
  - vm_compute. reflexivity.
  - refine (bool_decide_unpack _ _). vm_compute. exact I.
  - apply tuning_mild.
  - exists w'. split; [exact H1|]. rewrite H2. vm_compute. reflexivity.
Defined.

Lemma addSystems_reachable e ss : ∀ w E,
  reachable w → engine_objs w !! e = Some E →
  ∃ w' E' new,
    addSystems e ss w = Ok tt w' ∧ reachable w' ∧
    engine_objs w' !! e = Some E' ∧
    _systems E' = _systems E ++ new ∧ NoDup new ∧
    (∀ s, s ∈ new ↔ s ∈ ss ∧ s ∉ _systems E) ∧
    (new ≠ [] → _systemsNeedSorting E' = true) ∧ (new = [] → w' = w).
Proof.
  unfold addSystems. induction ss as [|x ss IH]; intros w E Hreach HE.
  - exists w, E, []. split; [done|]. split; [done|]. split; [done|].
    split; [by rewrite app_nil_r|]. split; [constructor|]. split; [|done].
    intros y. split; [by intros ?%elem_of_nil|by intros [?%elem_of_nil _]].
  - rewrite for_of_cons.
    destruct (addSystem e x w) as [[] w1|err w1|] eqn:Hadd;
      [|by rewrite addSystem_eq, HE in Hadd; destruct (indexOf _ _)..].
    pose proof (reachable_call silent 0 (AddSystem e x) w w1 Hreach Hadd) as Hreach1.
    rewrite addSystem_eq, HE in Hadd.
    destruct (indexOf x (_systems E)) as [i|] eqn:Hidx.
    + injection Hadd as <-.
      apply indexOf_Some in Hidx as [Hi%list_elem_of_lookup_2 _].
      destruct (IH w E Hreach HE)
        as (w' & E' & new & Hrun & Hreach' & HE' & Hss & Hnd & Hin & Hflag & Hsame).
      exists w', E', new. do 5 (split; [done|]). split; [|done].
      intros y. rewrite Hin, elem_of_cons. split; [naive_solver|].
      intros [[->|Hy] Hnew]; done.
    + apply indexOf_None in Hidx. cbn zeta in Hadd. injection Hadd as Hw1.
      assert (engine_objs w1 !! e =
                Some (with_systemsNeedSorting
                        (with_systems E (_systems E ++ [x])) true)) as HE1.
      { rewrite <- Hw1. apply lookup_insert_eq. }
      destruct (IH w1 _ Hreach1 HE1)
        as (w' & E' & new & Hrun & Hreach' & HE' & Hss & Hnd & Hin & Hflag & Hsame).
      simpl in Hss, Hin.
      exists w', E', (x :: new). do 3 (split; [done|]).
      split; [by rewrite Hss, <- app_assoc|]. split; [|split; [|split; [|done]]].
      * constructor; [|done]. rewrite Hin, elem_of_app, list_elem_of_singleton.
        naive_solver.
      * intros y. rewrite !elem_of_cons, Hin, elem_of_app, list_elem_of_singleton.
        destruct (decide (y = x)) as [->|Hne]; naive_solver.
      * intros _. destruct new as [|s new]; [|by apply Hflag].
        rewrite (Hsame eq_refl), HE1 in HE'. by injection HE' as <-.
Qed.

(** X16.  In every state the program reaches, [addSystems] returns; the
    engine's systems are the old ones followed by those of the given ones it
    did not hold, each once; every given system has the engine among its
    engines; and the sort-needed flag is up if a system was added, while
    nothing at all has changed if none was. *)
Theorem addSystems_adds_new_ones e ss w E :
  reachable w → engine_objs w !! e = Some E →
  ∃ w' E' new,
    addSystems e ss w = Ok tt w' ∧ engine_objs w' !! e = Some E' ∧
    _systems E' = _systems E ++ new ∧ NoDup new ∧
    (∀ s, s ∈ new ↔ s ∈ ss ∧ s ∉ _systems E) ∧
    (∀ s, s ∈ ss → e ∈ _engines (system_of w' s)) ∧
    (new ≠ [] → _systemsNeedSorting E' = true) ∧ (new = [] → w' = w).
Proof.
  intros Hreach HE.
  destruct (addSystems_reachable e ss w E Hreach HE)
    as (w' & E' & new & Hrun & Hreach' & HE' & Hss & Hnd & Hin & Hflag & Hsame).
  exists w', E', new. do 5 (split; [done|]). split; [|done].
  intros s Hs. destruct (reachable_consistent w' Hreach') as [Hengines _].
  destruct (Hengines e E' HE') as (_ & Hatt & _). apply Hatt.
  rewrite Hss, elem_of_app, Hin.
  destruct (decide (s ∈ _systems E)); [by left|by right].
Qed.

Lemma addSystems_adds_new_ones_witness :
  ∃ w' E', addSystems 0%nat [20; 11; 20]%nat four_systems = Ok tt w' ∧
           engine_objs w' !! 0%nat = Some E' ∧
           0%nat ∈ _engines (system_of w' 20%nat).
Proof.
  destruct (addSystems_adds_new_ones 0%nat [20; 11; 20]%nat four_systems
              four_systems_engine) as (w' & E' & new & H1 & H2 & _ & _ & _ & H3 & _).
  - exact four_systems_reachable.
  - vm_compute. reflexivity.
  - exists w', E'. split; [exact H1|]. split; [exact H2|]. apply H3.
    refine (bool_decide_unpack _ _). vm_compute. exact I.
Defined.

Lemma removeSystems_reachable e ss : ∀ w E,
  reachable w → engine_objs w !! e = Some E →
  ∃ w' E',
    removeSystems e ss w = Ok tt w' ∧ reachable w' ∧
    engine_objs w' !! e = Some E' ∧
    _systems E' = filter (λ s, s ∉ ss) (_systems E) ∧
    _systemsNeedSorting E' = _systemsNeedSorting E ∧
    (∀ s, priority w' s = priority w s) ∧
    (∀ s e', e' ∈ _engines (system_of w' s) → e' ∈ _engines (system_of w s)) ∧
    (∀ s e', e' ∈ _engines (system_of w s) → s ∉ ss ∨ e' ≠ e →
             e' ∈ _engines (system_of w' s)).
Proof.
  unfold removeSystems. induction ss as [|x ss IH]; intros w E Hreach HE.
  - exists w, E. split; [done|]. split; [done|]. split; [done|].
    split; [|done]. symmetry. apply filter_all. intros z _. apply not_elem_of_nil.
  - rewrite for_of_cons.
    destruct (removeSystem e x w) as [[] w1|err w1|] eqn:Hrem;
      [|by rewrite removeSystem_eq, HE in Hrem; destruct (indexOf _ _)..].
    pose proof (reachable_call silent 0 (RemoveSystem e x) w w1 Hreach Hrem) as Hreach1.
    destruct (reachable_consistent w Hreach) as [Hengines _].
    destruct (Hengines e E HE) as (Hnd & _ & _).
    rewrite removeSystem_eq, HE in Hrem.
    destruct (indexOf x (_systems E)) as [i|] eqn:Hidx.
    + injection Hrem as Hw1. apply indexOf_Some in Hidx as [Hi _].
      set (E1 := with_systems E (delete i (_systems E))) in *.
      destruct (detached_facts x e (set_engine_objs <[e := E1]> w))
        as (Heng1 & Hprio1 & Hsub1 & Hkeep1).
      rewrite Hw1 in Heng1, Hprio1, Hsub1, Hkeep1.
      assert (engine_objs w1 !! e = Some E1) as HE1.
      { rewrite Heng1. apply lookup_insert_eq. }
      destruct (IH w1 E1 Hreach1 HE1)
        as (w' & E' & Hrun & Hreach' & HE' & Hss & Hflag & Hprio & Hsub & Hkeep).
      exists w', E'. do 3 (split; [done|]). split; [|split; [done|split; [|split]]].
      * rewrite Hss. unfold E1. simpl.
        rewrite (delete_NoDup_filter (_systems E) i x Hnd Hi), list_filter_filter.
        apply list_filter_iff. intros y. rewrite not_elem_of_cons. naive_solver.
      * intros s. rewrite Hprio. apply Hprio1.
      * intros s e' Hin. by apply Hsub1, Hsub.
      * intros s e' Hin Hor. apply Hkeep.
        -- apply Hkeep1; [done|]. rewrite not_elem_of_cons in Hor. naive_solver.
        -- rewrite not_elem_of_cons in Hor. naive_solver.
    + injection Hrem as <-. apply indexOf_None in Hidx.
      destruct (IH w E Hreach HE)
        as (w' & E' & Hrun & Hreach' & HE' & Hss & Hflag & Hprio & Hsub & Hkeep).
      exists w', E'. do 3 (split; [done|]). split; [|split; [done|split; [done|split; [done|]]]].
      * rewrite Hss. apply filter_ext_in. intros y Hy.
        rewrite not_elem_of_cons. split; [|naive_solver].
        intros Hnot'. split; [|done]. by intros ->.
      * intros s e' Hin Hor. apply Hkeep; [done|].
        rewrite not_elem_of_cons in Hor. destruct Hor as [[Hne Hs]|He]; [by left|by right].
Qed.

(** X17.  In every state the program reaches, [removeSystems] returns; the
    engine's systems are the old ones without the given ones, in the old
    order; no given system has the engine among its engines any more, and
    every other attachment, every priority and the sort-needed flag are
    as before. *)
Theorem removeSystems_detaches e ss w E :
  reachable w → engine_objs w !! e = Some E →
  ∃ w' E',
    removeSystems e ss w = Ok tt w' ∧ engine_objs w' !! e = Some E' ∧
    _systems E' = filter (λ s, s ∉ ss) (_systems E) ∧
    _systemsNeedSorting E' = _systemsNeedSorting E ∧
    (∀ s, priority w' s = priority w s) ∧
    (∀ s, s ∈ ss → e ∉ _engines (system_of w' s)) ∧
    (∀ s e', s ∉ ss ∨ e' ≠ e →
       (e' ∈ _engines (system_of w' s) ↔ e' ∈ _engines (system_of w s))).
Proof.
  intros Hreach HE.
  destruct (removeSystems_reachable e ss w E Hreach HE)
    as (w' & E' & Hrun & Hreach' & HE' & Hss & Hflag & Hprio & Hsub & Hkeep).
  exists w', E'. do 5 (split; [done|]). split.
  - intros s Hs Hin.
    destruct (reachable_attachment w' Hreach' s) as [_ Hback].
    destruct (Hback e Hin) as (E0 & HE0 & Hs0).
    rewrite HE' in HE0. injection HE0 as <-.
    rewrite Hss in Hs0. by apply list_elem_of_filter in Hs0 as [Hnot _].
  - intros s e' Hor. split; [apply Hsub|]. intros Hin. by apply Hkeep.
Qed.

Lemma removeSystems_detaches_witness :
  ∃ w' E', removeSystems 0%nat [12; 20; 10]%nat four_systems = Ok tt w' ∧
           engine_objs w' !! 0%nat = Some E' ∧
           _systems E' = [11; 13]%nat.
Proof.
  destruct (removeSystems_detaches 0%nat [12; 20; 10]%nat four_systems
              four_systems_engine) as (w' & E' & H1 & H2 & H3 & _).
  - exact four_systems_reachable.
  - vm_compute. reflexivity.
  - exists w', E'. split; [exact H1|]. split; [exact H2|]. rewrite H3.
    vm_compute. reflexivity.
Defined.

(** ** Several engines *)

Lemma arrays_separate_ext w w' :
  (∀ e E', engine_objs w' !! e = Some E' →
           ∃ E, engine_objs w !! e = Some E ∧ array_fields E' = array_fields E) →
  arrays_separate w → arrays_separate w'.
Proof.
  intros Hfields Hsep e1 e2 E1' E2' HE1' HE2' Hne.
  destruct (Hfields e1 E1' HE1') as (E1 & HE1 & [= -> ->]).
  destruct (Hfields e2 E2' HE2') as (E2 & HE2 & [= -> ->]).
  by apply (Hsep e1 e2).
Qed.

Lemma exec_silent_keeps_separate c : keeps arrays_separate (exec silent 0 c).
Proof.
  intros w w' Hsep Hf. eapply arrays_separate_ext; [|done].
  by apply (exec_fields c w w').
Qed.

Lemma exec_keeps_separate handlers fuel c :
  keeps arrays_separate (exec handlers fuel c).
Proof. apply exec_keeps_any; [done|apply exec_silent_keeps_separate]. Qed.

Lemma sort_step_keeps_separate e : keeps arrays_separate (sort_step e).
Proof.
  intros w w' Hsep. unfold sort_step. unfold_monad.
  destruct (engine_objs w !! e) as [E|] eqn:HE; [|by intros [= <-]].
  destruct (_systemsNeedSorting E) eqn:Hflag; [|by intros [= <-]].
  simpl. rewrite lookup_insert_eq. intros [= <-].
  eapply arrays_separate_ext; [|done].
  simpl. rewrite insert_insert_eq. by eapply array_fields_insert.
Qed.

Lemma update_keeps_separate handlers behaviour fuel e delta :
  keeps arrays_separate (update handlers behaviour fuel e delta).
Proof.
  apply update_keeps_any;
    [done|apply sort_step_keeps_separate|intros; apply exec_keeps_separate].
Qed.

Lemma reachable_separate w : reachable w → arrays_separate w.
Proof.
  induction 1 as [|w h w' Hreach IH Hstep]; [by intros e1 e2 E1 E2 ?|].
  destruct h as [components bt|handlers fuel c|handlers behaviour fuel e delta];
    unfold host_step in Hstep.
  - pose proof (reachable_arrays_live w Hreach) as Hlive.
    revert Hstep. unfold new_Engine. unfold_monad. intros [= <-].
    assert (∀ e E, engine_objs w !! e = Some E →
              fresh (dom (entity_arrays w)) ≠ _entities E ∧
              fresh (dom (blueprint_arrays w)) ≠ _blueprints E) as Hfresh.
    { intros e E HE. destruct (Hlive e E HE) as [(a & Ha & _) (b & Hb & _)].
      split; by eapply fresh_loc_ne. }
    intros e1 e2 E1 E2. simpl. rewrite !lookup_insert.
    repeat case_decide; try congruence.
    + intros [= <-] HE2 _. simpl. destruct (Hfresh e2 E2 HE2). done.
    + intros HE1 [= <-] _. simpl. destruct (Hfresh e1 E1 HE1). done.
    + apply IH.
  - by apply (exec_keeps_separate handlers fuel c w).
  - by apply (update_keeps_separate handlers behaviour fuel e delta w).
Qed.

Lemma call_leaves_other_silent c e1 e2 w w' :
  arrays_live w → arrays_separate w → target c = Some e1 → e2 ≠ e1 →
  final (exec silent 0 c w) = Some w' →
  engine_objs w' !! e2 = engine_objs w !! e2 ∧
  entities_of w' e2 = entities_of w e2 ∧
  blueprints_of w' e2 = blueprints_of w e2.
Proof.
  intros Hlive Hsep Htarget Hne Hf.
  assert (engine_objs w' !! e2 = engine_objs w !! e2 →
          (∀ E2, engine_objs w !! e2 = Some E2 →
             entity_arrays w' !! _entities E2 = entity_arrays w !! _entities E2 ∧
             blueprint_arrays w' !! _blueprints E2
             = blueprint_arrays w !! _blueprints E2) →
          engine_objs w' !! e2 = engine_objs w !! e2 ∧
          entities_of w' e2 = entities_of w e2 ∧
          blueprints_of w' e2 = blueprints_of w e2) as Hsame.
  { intros Heng Harr. split; [done|]. unfold entities_of, blueprints_of.
    rewrite Heng. destruct (engine_objs w !! e2) as [E2|] eqn:HE2; [|done].
    destruct (Harr E2 eq_refl) as [-> ->]. done. }
  revert Hf. destruct c; simpl in Htarget; simplify_eq; simpl.
  - rewrite addEntity_eq.
    destruct (engine_objs w !! e1) as [E1|] eqn:HE1; [|intros [= <-]; by apply Hsame].
    repeat case_match; intros [= <-]; apply Hsame; try done.
    intros E2 HE2. destruct (Hsep e1 e2 E1 E2 HE1 HE2) as [Hents _]; [done|].
    simpl. by rewrite lookup_insert_ne.
  - rewrite removeEntity_eq.
    destruct (engine_objs w !! e1) as [E1|] eqn:HE1; [|intros [= <-]; by apply Hsame].
    repeat case_match; intros [= <-]; apply Hsame; try done.
    intros E2 HE2. destruct (Hsep e1 e2 E1 E2 HE1 HE2) as [Hents _]; [done|].
    simpl. by rewrite lookup_insert_ne.
  - rewrite addSystem_eq.
    destruct (engine_objs w !! e1) as [E1|] eqn:HE1; [|intros [= <-]; by apply Hsame].
    destruct (indexOf system (_systems E1)); intros [= <-]; [by apply Hsame|].
    apply Hsame.
    + simpl. rewrite (proj1 (attached_facts _ _ _)). simpl.
      by rewrite !lookup_insert_ne.
    + intros E2 HE2. simpl. unfold attached. by case_match.
  - rewrite removeSystem_eq.
    destruct (engine_objs w !! e1) as [E1|] eqn:HE1; [|intros [= <-]; by apply Hsame].
    destruct (indexOf system (_systems E1)); intros [= <-]; [|by apply Hsame].
    apply Hsame.
    + rewrite (proj1 (detached_facts _ _ _)). simpl. by rewrite lookup_insert_ne.
    + intros E2 HE2. unfold detached. by case_match.
  - unfold addEntityListener. unfold_monad.
    destruct (engine_objs w !! e1) as [E1|] eqn:HE1; [|intros [= <-]; by apply Hsame].
    destruct (indexOf _ _); intros [= <-]; apply Hsame; try done.
    simpl. by rewrite lookup_insert_ne.
  - unfold removeEntityListener. unfold_monad.
    destruct (engine_objs w !! e1) as [E1|] eqn:HE1; [|intros [= <-]; by apply Hsame].
    destruct (indexOf _ _); intros [= <-]; apply Hsame; try done.
    simpl. by rewrite lookup_insert_ne.
  - unfold addBlueprint. unfold_monad.
    destruct (engine_objs w !! e1) as [E1|] eqn:HE1; [|intros [= <-]; by apply Hsame].
    repeat case_match; simplify_eq/=; intros [= <-]; apply Hsame; try done.
    intros E2 HE2. destruct (Hsep e1 e2 E1 E2 HE1 HE2) as [_ Hbps]; [done|].
    simpl. by rewrite lookup_insert_ne.
  - unfold start, new_EntityFactory. unfold_monad.
    destruct (engine_objs w !! e1) as [E1|] eqn:HE1; [|intros [= <-]; by apply Hsame].
    repeat case_match; simplify_eq/=; intros [= <-]; apply Hsame; try done.
    simpl. by rewrite lookup_insert_ne.
  - unfold entities. unfold_monad.
    destruct (engine_objs w !! e1) as [E1|] eqn:HE1; [|intros [= <-]; by apply Hsame].
    repeat case_match; simplify_eq/=; intros [= <-]; apply Hsame; try done.
    intros E2 HE2. destruct (Hlive e2 E2 HE2) as [(a & Ha & _) _].
    simpl. rewrite lookup_insert_ne; [done|]. by eapply fresh_loc_ne.
Qed.

(** X18.  Engines are separate.  In every state the program reaches, a call
    on one engine, with listeners whose code calls that engine only, leaves
    every other engine as it was: the object itself, with its listeners, its
    systems, its flag and its factory, and the entities and the blueprints
    it holds. *)
Theorem call_leaves_other_engines handlers fuel c e1 e2 w w' :
  reachable w → target c = Some e1 → e2 ≠ e1 →
  (∀ n w0, Forall (λ c', target c' = Some e1) (handlers n w0)) →
  final (exec handlers fuel c w) = Some w' →
  engine_objs w' !! e2 = engine_objs w !! e2 ∧
  entities_of w' e2 = entities_of w e2 ∧
  blueprints_of w' e2 = blueprints_of w e2.
Proof.
  intros Hreach Htarget Hne Hhs Hf.
  assert (arrays_live w' ∧ arrays_separate w' ∧
          engine_objs w' !! e2 = engine_objs w !! e2 ∧
          entities_of w' e2 = entities_of w e2 ∧
          blueprints_of w' e2 = blueprints_of w e2) as (_ & _ & Hsame); [|done].
  apply (exec_keeps
           (λ w1, arrays_live w1 ∧ arrays_separate w1 ∧
                  engine_objs w1 !! e2 = engine_objs w !! e2 ∧
                  entities_of w1 e2 = entities_of w e2 ∧
                  blueprints_of w1 e2 = blueprints_of w e2)
           (λ c', target c' = Some e1) handlers) with fuel c w; try done.
  - intros c0 Hc0 w1 w2 (Hlive1 & Hsep1 & Heng1 & Hents1 & Hbps1) Hf1.
    split; [by apply (exec_silent_keeps_arrays_live c0 w1)|].
    split; [by apply (exec_silent_keeps_separate c0 w1)|].
    destruct (call_leaves_other_silent c0 e1 e2 w1 w2 Hlive1 Hsep1 Hc0 Hne Hf1)
      as (-> & -> & ->).
    done.
  - split; [by apply reachable_arrays_live|]. split; [by apply reachable_separate|done].
Qed.

Lemma two_engines_reachable : reachable two_engines.
Proof.
  replace two_engines with (run_host [Construct [] None] two_listeners)
    by (vm_compute; reflexivity).
  apply reachable_run_host, two_listeners_reachable.
Qed.

Lemma call_leaves_other_engines_witness :
  entities_of (world_after (exec silent 0 (AddEntity 1%nat 9%nat)) two_engines) 0%nat
  = entities_of two_engines 0%nat.
Proof.
  destruct (call_leaves_other_engines silent 0 (AddEntity 1%nat 9%nat) 1%nat 0%nat
              two_engines
              (world_after (exec silent 0 (AddEntity 1%nat 9%nat)) two_engines))
    as (_ & H & _).
  - exact two_engines_reachable.
  - reflexivity.
  - discriminate.
  - intros n w0. constructor.
  - vm_compute. reflexivity.
  - exact H.
Defined.

(** ** A callback that throws *)

Lemma sort_step_entity_arrays e w w' :
  final (sort_step e w) = Some w' → entity_arrays w' = entity_arrays w.
Proof.
  unfold sort_step. unfold_monad.
  destruct (engine_objs w !! e) as [E|] eqn:HE; [|by intros [= <-]].
  destruct (_systemsNeedSorting E) eqn:Hflag; [|by intros [= <-]].
  simpl. rewrite lookup_insert_eq. by intros [= <-].
Qed.

(** X19.  [update] catches nothing.  When the callback of a system starts
    with a push onto a frozen array, such as one the [entities] getter
    returned, and the callbacks of the systems before it in the order make no
    call, the tick throws the [TypeError] of that push: the systems up to
    that one have been invoked and those after it have not, the system list
    stays as the sort left it and the sort-needed flag stays down. *)
Theorem update_stops_at_throw handlers behaviour fuel e delta w E pre s0 rest l a x cs :
  engine_objs w !! e = Some E →
  tick_order w E = pre ++ s0 :: rest →
  entity_arrays w !! l = Some a → frozen a = true →
  (∀ s w0, s ∈ pre → behaviour s e delta w0 = []) →
  (∀ w0, behaviour s0 e delta w0 = ArrayPush l x :: cs) →
  (length pre < fuel)%nat →
  ∃ w' E',
    update handlers behaviour fuel e delta w = Throw TypeError w' ∧
    invocations w' = invocations w ++ (invoke e delta <$> pre ++ [s0]) ∧
    engine_objs w' !! e = Some E' ∧
    _systems E' = pre ++ s0 :: rest ∧ _systemsNeedSorting E' = false ∧
    entity_arrays w' = entity_arrays w.
Proof.
  intros HE Horder Ha Hfa Hidle Hs0 Hfuel.
  destruct (sort_step_spec e w E HE)
    as (w1 & E1 & Hsort & HE1 & Hss1 & Hflag1 & Hinv1 & _).
  fold (tick_order w E) in Hss1. rewrite Horder in Hss1.
  assert (entity_arrays w1 = entity_arrays w) as Hents1.
  { apply (sort_step_entity_arrays e). by rewrite Hsort. }
  unfold update. rewrite bind_eq, Hsort.
  generalize fuel at 1. intros depth.
  replace fuel with (length pre + S (fuel - length pre - 1))%nat by lia.
  rewrite (run_systems_idle handlers behaviour depth e delta pre [] (s0 :: rest) _
             w1 E1 HE1 Hss1 Hidle).
  set (w2 := logged (invoke e delta <$> pre) w1).
  cbn [length Nat.add run_systems]. rewrite bind_eq. unfold get_engine at 1.
  change (engine_objs w2) with (engine_objs w1). rewrite HE1, Hss1.
  rewrite lookup_app_r by lia. rewrite Nat.sub_diag. cbn [lookup list_lookup].
  unfold System_update. unfold_monad. cbn beta.
  rewrite Hs0. cbn [run_script for_of]. rewrite exec_plain by done.
  cbn [exec perform]. unfold_monad.
  change (set_invocations _ w2) with (logged [invoke e delta s0] w2).
  unfold w2. rewrite logged_app. set (w3 := logged _ w1).
  change (entity_arrays w3) with (entity_arrays w1). rewrite Hents1, Ha, Hfa.
  exists w3, E1. split; [done|]. split; [|done].
  unfold w3. change (invocations (logged ?xs w1)) with (invocations w1 ++ xs).
  by rewrite Hinv1, fmap_app.
Qed.

Lemma update_stops_at_throw_witness :
  ∃ w', update unsubscribing push_snapshot 5 0%nat 0 snapshot_taken = Throw TypeError w' ∧
        inv_system <$> invocations w' = [10; 11]%nat.
Proof.
  destruct (update_stops_at_throw unsubscribing push_snapshot 5 0%nat 0 snapshot_taken
              two_listeners_engine [10%nat] 11%nat [12; 13]%nat 1%nat
              (mkArray [4%nat] true) 9%nat [])
    as (w' & E' & Hup & Hinv & _).
  - vm_compute. reflexivity.
  - vm_compute. reflexivity.
  - vm_compute. reflexivity.
  - reflexivity.
  - intros s w0 Hs. apply list_elem_of_singleton in Hs as ->. reflexivity.
  - intros w0. reflexivity.
  - simpl. lia.
  - exists w'. split; [exact Hup|]. rewrite Hinv. vm_compute. reflexivity.
Defined.

(** ** The blueprint registry *)

Lemma addBlueprints_live e E bs : ∀ w arr,
  engine_objs w !! e = Some E →
  blueprint_arrays w !! _blueprints E = Some arr → frozen arr = false →
  ∃ w' arr' new,
    addBlueprints e bs w = Ok tt w' ∧ engine_objs w' = engine_objs w ∧
    entity_arrays w' = entity_arrays w ∧ notifications w' = notifications w ∧
    blueprint_arrays w' !! _blueprints E = Some arr' ∧ frozen arr' = false ∧
    elems arr' = elems arr ++ new ∧ NoDup (bp_ref <$> new) ∧
    (∀ b, b ∈ new → b ∈ bs ∧ bp_ref b ∉ bp_ref <$> elems arr) ∧
    (∀ b, b ∈ bs → bp_ref b ∈ bp_ref <$> elems arr').
Proof.
  unfold addBlueprints. induction bs as [|b bs IH]; intros w arr HE Harr Hfr.
  - exists w, arr, []. do 6 (split; [done|]). split; [by rewrite app_nil_r|].
    split; [constructor|]. split; by intros b ?%elem_of_nil.
  - rewrite for_of_cons. unfold addBlueprint at 1. unfold_monad.
    rewrite HE, Harr.
    destruct (indexOf (bp_ref b) (bp_ref <$> elems arr)) as [i|] eqn:Hidx.
    + apply indexOf_Some in Hidx as [Hi%list_elem_of_lookup_2 _].
      destruct (IH w arr HE Harr Hfr)
        as (w' & arr' & new & Hrun & Heng & Hents & Hnot & Harr' & Hfr' & Hel & Hnd
            & Hnew & Hall).
      exists w', arr', new. do 8 (split; [done|]). split.
      * intros b' Hb'. destruct (Hnew b' Hb') as [Hin Hfresh].
        split; [by right|done].
      * intros b' [->|Hb']%elem_of_cons; [|by apply Hall].
        rewrite Hel, fmap_app, elem_of_app. by left.
    + apply indexOf_None in Hidx. rewrite Harr, Hfr.
      set (w1 := set_blueprint_arrays _ w).
      destruct (IH w1 (mkArray (elems arr ++ [b]) false))
        as (w' & arr' & new & Hrun & Heng & Hents & Hnot & Harr' & Hfr' & Hel & Hnd
            & Hnew & Hall);
        [done|apply lookup_insert_eq|done|].
      simpl in Hel, Hnew.
      exists w', arr', (b :: new). do 6 (split; [done|]).
      split; [by rewrite Hel, <- app_assoc|]. split; [|split].
      * rewrite fmap_cons. constructor; [|done].
        intros (b' & Href & Hb')%list_elem_of_fmap.
        destruct (Hnew b' Hb') as [_ Hfresh]. apply Hfresh.
        rewrite fmap_app, elem_of_app. right. rewrite <- Href.
        apply list_elem_of_singleton. done.
      * intros b' [->|Hb']%elem_of_cons; [split; [by left|done]|].
        destruct (Hnew b' Hb') as [Hin Hfresh]. split; [by right|].
        intros Hold. apply Hfresh. rewrite fmap_app, elem_of_app. by left.
      * intros b' [->|Hb']%elem_of_cons; [|by apply Hall].
        rewrite Hel, !fmap_app, !elem_of_app. left. right.
        by apply list_elem_of_singleton.
Qed.

(** X20.  In every state the program reaches, [addBlueprints] returns; the
    registry of the engine is the old one followed by those of the given
    blueprint objects it did not hold, each object once, whatever their
    names are; every given object is in it; and neither the engine, with the
    factory it may have, nor any entity array has changed, and no listener
    has been called. *)
Theorem addBlueprints_adds_new_objects e bs w E :
  reachable w → engine_objs w !! e = Some E →
  ∃ w' new,
    addBlueprints e bs w = Ok tt w' ∧
    blueprints_of w' e = blueprints_of w e ++ new ∧
    NoDup (bp_ref <$> new) ∧
    (∀ b, b ∈ new → b ∈ bs ∧ bp_ref b ∉ bp_ref <$> blueprints_of w e) ∧
    (∀ b, b ∈ bs → bp_ref b ∈ bp_ref <$> blueprints_of w' e) ∧
    engine_objs w' = engine_objs w ∧ entity_arrays w' = entity_arrays w ∧
    notifications w' = notifications w.
Proof.
  intros Hreach HE.
  destruct (reachable_arrays_live w Hreach e E HE) as [_ (arr & Harr & Hfr)].
  destruct (addBlueprints_live e E bs w arr HE Harr Hfr)
    as (w' & arr' & new & Hrun & Heng & Hents & Hnot & Harr' & _ & Hel & Hnd
        & Hnew & Hall).
  exists w', new. rewrite (blueprints_of_eq w e E arr HE Harr).
  rewrite <- Heng in HE. by rewrite (blueprints_of_eq w' e E arr' HE Harr').
Qed.

Lemma addBlueprints_adds_new_objects_witness :
  ∃ w' new, addBlueprints 0%nat [blueprint_A; blueprint_B; blueprint_B] late_world
              = Ok tt w' ∧
            blueprints_of w' 0%nat = blueprints_of late_world 0%nat ++ new ∧
            NoDup (bp_ref <$> new).
Proof.
  destruct (addBlueprints_adds_new_objects 0%nat [blueprint_A; blueprint_B; blueprint_B]
              late_world late_engine) as (w' & new & H1 & H2 & H3 & _).
  - exact late_world_reachable.
  - vm_compute. reflexivity.
  - exists w', new. split; [exact H1|]. split; [exact H2|exact H3].
Defined.

(** ** The constructor *)

Lemma new_Engine_live components bt w :
  arrays_live w →
  ∃ e w' E,
    new_Engine components bt w = Ok e w' ∧ engine_objs w !! e = None ∧
    engine_objs w' = <[e := E]> (engine_objs w) ∧
    E = mkEngine (fresh (dom (entity_arrays w))) [] [] false None bt
                 (fresh (dom (blueprint_arrays w))) components ∧
    entities_of w' e = [] ∧ blueprints_of w' e = [] ∧
    (∀ e2, e2 ≠ e → entities_of w' e2 = entities_of w e2 ∧
                    blueprints_of w' e2 = blueprints_of w e2) ∧
    system_objs w' = system_objs w ∧ notifications w' = notifications w ∧
    invocations w' = invocations w.
Proof.
  intros Hlive. unfold new_Engine. unfold_monad. eexists _, _, _.
  split; [done|]. split; [apply not_elem_of_dom, is_fresh|].
  split; [done|]. split; [done|].
  unfold entities_of, blueprints_of. simpl. rewrite !lookup_insert_eq. simpl.
  do 2 (split; [done|]). split; [|done].
  intros e2 Hne. rewrite !lookup_insert_ne by done.
  destruct (engine_objs w !! e2) as [E2|] eqn:HE2; [|done].
  destruct (Hlive e2 E2 HE2) as [(a & Ha & _) (b & Hb & _)].
  rewrite !lookup_insert_ne; [done|by eapply fresh_loc_ne..].
Qed.

(** X21.  In every state the program reaches, the constructor returns an
    engine that was not there before; it has no listener, no system and no
    factory, its flag is down, it holds no entity and no blueprint, and no
    system has it among its engines; every other engine, with the entities
    and the blueprints it holds, is as before. *)
Theorem new_Engine_is_empty components bt w :
  reachable w →
  ∃ e w' E,
    new_Engine components bt w = Ok e w' ∧ engine_objs w !! e = None ∧
    engine_objs w' !! e = Some E ∧
    _entityListeners E = [] ∧ _systems E = [] ∧ _systemsNeedSorting E = false ∧
    entityFactory E = None ∧ blueprintTypes E = bt ∧ _components E = components ∧
    entities_of w' e = [] ∧ blueprints_of w' e = [] ∧
    (∀ s, e ∉ _engines (system_of w' s)) ∧
    (∀ e2, e2 ≠ e → engine_objs w' !! e2 = engine_objs w !! e2 ∧
                    entities_of w' e2 = entities_of w e2 ∧
                    blueprints_of w' e2 = blueprints_of w e2).
Proof.
  intros Hreach.
  destruct (new_Engine_live components bt w (reachable_arrays_live w Hreach))
    as (e & w' & E & Hnew & Hfresh & Heng & -> & Hents & Hbps & Hothers & Hsys & _).
  eexists e, w', _. split; [done|]. split; [done|].
  split; [rewrite Heng; apply lookup_insert_eq|]. do 8 (split; [done|]). split.
  - intros s Hin. destruct (reachable_consistent w Hreach) as [_ Hexist].
    unfold system_of in Hin. rewrite Hsys in Hin.
    destruct (Hexist s e Hin) as [E HE]. congruence.
  - intros e2 Hne. split; [|by apply Hothers].
    rewrite Heng. by apply lookup_insert_ne.
Qed.

Lemma new_Engine_is_empty_witness :
  ∃ e w', new_Engine [] None two_listeners = Ok e w' ∧
          entities_of w' e = [] ∧ entities_of w' 0%nat = [4%nat].
Proof.
  destruct (new_Engine_is_empty [] None two_listeners)
    as (e & w' & E & Hnew & Hfresh & _ & _ & _ & _ & _ & _ & _ & Hents & _ & _ & Hothers).
  - exact two_listeners_reachable.
  - exists e, w'. split; [exact Hnew|]. split; [exact Hents|].
    destruct (Hothers 0%nat) as (_ & -> & _).
    + intros <-. revert Hfresh. vm_compute. discriminate.
    + vm_compute. reflexivity.
Defined.

(** ** The application *)

Lemma sort_step_full e w E :
  engine_objs w !! e = Some E →
  ∃ w1 E1,
    sort_step e w = Ok tt w1 ∧ engine_objs w1 !! e = Some E1 ∧
    _systems E1 = tick_order w E ∧ _systemsNeedSorting E1 = false ∧
    array_fields E1 = array_fields E ∧ entityFactory E1 = entityFactory E ∧
    _entityListeners E1 = _entityListeners E ∧
    entity_arrays w1 = entity_arrays w ∧ blueprint_arrays w1 = blueprint_arrays w ∧
    system_objs w1 = system_objs w ∧ notifications w1 = notifications w ∧
    invocations w1 = invocations w.
Proof.
  intros HE. unfold sort_step, tick_order. unfold_monad. rewrite HE.
  destruct (_systemsNeedSorting E) eqn:Hflag; simpl.
  - rewrite lookup_insert_eq. eexists _, _. split; [done|]. simpl.
    rewrite lookup_insert_eq. done.
  - eexists _, _. split; [done|]. done.
Qed.

(** A tick in which no callback makes a call. *)
Lemma update_idle handlers behaviour fuel e delta w E :
  engine_objs w !! e = Some E →
  (∀ s w0, s ∈ _systems E → behaviour s e delta w0 = []) →
  (length (_systems E) < fuel)%nat →
  ∃ w' E',
    update handlers behaviour fuel e delta w = Ok tt w' ∧ engine_objs w' !! e = Some E' ∧
    _systems E' = tick_order w E ∧ _systemsNeedSorting E' = false ∧
    invocations w' = invocations w ++ (invoke e delta <$> tick_order w E) ∧
    array_fields E' = array_fields E ∧ entityFactory E' = entityFactory E ∧
    _entityListeners E' = _entityListeners E ∧
    entity_arrays w' = entity_arrays w ∧ blueprint_arrays w' = blueprint_arrays w ∧
    system_objs w' = system_objs w ∧ notifications w' = notifications w.
Proof.
  intros HE Hidle Hfuel.
  destruct (sort_step_full e w E HE)
    as (w1 & E1 & Hsort & HE1 & Hss1 & Hflag1 & Hfields & Hfac & Hls & Hents & Hbps
        & Hsys & Hnot & Hinv).
  assert (tick_order w E ≡ₚ _systems E) as Hperm.
  { unfold tick_order. destruct (_systemsNeedSorting E); [|done].
    apply Array_sort_perm. }
  unfold update. rewrite bind_eq, Hsort.
  rewrite <- Hperm in Hfuel.
  generalize fuel at 1. intros depth.
  replace fuel with (length (tick_order w E) + S (fuel - length (tick_order w E) - 1))%nat
    by lia.
  rewrite (run_systems_idle handlers behaviour depth e delta (tick_order w E) [] [] _
             w1 E1 HE1);
    cycle 1.
  { by rewrite app_nil_r. }
  { intros s w0 Hs. apply Hidle. by rewrite <- Hperm. }
  cbn [length Nat.add run_systems]. rewrite bind_eq. unfold get_engine at 1.
  change (engine_objs (logged ?xs w1)) with (engine_objs w1). rewrite HE1.
  rewrite lookup_ge_None_2 by (rewrite Hss1; lia).
  eexists _, E1. split; [done|]. split; [done|]. do 2 (split; [done|]).
  split; [|done].
  change (invocations (logged ?xs w1)) with (invocations w1 ++ xs).
  by rewrite Hinv.
Qed.

Lemma addSystems_frame e ss : ∀ w w' E,
  addSystems e ss w = Ok tt w' → engine_objs w !! e = Some E →
  entity_arrays w' = entity_arrays w ∧ blueprint_arrays w' = blueprint_arrays w ∧
  notifications w' = notifications w ∧ invocations w' = invocations w ∧
  ∃ E', engine_objs w' !! e = Some E' ∧ array_fields E' = array_fields E ∧
        entityFactory E' = entityFactory E ∧
        _entityListeners E' = _entityListeners E.
Proof.
  unfold addSystems. induction ss as [|x ss IH]; intros w w' E.
  - intros [= <-] HE. eauto 10.
  - rewrite for_of_cons, addSystem_eq. intros Hrun HE. rewrite HE in Hrun.
    destruct (indexOf x (_systems E)); [by apply (IH w w' E)|].
    cbn zeta in Hrun.
    set (E1 := with_systemsNeedSorting (with_systems E (_systems E ++ [x])) true) in *.
    set (w1 := set_engine_objs <[e := E1]> _) in *.
    assert (engine_objs w1 !! e = Some E1) as HE1 by apply lookup_insert_eq.
    destruct (IH w1 w' E1 Hrun HE1) as (-> & -> & -> & -> & E' & HE' & Hf & Hfac & Hls).
    unfold w1, attached.
    destruct (indexOf e _); simpl; (do 4 (split; [done|])); exists E';
      by rewrite Hf, Hfac, Hls.
Qed.

Lemma addEntity_no_listeners handlers fuel e entity w E a :
  engine_objs w !! e = Some E → _entityListeners E = [] →
  entity_arrays w !! _entities E = Some a → frozen a = false → entity ∉ elems a →
  exec handlers fuel (AddEntity e entity) w
  = Ok tt (set_entity_arrays <[_entities E := mkArray (elems a ++ [entity]) false]> w).
Proof.
  intros HE Hls Ha Hfr Hnew. rewrite exec_unfold. simpl.
  rewrite addEntity_unfold, HE, Ha, Hfr. apply indexOf_None in Hnew as ->.
  rewrite for_listeners_unfold. simpl. by rewrite HE, Hls.
Qed.

(** X22.  The constructor of [App], run by a program that has done nothing
    else, with systems whose callbacks make no call, returns.  The engine
    then has each of the given systems once; the three ticks have invoked
    them in three rounds of one and the same order; the engine holds the one
    entity, its registry holds the two blueprints, it has a factory, and,
    there being no listener, nothing has been notified. *)
Theorem new_App_runs_three_rounds PositionComponent RenderComponent BlueprintType
    appSystems entity handlers behaviour fuel :
  (∀ s w0, s ∈ appSystems → behaviour s 0%nat 0 w0 = []) →
  (length appSystems < fuel)%nat →
  ∃ w' E order,
    new_App PositionComponent RenderComponent BlueprintType appSystems
            entity handlers behaviour fuel empty_world = Ok 0%nat w' ∧
    engine_objs w' !! 0%nat = Some E ∧ _systems E = order ∧
    NoDup order ∧ (∀ s, s ∈ order ↔ s ∈ appSystems) ∧
    invocations w' = (invoke 0%nat 0 <$> order ++ order ++ order) ∧
    entities_of w' 0%nat = [entity] ∧
    blueprints_of w' 0%nat
      = [Renderable PositionComponent RenderComponent; Player RenderComponent] ∧
    is_Some (entityFactory E) ∧ notifications w' = [].
Proof.
  intros Hidle Hfuel.
  set (R := Renderable PositionComponent RenderComponent).
  set (P := Player RenderComponent).
  set (cs := componets PositionComponent RenderComponent).
  set (w4 := run_host [Construct cs (Some BlueprintType); Call silent 0 (AddBlueprint 0%nat R);
                       Call silent 0 (AddBlueprint 0%nat P); Call silent 0 (Start 0%nat)] empty_world).
  set (E4 := mkEngine 0 [] [] false (Some (mkEntityFactory [R; P] cs))
                      (Some BlueprintType) 0 cs).
  assert (reachable w4) as Hreach4 by apply reachable_run_host, reachable_empty.
  assert (engine_objs w4 !! 0%nat = Some E4) as HE4 by (vm_compute; reflexivity).
  unfold new_App. fold R P cs.
  rewrite bind_eq.
  assert (new_Engine cs (Some BlueprintType) empty_world
          = Ok 0%nat (run_host [Construct cs (Some BlueprintType)] empty_world)) as ->
    by (vm_compute; reflexivity).
  rewrite bind_eq.
  assert (addBlueprint 0%nat R (run_host [Construct cs (Some BlueprintType)] empty_world)
          = Ok tt (run_host [Construct cs (Some BlueprintType);
                             Call silent 0 (AddBlueprint 0%nat R)] empty_world)) as ->
    by (vm_compute; reflexivity).
  rewrite bind_eq.
  assert (addBlueprint 0%nat P
            (run_host [Construct cs (Some BlueprintType);
                       Call silent 0 (AddBlueprint 0%nat R)] empty_world)
          = Ok tt (run_host [Construct cs (Some BlueprintType);
                             Call silent 0 (AddBlueprint 0%nat R);
                             Call silent 0 (AddBlueprint 0%nat P)] empty_world)) as ->
    by (vm_compute; reflexivity).
  rewrite bind_eq.
  assert (start 0%nat
            (run_host [Construct cs (Some BlueprintType);
                       Call silent 0 (AddBlueprint 0%nat R);
                       Call silent 0 (AddBlueprint 0%nat P)] empty_world)
          = Ok tt w4) as ->
    by (vm_compute; reflexivity).
  destruct (addSystems_reachable 0%nat appSystems w4 E4 Hreach4 HE4)
    as (w5 & E5' & new & Hadd & Hreach5 & HE5' & Hss5 & Hnd & Hin & _ & _).
  destruct (addSystems_frame 0%nat appSystems w4 w5 E4 Hadd HE4)
    as (Hents5 & Hbps5 & Hnot5 & Hinv5 & E5 & HE5 & Hfields5 & Hfac5 & Hls5).
  rewrite HE5' in HE5. injection HE5 as <-.
  rewrite bind_eq, Hadd. simpl in Hss5.
  assert (∀ s, s ∈ new ↔ s ∈ appSystems) as Hnew.
  { intros s. rewrite Hin. split; [by intros [? _]|]. intros Hs. split; [done|].
    apply not_elem_of_nil. }
  assert (length new ≤ length appSystems)%nat as Hlen.
  { apply submseteq_length, NoDup_submseteq; [done|]. intros s. apply Hnew. }
  injection Hfields5 as Hents_loc Hbps_loc. simpl in Hents_loc, Hbps_loc, Hfac5, Hls5.
  assert (entity_arrays w5 !! _entities E5' = Some (mkArray [] false)) as Ha5.
  { rewrite Hents_loc, Hents5. vm_compute. reflexivity. }
  rewrite bind_eq.
  rewrite (addEntity_no_listeners handlers fuel 0%nat entity w5 E5' (mkArray [] false)
             HE5' Hls5 Ha5 eq_refl (not_elem_of_nil _)).
  rewrite Hents_loc. cbn [elems app].
  set (w6 := set_entity_arrays _ _).
  assert (engine_objs w6 !! 0%nat = Some E5') as HE6 by exact HE5'.
  assert (∀ s w0, s ∈ new → behaviour s 0%nat 0 w0 = []) as Hidle'.
  { intros s w0 Hs. apply Hidle. by apply Hnew. }
  destruct (update_idle handlers behaviour fuel 0%nat 0 w6 E5' HE6)
    as (w7 & E7 & Hup7 & HE7 & Hss7 & Hflag7 & Hinv7 & Hfields7 & Hfac7 & Hls7
        & Hents7 & Hbps7 & Hsys7 & Hnot7);
    [by rewrite Hss5|rewrite Hss5; lia|].
  set (order := tick_order w6 E5') in *.
  assert (order ≡ₚ new) as Hperm.
  { unfold order, tick_order. rewrite Hss5.
    destruct (_systemsNeedSorting E5'); [|done]. apply Array_sort_perm. }
  assert (tick_order w7 E7 = order) as Horder7.
  { unfold tick_order. by rewrite Hflag7. }
  destruct (update_idle handlers behaviour fuel 0%nat 0 w7 E7 HE7)
    as (w8 & E8 & Hup8 & HE8 & Hss8 & Hflag8 & Hinv8 & Hfields8 & Hfac8 & Hls8
        & Hents8 & Hbps8 & Hsys8 & Hnot8);
    [rewrite Hss7; intros s w0 Hs; apply Hidle'; by rewrite <- Hperm
    |rewrite Hss7, Hperm; lia|].
  rewrite Horder7 in Hss8, Hinv8.
  assert (tick_order w8 E8 = order) as Horder8.
  { unfold tick_order. by rewrite Hflag8. }
  destruct (update_idle handlers behaviour fuel 0%nat 0 w8 E8 HE8)
    as (w9 & E9 & Hup9 & HE9 & Hss9 & Hflag9 & Hinv9 & Hfields9 & Hfac9 & Hls9
        & Hents9 & Hbps9 & Hsys9 & Hnot9);
    [rewrite Hss8; intros s w0 Hs; apply Hidle'; by rewrite <- Hperm
    |rewrite Hss8, Hperm; lia|].
  rewrite Horder8 in Hss9, Hinv9.
  rewrite bind_eq, Hup7, bind_eq, Hup8, bind_eq, Hup9.
  exists w9, E9, order. split; [done|]. split; [done|]. split; [done|].
  split; [by rewrite Hperm|]. split; [intros s; by rewrite Hperm|].
  injection Hfields7 as He7 Hb7. injection Hfields8 as He8 Hb8.
  injection Hfields9 as He9 Hb9.
  split; [|split; [|split; [|split]]].
  - rewrite Hinv9, Hinv8, Hinv7, !fmap_app, <- !app_assoc.
    change (invocations w6) with (invocations w5). rewrite Hinv5.
    by assert (invocations w4 = []) as -> by (vm_compute; reflexivity).
  - unfold entities_of. rewrite HE9, He9, He8, He7, Hents_loc, Hents9, Hents8, Hents7.
    unfold w6. simpl. by rewrite lookup_insert_eq.
  - unfold blueprints_of. rewrite HE9, Hb9, Hb8, Hb7, Hbps_loc, Hbps9, Hbps8, Hbps7.
    change (blueprint_arrays w6) with (blueprint_arrays w5). rewrite Hbps5.
    by assert (blueprint_arrays w4 !! 0%nat = Some (mkArray [R; P] false)) as ->
      by (vm_compute; reflexivity).
  - by rewrite Hfac9, Hfac8, Hfac7, Hfac5.
  - rewrite Hnot9, Hnot8, Hnot7. unfold w6. simpl. rewrite Hnot5.
    vm_compute. reflexivity.
Qed.

Lemma new_App_runs_three_rounds_witness :
  ∃ w' E order,
    new_App X X numeric_enum [10; 11; 10]%nat 4%nat unsubscribing idle 5 empty_world
      = Ok 0%nat w' ∧
    engine_objs w' !! 0%nat = Some E ∧ _systems E = order ∧ NoDup order.
Proof.
  destruct (new_App_runs_three_rounds X X numeric_enum [10; 11; 10]%nat 4%nat
              unsubscribing idle 5)
    as (w' & E & order & H1 & H2 & H3 & H4 & _).
  - intros s w0 Hs. reflexivity.
  - simpl. lia.
  - exists w', E, order. split; [exact H1|]. split; [exact H2|].
    split; [exact H3|exact H4].
Defined.
